(** * youtube-research-automation: the research pipeline, embedded and verified

    A shallow embedding of the parts of the repository whose behaviour the
    specification describes:

    - [src/mastra/tools/simpleVideoTracker.ts]  (Duplicate Tracker)
    - [src/mastra/tools/youtubeScraper.ts]      (Transcript Resolver, Metadata
      Harvester, Ingestion Coordinator)
    - [src/mastra/tools/dataStorage.ts]         (the persist stage)
    - [src/mastra/inngest/index.ts]             (trigger wrappers, Run Ledger)
    - [src/mastra/tools/contentAnalyzer.ts]     (the batch loop of the
      analysis stage)
    - [src/mastra/workflows/youtubeResearchWorkflow.ts]  (the first step)

    Conventions of the embedding.

    - A JavaScript string is a Rocq [string]; one [ascii] stands for one code
      unit, and every literal the code compares against is ASCII.
    - An [async] function that reads or writes the tracking file, the
      database, the clock or the log is a function in the monad [M]: explicit
      state passing over a [World], with a [Result] that is either a value or
      a thrown error.  [try]/[catch]/[finally] are combinators of that monad.
    - External collaborators (browser automation, the downloader, the
      speech-to-text service) are fields of an environment record [Env].
    - The optional logger is modelled by the trace of the world: the entries
      recorded are the log lines by which the code announces a strategy, a
      scrape or a defensive insert.
    - The database and the file system may fail.  The world carries one
      fault script for each: every statement sent to the database and every
      call that creates or writes a file under [data/] consumes one entry
      of its script, and throws when the entry says so. *)

From Stdlib Require Import String Ascii List NArith ZArith Bool Lia.
From Stdlib Require QArith.
From stdpp Require Import base option list strings gmap pretty sorting.

Import ListNotations.
Local Open Scope string_scope.
Local Open Scope list_scope.

(* ===================================================================== *)
(** * JavaScript strings *)
(* ===================================================================== *)

Module Js.

(** [s.length] *)
Definition length (s : string) : nat := String.length s.

(** [s.startsWith(lit)], returning what follows the literal. *)
Fixpoint strip_prefix (lit s : string) : option string :=
  match lit with
  | EmptyString => Some s
  | String a lit' =>
      match s with
      | EmptyString => None
      | String b s' => if Ascii.eqb a b then strip_prefix lit' s' else None
      end
  end.

(** [s.slice(0, n)] for [0 <= n]. *)
Fixpoint slice0 (n : nat) (s : string) : string :=
  match n, s with
  | O, _ => EmptyString
  | _, EmptyString => EmptyString
  | S n', String c s' => String c (slice0 n' s')
  end.

(** White space in the sense of [String.prototype.trim], restricted to the
    code units below 256: TAB, LF, VT, FF, CR, SP and NBSP. *)
Definition is_space (c : ascii) : bool :=
  let n := nat_of_ascii c in
  (Nat.eqb n 9 || Nat.eqb n 10 || Nat.eqb n 11 || Nat.eqb n 12
   || Nat.eqb n 13 || Nat.eqb n 32 || Nat.eqb n 160)%bool.

Fixpoint trimStart (s : string) : string :=
  match s with
  | EmptyString => EmptyString
  | String c s' => if is_space c then trimStart s' else s
  end.

Fixpoint trimEnd (s : string) : string :=
  match s with
  | EmptyString => EmptyString
  | String c s' =>
      match trimEnd s' with
      | EmptyString => if is_space c then EmptyString else String c EmptyString
      | t => String c t
      end
  end.

(** [s.trim()] *)
Definition trim (s : string) : string := trimEnd (trimStart s).

(** [segments.join(sep)] *)
Fixpoint join (sep : string) (parts : list string) : string :=
  match parts with
  | [] => EmptyString
  | [p] => p
  | p :: rest => p +:+ sep +:+ join sep rest
  end.

(** [c.repeat(n)] for a single code unit. *)
Fixpoint repeat (c : ascii) (n : nat) : string :=
  match n with
  | O => EmptyString
  | S n' => String c (repeat c n')
  end.

(** A JavaScript number; every finite double is a rational. *)
Inductive Number : Type :=
| NaN
| Infinity
| NegInfinity
| Finite (q : QArith_base.Q).

Inductive IntegerOrInfinity : Type :=
| PlusInfinity
| MinusInfinity
| Integer (z : Z).

(** [ToIntegerOrInfinity]: [NaN] becomes 0, a finite number is truncated
    towards zero. *)
Definition ToIntegerOrInfinity (n : Number) : IntegerOrInfinity :=
  match n with
  | NaN => Integer 0
  | Infinity => PlusInfinity
  | NegInfinity => MinusInfinity
  | Finite q =>
      Integer (Z.quot (QArith_base.Qnum q) (Zpos (QArith_base.Qden q)))
  end.

(** [xs.slice(0, end)] by the steps of [Array.prototype.slice]; [None]
    stands for an [end] that is [undefined]. *)
Definition slice_to {A} (end_ : option Number) (xs : list A) : list A :=
  let len := Z.of_nat (List.length xs) in
  let final :=
    match end_ with
    | None => len
    | Some n =>
        match ToIntegerOrInfinity n with
        | MinusInfinity => 0%Z
        | Integer relativeEnd =>
            if (relativeEnd <? 0)%Z
            then Z.max (len + relativeEnd) 0
            else Z.min relativeEnd len
        | PlusInfinity => len
        end
    end in
  take (Z.to_nat final) xs.

End Js.

(* ===================================================================== *)
(** * Regular expressions of the repository *)
(* ===================================================================== *)

(** Every pattern the two tools match URLs with has the shape
    [(?:lit_1|...|lit_k)(class quantifier)]: an alternation of literals
    followed by one capture group that repeats a character class.  A
    pattern is kept as data, so that each definition below can be read
    against the regular expression literal it embeds. *)

Module Regex.

Inductive Quantifier : Type :=
| OneOrMore              (* [+]   *)
| Exactly (n : nat).     (* [{n}] *)

Record Pattern : Type := {
  alternatives : list string;
  class : ascii -> bool;
  quantifier : Quantifier
}.

(** The longest run of class characters at the head of [s] (greedy [+];
    nothing follows the group, so the matcher never gives characters back). *)
Fixpoint run (cls : ascii -> bool) (s : string) : string :=
  match s with
  | EmptyString => EmptyString
  | String c s' => if cls c then String c (run cls s') else EmptyString
  end.

(** Exactly [n] class characters at the head of [s]. *)
Fixpoint exactly (cls : ascii -> bool) (n : nat) (s : string) : option string :=
  match n with
  | O => Some EmptyString
  | S n' =>
      match s with
      | EmptyString => None
      | String c s' =>
          if cls c then
            match exactly cls n' s' with
            | Some g => Some (String c g)
            | None => None
            end
          else None
      end
  end.

Definition group (cls : ascii -> bool) (q : Quantifier) (s : string)
  : option string :=
  match q with
  | OneOrMore =>
      match run cls s with
      | EmptyString => None
      | g => Some g
      end
  | Exactly n => exactly cls n s
  end.

(** The alternatives are tried in the order they are written; an
    alternative whose literal matches but whose group fails is abandoned
    for the next one. *)
Fixpoint match_alternatives (alts : list string) (cls : ascii -> bool)
    (q : Quantifier) (s : string) : option string :=
  match alts with
  | [] => None
  | lit :: alts' =>
      match Js.strip_prefix lit s with
      | Some rest =>
          match group cls q rest with
          | Some g => Some g
          | None => match_alternatives alts' cls q s
          end
      | None => match_alternatives alts' cls q s
      end
  end.

Definition match_here (p : Pattern) (s : string) : option string :=
  match_alternatives (alternatives p) (class p) (quantifier p) s.

(** [s.match(p)]: the leftmost position at which the pattern matches; the
    value is capture group 1 ([match[1]]), [None] stands for [null]. *)
Fixpoint match1 (p : Pattern) (s : string) : option string :=
  match match_here p s with
  | Some g => Some g
  | None =>
      match s with
      | EmptyString => None
      | String _ s' => match1 p s'
      end
  end.

Definition one_of (cs : list ascii) (c : ascii) : bool :=
  existsb (Ascii.eqb c) cs.

Definition in_range (lo hi c : ascii) : bool :=
  (Nat.leb (nat_of_ascii lo) (nat_of_ascii c)
   && Nat.leb (nat_of_ascii c) (nat_of_ascii hi))%bool.

(** [[^&\n?#]] *)
Definition not_delimiter (c : ascii) : bool :=
  negb (one_of ["&"; "010"; "?"; "#"]%char c).

(** [[a-zA-Z0-9_-]] *)
Definition id_char (c : ascii) : bool :=
  (in_range "a" "z" c || in_range "A" "Z" c || in_range "0" "9" c
   || one_of ["_"; "-"]%char c)%bool.

End Regex.

(* ===================================================================== *)
(** * Data model *)
(* ===================================================================== *)

(** Instants ([new Date()], [NOW()]) are readings of the world's clock. *)
Definition Time : Type := nat.

(** [simpleVideoTracker.ts]: the records of [data/video_tracking.json]. *)
Module TrackerData.

Record VideoRecord : Type := {
  videoId : string;
  url : string;
  title : option string;
  channelName : option string;
  scrapedAt : Time;
  isAnalyzed : bool;
  analysisFile : option string
}.

Record VideoTrackingData : Type := {
  videos : list VideoRecord;
  lastUpdated : Time
}.

End TrackerData.

(** [shared/schema.ts]: the rows of [workflow_runs] (the serial [id] is
    left out; [run_id] is unique). *)
Module LedgerData.

Record Metadata : Type := {
  trigger : string;
  schedule : option string;
  source : option string;
  note : option string
}.

Record RunRow : Type := {
  run_id : string;
  status : string;
  started_at : Time;
  completed_at : option Time;
  error_message : option string;
  video_count : nat;
  metadata : Metadata
}.

End LedgerData.

(* ===================================================================== *)
(** * Effects: the world, errors and the monad *)
(* ===================================================================== *)

(** A thrown [Error] is represented by its message. *)
Definition Error : Type := string.

(** [String(error)] *)
Definition String_of_error (e : Error) : string := "Error: " +:+ e.

Inductive Result (A : Type) : Type :=
| Ok (a : A)
| Throw (e : Error).
Arguments Ok {A} a.
Arguments Throw {A} e.

Inductive Strategy : Type :=
| TranscriptPanel
| CaptionTrack
| DownloadAndTranscribe.

(** Trace entries, one per log line of the code that a statement refers to. *)
Inductive Event : Type :=
| StrategyStarted (s : Strategy) (videoUrl : string)
| BrowserClosed (videoUrl : string)
| CleanupCalled (audioPath : string)
| CleanupWarning (audioPath : string)
| ScrapingVideo (videoUrl : string)
| ScrapeFailed (videoUrl : string)
| DatabaseCheckFailed
| DefensiveInsert (trigger runId status : string)
| RunFinished (trigger runId status : string)
| StatusUpdateFailed (trigger runId : string).

Record World : Type := {
  tracking_file : option TrackerData.VideoTrackingData;
    (* [data/video_tracking.json]; [None]: absent or unreadable *)
  fs_faults : list bool;
    (* one entry is consumed by each call that creates or writes a file
       under [data/]; [true]: that call rejects and leaves the files as
       they were.  Past the end nothing fails. *)
  videos_table : list string;
    (* column [video_id] of the rows of table [videos] *)
  workflow_runs : list LedgerData.RunRow;
  db_faults : list bool;
    (* one entry is consumed by each statement sent to the database;
       [true]: that statement throws.  Past the end nothing fails. *)
  tx_error : option Error;
    (* inside [db.transaction]: the first error of a statement of the
       transaction, which the driver keeps *)
  clock : Time;
  trace : list Event
}.

Definition M (A : Type) : Type := World -> Result A * World.

Definition ret {A} (a : A) : M A := fun w => (Ok a, w).

Definition throw {A} (e : Error) : M A := fun w => (Throw e, w).

Definition bind {A B} (m : M A) (k : A -> M B) : M B :=
  fun w =>
    match m w with
    | (Ok a, w') => k a w'
    | (Throw e, w') => (Throw e, w')
    end.

Declare Scope js_scope.
Delimit Scope js_scope with js.
Notation "'let*' x := m 'in' k" := (bind m (fun x => k))
  (at level 61, x name, m at level 100, k at level 200) : js_scope.
Notation "m ;;; k" := (bind m (fun _ => k))
  (at level 100, k at level 200, right associativity) : js_scope.
Local Open Scope js_scope.

(** [try { body } catch (e) { handler }] *)
Definition try_catch {A} (body : M A) (handler : Error -> M A) : M A :=
  fun w =>
    match body w with
    | (Ok a, w') => (Ok a, w')
    | (Throw e, w') => handler e w'
    end.

(** [try { body } finally { final }]: [final] always runs; when it throws,
    its error replaces the outcome of [body]. *)
Definition try_finally {A} (body : M A) (final : M unit) : M A :=
  fun w =>
    match body w with
    | (r, w') =>
        match final w' with
        | (Ok _, w'') => (r, w'')
        | (Throw e, w'') => (Throw e, w'')
        end
    end.

Definition set_tracking_file (f : option TrackerData.VideoTrackingData)
    (w : World) : World :=
  {| tracking_file := f; fs_faults := fs_faults w;
     videos_table := videos_table w; workflow_runs := workflow_runs w;
     db_faults := db_faults w; tx_error := tx_error w;
     clock := clock w; trace := trace w |}.

Definition set_fs_faults (fs : list bool) (w : World) : World :=
  {| tracking_file := tracking_file w; fs_faults := fs;
     videos_table := videos_table w; workflow_runs := workflow_runs w;
     db_faults := db_faults w; tx_error := tx_error w;
     clock := clock w; trace := trace w |}.

Definition set_workflow_runs (rows : list LedgerData.RunRow) (w : World)
  : World :=
  {| tracking_file := tracking_file w; fs_faults := fs_faults w;
     videos_table := videos_table w; workflow_runs := rows;
     db_faults := db_faults w; tx_error := tx_error w;
     clock := clock w; trace := trace w |}.

Definition set_db_faults (fs : list bool) (w : World) : World :=
  {| tracking_file := tracking_file w; fs_faults := fs_faults w;
     videos_table := videos_table w; workflow_runs := workflow_runs w;
     db_faults := fs; tx_error := tx_error w;
     clock := clock w; trace := trace w |}.

Definition set_tx_error (e : option Error) (w : World) : World :=
  {| tracking_file := tracking_file w; fs_faults := fs_faults w;
     videos_table := videos_table w; workflow_runs := workflow_runs w;
     db_faults := db_faults w; tx_error := e;
     clock := clock w; trace := trace w |}.

Definition set_clock (t : Time) (w : World) : World :=
  {| tracking_file := tracking_file w; fs_faults := fs_faults w;
     videos_table := videos_table w; workflow_runs := workflow_runs w;
     db_faults := db_faults w; tx_error := tx_error w;
     clock := t; trace := trace w |}.

Definition set_trace (tr : list Event) (w : World) : World :=
  {| tracking_file := tracking_file w; fs_faults := fs_faults w;
     videos_table := videos_table w; workflow_runs := workflow_runs w;
     db_faults := db_faults w; tx_error := tx_error w;
     clock := clock w; trace := tr |}.

(** [logger?.info(...)] and friends, for the lines kept in the trace. *)
Definition log (e : Event) : M unit :=
  fun w => (Ok tt, set_trace (trace w ++ [e]) w).

(** [new Date()] / [NOW()]: the reading advances the clock. *)
Definition now : M Time :=
  fun w => (Ok (clock w), set_clock (S (clock w)) w).

(** Every statement sent to the database first meets the fault script. *)
Definition db_statement : M unit :=
  fun w =>
    match db_faults w with
    | [] => (Ok tt, w)
    | false :: fs => (Ok tt, set_db_faults fs w)
    | true :: fs => (Throw "database error", set_db_faults fs w)
    end.

(** Every call that creates or writes a file under [data/] first meets
    the fault script of the file system. *)
Definition fs_write : M unit :=
  fun w =>
    match fs_faults w with
    | [] => (Ok tt, w)
    | false :: fs => (Ok tt, set_fs_faults fs w)
    | true :: fs => (Throw "file system error", set_fs_faults fs w)
    end.

(** [for (const x of xs) { body x }] *)
Fixpoint for_of {A} (xs : list A) (body : A -> M unit) : M unit :=
  match xs with
  | [] => ret tt
  | x :: xs' => body x ;;; for_of xs' body
  end.

(* ===================================================================== *)
(** * Duplicate Tracker ([simpleVideoTracker.ts]) *)
(* ===================================================================== *)

Module Tracker.
Import TrackerData.

(** [/(?:youtube\.com\/watch\?v=|youtu\.be\/|youtube\.com\/embed\/)([^&\n?#]+)/] *)
Definition watch_pattern : Regex.Pattern :=
  {| Regex.alternatives :=
       ["youtube.com/watch?v="; "youtu.be/"; "youtube.com/embed/"];
     Regex.class := Regex.not_delimiter;
     Regex.quantifier := Regex.OneOrMore |}.

(** [/youtube\.com\/v\/([^&\n?#]+)/] *)
Definition v_pattern : Regex.Pattern :=
  {| Regex.alternatives := ["youtube.com/v/"];
     Regex.class := Regex.not_delimiter;
     Regex.quantifier := Regex.OneOrMore |}.

Definition patterns : list Regex.Pattern := [watch_pattern; v_pattern].

(** The loop [for (const pattern of patterns)]: the first pattern with a
    match whose group 1 is a non-empty string decides. *)
Fixpoint first_match (ps : list Regex.Pattern) (url : string)
  : option string :=
  match ps with
  | [] => None
  | p :: ps' =>
      match Regex.match1 p url with
      | Some (String c g) => Some (String c g)
      | _ => first_match ps' url
      end
  end.

Definition extractVideoId (url : string) : Result string :=
  match first_match patterns url with
  | Some id => Ok id
  | None => Throw ("Invalid YouTube URL format: " +:+ url)
  end.

(** [fs.mkdir(dataDir, { recursive: true })], [fs.readFile(TRACKING_FILE)]
    and [JSON.parse]: the three steps of the [try] block.  A directory
    that cannot be made holds no readable file. *)
Definition readTrackingFile : M VideoTrackingData :=
  fun w =>
    match tracking_file w with
    | Some d => (Ok d, w)
    | None => (Throw "ENOENT: no such file or directory", w)
    end.

(** [fs.writeFile(TRACKING_FILE, JSON.stringify(data))]: when the call
    rejects, the file is as it was. *)
Definition writeTrackingFile (d : VideoTrackingData) : M unit :=
  fs_write ;;;
  fun w => (Ok tt, set_tracking_file (Some d) w).

Definition ensureTrackingFile : M VideoTrackingData :=
  try_catch readTrackingFile
    (fun _ =>
       let* t := now in
       let initialData := {| videos := []; lastUpdated := t |} in
       writeTrackingFile initialData ;;;
       ret initialData).

Definition saveTrackingData (data : VideoTrackingData) : M unit :=
  let* t := now in
  writeTrackingFile {| videos := videos data; lastUpdated := t |}.

(** One element of [results] in [checkDuplicates]. *)
Record CheckResult : Type := {
  r_url : string;
  r_videoId : option string;
  r_exists : bool;
  r_existingVideo : option VideoRecord;
  r_shouldSkip : bool;
  r_error : option string
}.

Record Summary : Type := {
  total : nat;
  duplicates : nat;
  new : nat;
  newUrls : option (list string);
  duplicateUrls : option (list string)
}.

(** [trackingData.videos.find(v => v.videoId === videoId)] *)
Definition find_video (id : string) (vs : list VideoRecord)
  : option VideoRecord :=
  snd <$> list_find (fun v => videoId v = id) vs.

(** [trackingData.videos.findIndex(v => v.videoId === videoId)];
    [None] stands for [-1]. *)
Definition findIndex_video (id : string) (vs : list VideoRecord)
  : option nat :=
  fst <$> list_find (fun v => videoId v = id) vs.

(** The body of the loop of [checkDuplicates] for one URL. *)
Definition check_url (trackingData : VideoTrackingData) (u : string)
  : CheckResult :=
  match extractVideoId u with
  | Ok id =>
      match find_video id (videos trackingData) with
      | Some existingVideo =>
          {| r_url := u; r_videoId := Some id; r_exists := true;
             r_existingVideo := Some existingVideo; r_shouldSkip := true;
             r_error := None |}
      | None =>
          {| r_url := u; r_videoId := Some id; r_exists := false;
             r_existingVideo := None; r_shouldSkip := false;
             r_error := None |}
      end
  | Throw e =>
      {| r_url := u; r_videoId := None; r_exists := false;
         r_existingVideo := None; r_shouldSkip := false;
         r_error := Some (String_of_error e) |}
  end.

Definition summarize (videoUrls : list string) (results : list CheckResult)
  : Summary :=
  let newVideos :=
    filter (fun r => r_exists r = false /\ r_error r = None) results in
  let duplicateVideos := filter (fun r => r_exists r = true) results in
  {| total := length videoUrls;
     duplicates := length duplicateVideos;
     new := length newVideos;
     newUrls := Some (r_url <$> newVideos);
     duplicateUrls := Some (r_url <$> duplicateVideos) |}.

Definition checkDuplicates (videoUrls : list string)
  : M (list CheckResult * Summary) :=
  let* trackingData := ensureTrackingFile in
  let results := check_url trackingData <$> videoUrls in
  ret (results, summarize videoUrls results).

(** The argument of [trackNewVideo] ([videoData] of the tool). *)
Record VideoData : Type := {
  d_videoId : string;
  d_url : string;
  d_title : option string;
  d_channelName : option string
}.

(** [{ ...old, ...videoRecord }]: every key of [videoRecord] overrides;
    [analysisFile] is the only key of [old] that [videoRecord] lacks. *)
Definition spread (old videoRecord : VideoRecord) : VideoRecord :=
  {| videoId := videoId videoRecord;
     url := url videoRecord;
     title := title videoRecord;
     channelName := channelName videoRecord;
     scrapedAt := scrapedAt videoRecord;
     isAnalyzed := isAnalyzed videoRecord;
     analysisFile := analysisFile old |}.

(** The update of [trackingData.videos] in [trackNewVideo]. *)
Definition upsert (videoRecord : VideoRecord) (vs : list VideoRecord)
  : list VideoRecord :=
  match findIndex_video (videoId videoRecord) vs with
  | Some existingIndex =>
      match vs !! existingIndex with
      | Some old => <[existingIndex := spread old videoRecord]> vs
      | None => vs
      end
  | None => vs ++ [videoRecord]
  end.

Definition trackNewVideo (d : VideoData) : M VideoRecord :=
  let* trackingData := ensureTrackingFile in
  let* t := now in
  let videoRecord :=
    {| videoId := d_videoId d; url := d_url d; title := d_title d;
       channelName := d_channelName d; scrapedAt := t;
       isAnalyzed := false; analysisFile := None |} in
  saveTrackingData
    {| videos := upsert videoRecord (videos trackingData);
       lastUpdated := lastUpdated trackingData |} ;;;
  ret videoRecord.

(** [.sort((a, b) => new Date(b.scrapedAt) - new Date(a.scrapedAt))]:
    newest first; the sort is stable. *)
Fixpoint insert_newest_first (v : VideoRecord) (sorted : list VideoRecord)
  : list VideoRecord :=
  match sorted with
  | [] => [v]
  | x :: rest =>
      if Nat.ltb (scrapedAt v) (scrapedAt x)
      then x :: insert_newest_first v rest
      else v :: sorted
  end.

Definition sort_newest_first (vs : list VideoRecord) : list VideoRecord :=
  foldr insert_newest_first [] vs.

(** [.slice(0, limit)]; [limit] is a number or [undefined]. *)
Definition slice_limit (limit : option Js.Number) (vs : list VideoRecord)
  : list VideoRecord :=
  Js.slice_to limit vs.

(** The [context] of the tool. *)
Record Context : Type := {
  action : string;
  videoUrls : option (list string);
  videoData : option VideoData;
  limit : option Js.Number
}.

Record Response : Type := {
  resp_action : string;
  success : bool;
  results : list CheckResult;
  tracked : list VideoRecord;
  summary : Summary;
  listed : list VideoRecord;
  message : option string
}.

Definition counts (total_ duplicates_ new_ : nat) : Summary :=
  {| total := total_; duplicates := duplicates_; new := new_;
     newUrls := None; duplicateUrls := None |}.

Definition execute (context : Context) : M Response :=
  try_catch
    (* [action === "check" && videoUrls] *)
    (match (if String.eqb (action context) "check"
            then videoUrls context else None) with
     | Some urls =>
         let* checkResult := checkDuplicates urls in
         ret {| resp_action := "check"; success := true;
                results := fst checkResult; tracked := [];
                summary := snd checkResult; listed := [];
                message := None |}
     | None =>
     (* [action === "track" && videoData] *)
     match (if String.eqb (action context) "track"
            then videoData context else None) with
     | Some d =>
         let* trackedVideo := trackNewVideo d in
         ret {| resp_action := "track"; success := true;
                results := []; tracked := [trackedVideo];
                summary := counts 1 0 1; listed := [];
                message := None |}
     | None =>
     if String.eqb (action context) "list" then
       let* trackingData := ensureTrackingFile in
       let vs :=
         slice_limit (limit context)
           (sort_newest_first (videos trackingData)) in
       ret {| resp_action := "list"; success := true;
              results := []; tracked := [];
              summary := counts (length vs) 0 0; listed := vs;
              message := None |}
     else if String.eqb (action context) "clear" then
       let* t := now in
       saveTrackingData {| videos := []; lastUpdated := t |} ;;;
       ret {| resp_action := "clear"; success := true;
              results := []; tracked := [];
              summary := counts 0 0 0; listed := [];
              message := Some "Video tracking data cleared" |}
     else
       throw ("Invalid action '" +:+ action context
              +:+ "' or missing required parameters")
     end
     end)
    (fun error =>
       ret {| resp_action := action context; success := false;
              results := []; tracked := [];
              summary := counts 0 0 0; listed := [];
              message := Some (String_of_error error) |}).

End Tracker.

(* ===================================================================== *)
(** * Transcript Resolver, Metadata Harvester, Ingestion Coordinator
      ([youtubeScraper.ts]) *)
(* ===================================================================== *)

Module Scraper.

(** ** External collaborators *)

(** What [videoDownloaderTool.execute] resolves to; [cleanup] is the
    outcome of calling the returned [cleanup()]. *)
Record DownloadResult : Type := {
  audioPath : string;
  fileSize : nat;
  cleanup : Result unit
}.

(** What [audioTranscriberTool.execute] resolves to. *)
Record TranscriptionResult : Type := {
  text : string;
  duration : nat;
  language : string
}.

(** The object built inside [page.evaluate] from the metadata elements. *)
Record VideoMetadata : Type := {
  m_title : string;
  m_views : string;
  m_likes : string;
  m_description : string;
  m_channelName : string;
  m_subscribers : string;
  m_tags : list string
}.

Record Env : Type := {
  (* [videoDownloaderTool.execute({ context: { url } })] *)
  videoDownloader : string -> Result DownloadResult;
  (* [audioTranscriberTool.execute({ context: { audioPath } })] *)
  audioTranscriber : string -> Result TranscriptionResult;
  (* Playwright: [chromium.launch] *)
  chromium_launch : Result unit;
  (* [newContext], [newPage], [goto], [waitForLoadState], [waitForTimeout] *)
  page_navigate : string -> Result unit;
  (* the "More actions" button: [isVisible], then [click] *)
  moreActionsVisible : string -> Result bool;
  (* the "Show transcript" option: [isVisible], then [click] *)
  transcriptOptionVisible : string -> Result bool;
  (* per transcript segment, the [textContent] of its text element,
     [None] when the segment has no such element *)
  transcriptSegments : string -> Result (list (option string));
  (* lines 137-231: the player response is read, an English track is
     chosen and fetched, its events are joined and the UI words removed;
     [Some cleanTranscript] when all of that produced a text, [None] when
     there is no track or no event list, [Throw] when a step threw *)
  captionTranscript : string -> Result (option string);
  (* Puppeteer: [launch], [newPage], [setUserAgent], [goto],
     [waitForSelector('h1.ytd-watch-metadata')] *)
  puppeteer_open : string -> Result unit;
  (* the first [page.evaluate]: the metadata of the page *)
  page_metadata : string -> Result VideoMetadata;
  (* [document.querySelectorAll('#content-text')]: per element its
     [textContent], [None] when it is null *)
  commentElements : string -> Result (list (option string))
}.

(** An oracle of the environment as a step of the monad. *)
Definition call {A} (r : Result A) : M A := fun w => (r, w).

(** ** Transcript strategies 1 and 2: [getTranscriptViaPlaywright] *)

(** The callback of [$$eval]: [textContent?.trim()] per segment, then
    [filter(text => text && text.length > 0)]. *)
Definition segment_texts (raw : list (option string)) : list string :=
  filter (fun t => t <> EmptyString) (omap (fmap Js.trim) raw).

(** Lines 94-130; [Some fullTranscript] is the [return] of line 127. *)
Definition transcript_panel (env : Env) (videoUrl : string)
  : M (option string) :=
  log (StrategyStarted TranscriptPanel videoUrl) ;;;
  let* moreActions := call (moreActionsVisible env videoUrl) in
  if (moreActions : bool) then
    let* transcriptOption := call (transcriptOptionVisible env videoUrl) in
    if (transcriptOption : bool) then
      let* raw := call (transcriptSegments env videoUrl) in
      let transcriptSegments := segment_texts raw in
      if Nat.ltb 0 (length transcriptSegments)
      then ret (Some (Js.join " " transcriptSegments))
      else ret None
    else ret None
  else ret None.

(** Lines 132-265; [Some cleanTranscript] is the [return] of line 240. *)
Definition caption_track (env : Env) (videoUrl : string)
  : M (option string) :=
  log (StrategyStarted CaptionTrack videoUrl) ;;;
  try_catch
    (let* found := call (captionTranscript env videoUrl) in
     match found with
     | Some cleanTranscript =>
         if Nat.ltb 50 (Js.length cleanTranscript)
         then ret (Some cleanTranscript)
         else ret None
     | None => ret None
     end)
    (fun playerError => ret None).

Definition getTranscriptViaPlaywright (env : Env) (videoUrl : string)
  : M string :=
  call (chromium_launch env) ;;;
  try_finally
    (call (page_navigate env videoUrl) ;;;
     let* panel := transcript_panel env videoUrl in
     match panel with
     | Some fullTranscript => ret fullTranscript
     | None =>
         let* captions := caption_track env videoUrl in
         match captions with
         | Some cleanTranscript => ret cleanTranscript
         | None => ret EmptyString
         end
     end)
    (log (BrowserClosed videoUrl)).

(** ** Transcript strategy 3: [getYouTubeTranscriptViaDownload] *)

Definition getYouTubeTranscriptViaDownload (env : Env) (videoUrl : string)
  : M string :=
  log (StrategyStarted DownloadAndTranscribe videoUrl) ;;;
  fun w =>
    (* [try]: the local [cleanup] as the block leaves it, and its outcome *)
    let '(cleanup_var, outcome) :=
      match videoDownloader env videoUrl with
      | Throw error => (None, Throw error)
      | Ok downloadResult =>
          (Some downloadResult,
           match audioTranscriber env (audioPath downloadResult) with
           | Throw error => Throw error
           | Ok transcriptionResult => Ok (text transcriptionResult)
           end)
      end in
    (* [catch (error) { return "" }] *)
    let returned :=
      match outcome with
      | Ok transcript => transcript
      | Throw _ => EmptyString
      end in
    (* [finally { if (cleanup) { try { cleanup() } catch { warn } } }] *)
    match cleanup_var with
    | Some downloadResult =>
        (try_catch
           (log (CleanupCalled (audioPath downloadResult)) ;;;
            call (cleanup downloadResult))
           (fun cleanupError =>
              log (CleanupWarning (audioPath downloadResult))) ;;;
         ret returned) w
    | None => (Ok returned, w)
    end.

(** ** Metadata Harvester: [getYouTubeVideoData] *)

(** [/(?:youtube\.com\/watch\?v=|youtu\.be\/)([a-zA-Z0-9_-]{11})/] *)
Definition id_pattern : Regex.Pattern :=
  {| Regex.alternatives := ["youtube.com/watch?v="; "youtu.be/"];
     Regex.class := Regex.id_char;
     Regex.quantifier := Regex.Exactly 11 |}.

Record ScrapedVideo : Type := {
  videoId : string;
  url : string;
  title : string;
  views : string;
  likes : string;
  description : string;
  channelName : string;
  subscribers : string;
  tags : list string;
  transcript : string;
  comments : list string;
  scrapedAt : Time
}.

(** One turn of the loop of lines 453-458, at index [i]. *)
Definition comment_step (commentElements : list (option string))
    (commentsArray : list string) (i : nat) : list string :=
  match commentElements !! i with
  | Some (Some textContent) =>
      let commentText := Js.trim textContent in
      if Nat.ltb 10 (Js.length commentText)
      then commentsArray ++ [commentText]
      else commentsArray
  | _ => commentsArray
  end.

(** The second [page.evaluate]:
    [for (let i = 0; i < Math.min(commentElements.length, 50); i++)]. *)
Definition extractComments (commentElements : list (option string))
  : list string :=
  fold_left (comment_step commentElements)
    (seq 0 (Nat.min (length commentElements) 50)) [].

Definition getYouTubeVideoData (env : Env) (videoUrl : string)
  : M ScrapedVideo :=
  match Regex.match1 id_pattern videoUrl with
  | None => throw "Invalid YouTube URL format"
  | Some videoId =>
      let* transcript := getYouTubeTranscriptViaDownload env videoUrl in
      call (puppeteer_open env videoUrl) ;;;
      let* videoData := call (page_metadata env videoUrl) in
      let* elements := call (commentElements env videoUrl) in
      let comments := extractComments elements in
      log (BrowserClosed videoUrl) ;;;
      let* t := now in
      ret {| videoId := videoId; url := videoUrl;
             title := m_title videoData; views := m_views videoData;
             likes := m_likes videoData;
             description := m_description videoData;
             channelName := m_channelName videoData;
             subscribers := m_subscribers videoData;
             tags := m_tags videoData;
             transcript := transcript;
             comments := take 50 comments;
             scrapedAt := t |}
  end.

(** ** Ingestion Coordinator: [youTubeScrapeTool.execute] *)

(** [db.select({ videoId }).from(videosTable)
       .where(inArray(videosTable.videoId, ids))]: the rows whose
    [video_id] is one of [ids] (none when [ids] is empty). *)
Definition select_videoIds (ids : list string) : M (list string) :=
  db_statement ;;;
  fun w => (Ok (filter (fun row => row ∈ ids) (videos_table w)), w).

(** The extraction of lines 563-565 and 588-589. *)
Definition url_videoId (u : string) : option string :=
  Regex.match1 id_pattern u.

(** The predicate of the filter of lines 587-591. *)
Definition missing_from_db (existingVideoIds : gset string) (u : string)
  : bool :=
  match url_videoId u with
  | Some videoId => bool_decide (videoId ∉ existingVideoIds)
  | None => false
  end.

(** Step 2, lines 556-605. *)
Definition reconcile (finalVideosToScrape fileTrackerDuplicates : list string)
  : M (list string) :=
  if Nat.ltb 0 (length fileTrackerDuplicates) then
    try_catch
      (let videoIdsToCheck := omap url_videoId fileTrackerDuplicates in
       let* existingVideos := select_videoIds videoIdsToCheck in
       let existingVideoIds : gset string := list_to_set existingVideos in
       let videosToReAdd :=
         filter (fun u => missing_from_db existingVideoIds u)
                fileTrackerDuplicates in
       if Nat.ltb 0 (length videosToReAdd)
       then ret (finalVideosToScrape ++ videosToReAdd)
       else ret finalVideosToScrape)
      (fun dbError => log DatabaseCheckFailed ;;; ret finalVideosToScrape)
  else ret finalVideosToScrape.

(** Steps 1 and 2 of [execute]: the URLs that will be scraped. *)
Definition finalVideosToScrape (videoUrls : list string)
  : M (list string) :=
  let* duplicateCheck :=
    Tracker.execute {| Tracker.action := "check";
                       Tracker.videoUrls := Some videoUrls;
                       Tracker.videoData := None;
                       Tracker.limit := None |} in
  if negb (Tracker.success duplicateCheck) then
    throw ("Duplicate check failed: "
           +:+ default EmptyString (Tracker.message duplicateCheck))
  else
    let newFromTracker :=
      default [] (Tracker.newUrls (Tracker.summary duplicateCheck)) in
    let fileTrackerDuplicates :=
      default [] (Tracker.duplicateUrls (Tracker.summary duplicateCheck)) in
    reconcile newFromTracker fileTrackerDuplicates.

(** Steps 3 and 4, lines 627-661: the loop over the URLs to scrape; a
    URL that fails is logged and skipped. *)
Fixpoint scrape_loop (env : Env) (urls : list string)
    (videos : list ScrapedVideo) : M (list ScrapedVideo) :=
  match urls with
  | [] => ret videos
  | videoUrl :: rest =>
      let* videos' :=
        try_catch
          (log (ScrapingVideo videoUrl) ;;;
           let* videoData := getYouTubeVideoData env videoUrl in
           (* [videos.push(videoData)] precedes the tracking call *)
           try_catch
             (Tracker.execute
                {| Tracker.action := "track";
                   Tracker.videoUrls := None;
                   Tracker.videoData :=
                     Some {| Tracker.d_videoId := videoId videoData;
                             Tracker.d_url := url videoData;
                             Tracker.d_title := Some (title videoData);
                             Tracker.d_channelName :=
                               Some (channelName videoData) |};
                   Tracker.limit := None |} ;;;
              ret (videos ++ [videoData]))
             (fun error =>
                log (ScrapeFailed videoUrl) ;;; ret (videos ++ [videoData])))
          (fun error => log (ScrapeFailed videoUrl) ;;; ret videos) in
      scrape_loop env rest videos'
  end.

Definition execute (env : Env) (videoUrls : list string)
  : M (list ScrapedVideo) :=
  let* toScrape := finalVideosToScrape videoUrls in
  if Nat.eqb (length toScrape) 0 then ret []
  else scrape_loop env toScrape [].

End Scraper.

(* ===================================================================== *)
(** * The persist stage ([dataStorage.ts], [saveAnalysisData]) *)
(* ===================================================================== *)

Module DataStorage.

Section RawAnalysis.

(** [analysis.rawAnalysis] is typed [any]: a truthy value that is not a
    string is serialised with [JSON.stringify]. *)
Variable JsObject : Type.
Variable JSON_stringify : JsObject -> string.

Inductive RawAnalysis : Type :=
| Falsy                  (* [undefined], [null], [0], [false] *)
| Text (s : string)
| Other (o : JsObject).  (* a truthy value that is not a string *)

(** [const MAX_RAW_ANALYSIS_SIZE = 262144; // 256KB limit] *)
Definition MAX_RAW_ANALYSIS_SIZE : N := 262144.

Definition truncation_marker : string :=
  "...[truncated for database storage]".

(** [if (analysis.rawAnalysis)]: the empty string is falsy too;
    otherwise [rawText] is the string itself or the serialisation. *)
Definition rawText_of (rawAnalysis : RawAnalysis) : option string :=
  match rawAnalysis with
  | Falsy => None
  | Text EmptyString => None
  | Text s => Some s
  | Other o => Some (JSON_stringify o)
  end.

(** Lines 145-154. *)
Definition truncate (rawText : string) : string :=
  if (MAX_RAW_ANALYSIS_SIZE <? N.of_nat (Js.length rawText))%N
  then Js.slice0 (N.to_nat (MAX_RAW_ANALYSIS_SIZE - 100)) rawText
         +:+ truncation_marker
  else rawText.

(** The value written to column [raw_analysis], by the insert and by
    the update on conflict alike; [None] stands for [null]. *)
Definition safeRawAnalysis (rawAnalysis : RawAnalysis) : option string :=
  truncate <$> rawText_of rawAnalysis.

End RawAnalysis.

Arguments rawText_of {JsObject} JSON_stringify rawAnalysis.
Arguments safeRawAnalysis {JsObject} JSON_stringify rawAnalysis.
Arguments Falsy {JsObject}.
Arguments Text {JsObject} s.
Arguments Other {JsObject} o.

(** [s.endsWith(suffix)] as a proposition. *)
Definition ends_with (suffix s : string) : Prop :=
  exists kept, s = kept +:+ suffix.

End DataStorage.

(* ===================================================================== *)
(** * Run Ledger and trigger wrappers ([inngest/index.ts]) *)
(* ===================================================================== *)

Module Ledger.
Import LedgerData.

(** The rows of [workflow_runs] whose [run_id] is [runId]. *)
Definition rows_of (runId : string) (rows : list RunRow) : list RunRow :=
  filter (fun r => run_id r = runId) rows.

Definition set_completed (t : Time) (r : RunRow) : RunRow :=
  {| run_id := run_id r; status := "completed";
     started_at := started_at r; completed_at := Some t;
     error_message := error_message r; video_count := video_count r;
     metadata := metadata r |}.

Definition set_failed (errorMessage : string) (t : Time) (r : RunRow)
  : RunRow :=
  {| run_id := run_id r; status := "failed";
     started_at := started_at r; completed_at := Some t;
     error_message := Some errorMessage; video_count := video_count r;
     metadata := metadata r |}.

(** [UPDATE workflow_runs SET ... WHERE run_id = ${runId} RETURNING run_id]:
    the result holds one element per row updated. *)
Definition update_where (change : Time -> RunRow -> RunRow) (runId : string)
  : M (list string) :=
  db_statement ;;;
  let* t := now in
  fun w =>
    let rows := workflow_runs w in
    (Ok (run_id <$> rows_of runId rows),
     set_workflow_runs
       ((fun r => if decide (run_id r = runId) then change t r else r)
          <$> rows) w).

(** [INSERT INTO workflow_runs ... VALUES ...]; [run_id] is unique. *)
Definition insert_run (row : Time -> RunRow) : M unit :=
  db_statement ;;;
  let* t := now in
  fun w =>
    if decide (run_id (row t) ∈ run_id <$> workflow_runs w)
    then (Throw "duplicate key value violates unique constraint", w)
    else (Ok tt, set_workflow_runs (workflow_runs w ++ [row t]) w).

Definition defensive_row (trigger_ : string) (schedule_ : option string)
    (runId status_ : string) (errorMessage : option string)
    (note_ : string) (t : Time) : RunRow :=
  {| run_id := runId; status := status_;
     started_at := t; completed_at := Some t;
     error_message := errorMessage; video_count := 0;
     metadata := {| trigger := trigger_; schedule := schedule_;
                    source := Some "defensive_insert";
                    note := Some note_ |} |}.

(** "Mark as completed if we reach here": lines 64-84 and 219-240, which
    differ in the trigger name and the schedule only. *)
Definition mark_completed (trigger_ : string) (schedule_ : option string)
    (runId : string) : M unit :=
  let* updateResult := update_where set_completed runId in
  (if Nat.eqb (length updateResult) 0 then
     log (DefensiveInsert trigger_ runId "completed") ;;;
     insert_run
       (defensive_row trigger_ schedule_ runId "completed" None
          "Record created during completion due to missing initial record")
   else ret tt) ;;;
  log (RunFinished trigger_ runId "completed").

(** "Mark as failed on error": the body of the [catch] blocks, lines
    87-122 and 243-279. *)
Definition mark_failed (trigger_ : string) (schedule_ : option string)
    (runId : string) (error : Error) : M unit :=
  try_catch
    (let errorMessage := Js.slice0 1000 (String_of_error error) in
     let* updateResult := update_where (set_failed errorMessage) runId in
     (if Nat.eqb (length updateResult) 0 then
        log (DefensiveInsert trigger_ runId "failed") ;;;
        insert_run
          (defensive_row trigger_ schedule_ runId "failed"
             (Some errorMessage)
             "Record created during failure due to missing initial record")
      else ret tt) ;;;
     log (RunFinished trigger_ runId "failed"))
    (fun dbError => log (StatusUpdateFailed trigger_ runId)).

Section Wrappers.

(** The workflow is a collaborator: [workflow.createRunAsync()] followed
    by [run.start({ inputData, runtimeContext: { runId } })]. *)
Variable WorkflowResult : Type.
Variable workflow : option (list string) -> string -> M WorkflowResult.

(** The handler registered by [registerManualWorkflow], applied to
    [event.data = { runId, inputData }]. *)
Definition registerManualWorkflow (runId : string)
    (inputData : option (list string)) : M WorkflowResult :=
  try_catch
    (let* result := workflow inputData runId in
     mark_completed "manual" None runId ;;;
     ret result)
    (fun error =>
       mark_failed "manual" None runId error ;;;
       throw error).

(** [`cron-${Date.now()}-${Math.random().toString(36).slice(2,9)}`] *)
Definition cron_runId (t : Time) (random : string) : string :=
  "cron-" +:+ pretty t +:+ "-" +:+ random.

Definition running_row (runId cronExpression : string) (t : Time)
  : RunRow :=
  {| run_id := runId; status := "running";
     started_at := t; completed_at := None;
     error_message := None; video_count := 0;
     metadata := {| trigger := "cron"; schedule := Some cronExpression;
                    source := None; note := None |} |}.

(** The handler registered by [registerCronWorkflow]; [random] is the
    value drawn from [Math.random]. *)
Definition registerCronWorkflow (cronExpression : string) (random : string)
  : M WorkflowResult :=
  let* t := now in
  let runId := cron_runId t random in
  try_catch
    (insert_run (running_row runId cronExpression) ;;;
     let* result := workflow None runId in
     mark_completed "cron" (Some cronExpression) runId ;;;
     ret result)
    (fun error =>
       mark_failed "cron" (Some cronExpression) runId error ;;;
       throw error).

End Wrappers.

Arguments registerManualWorkflow {WorkflowResult} workflow runId inputData.
Arguments registerCronWorkflow {WorkflowResult} workflow cronExpression random.

End Ledger.

(* ===================================================================== *)
(** * Vocabulary of the statements *)
(* ===================================================================== *)

Module Spec.
Import TrackerData.

(** [c] does not occur in [s]. *)
Fixpoint free_of (c : ascii) (s : string) : bool :=
  match s with
  | EmptyString => true
  | String a s' => (negb (Ascii.eqb a c) && free_of c s')%bool
  end.

(** Every character of [s] belongs to the class. *)
Fixpoint all_in (cls : ascii -> bool) (s : string) : bool :=
  match s with
  | EmptyString => true
  | String a s' => (cls a && all_in cls s')%bool
  end.

(** What may follow an identifier in a URL: nothing, or a part that
    starts with one of [&], [?], [#] or a line feed. *)
Definition delimited (r : string) : bool :=
  match r with
  | EmptyString => true
  | String c _ => negb (Regex.not_delimiter c)
  end.

(** The long-form shape [<origin>youtube.com/watch?v=<id><rest>]. *)
Definition long_form (origin id rest : string) : string :=
  origin +:+ "youtube.com/watch?v=" +:+ id +:+ rest.

(** The short-form shape [<origin>youtu.be/<id><rest>]. *)
Definition short_form (origin id rest : string) : string :=
  origin +:+ "youtu.be/" +:+ id +:+ rest.

(** The strategies announced in a trace, in order. *)
Definition strategies_started (tr : list Event) : list Strategy :=
  omap (fun e => match e with
                 | StrategyStarted s _ => Some s
                 | _ => None
                 end) tr.

(** The defensive inserts recorded in a trace for one run. *)
Definition is_defensive_insert (runId : string) (e : Event) : bool :=
  match e with
  | DefensiveInsert _ r _ => bool_decide (r = runId)
  | _ => false
  end.

Definition defensive_inserts (runId : string) (tr : list Event)
  : list Event :=
  filter (fun e => is_defensive_insert runId e) tr.

(** The index of the tracker: the records of the tracking file. *)
Definition index (w : World) : list VideoRecord :=
  match tracking_file w with
  | Some d => videos d
  | None => []
  end.

(** At most one record per identifier. *)
Definition unique_ids (w : World) : Prop :=
  NoDup (videoId <$> index w).

(** The next call that creates or writes a file is not rejected. *)
Definition file_system_answers (w : World) : bool :=
  negb (hd false (fs_faults w)).

(** [ensureTrackingFile] returns: the tracking file can be read, or the
    call that creates it is not rejected. *)
Definition index_available (w : World) : bool :=
  match tracking_file w with
  | Some _ => true
  | None => negb (hd false (fs_faults w))
  end.

(** The writes of one [track] call are not rejected: the one that
    creates the tracking file when it cannot be read, and the one that
    saves the index. *)
Definition track_writes_succeed (w : World) : bool :=
  match tracking_file w with
  | Some _ => negb (hd false (fs_faults w))
  | None =>
      (negb (hd false (fs_faults w))
       && negb (hd false (tl (fs_faults w))))%bool
  end.

(** Upsert by identifier, in the words of the specification: [vs'] is
    [vs] with the first record that holds the identifier of [r] updated
    in place (every key of [r] overrides, [analysisFile] is kept), or
    with [r] appended when no record holds that identifier. *)
Definition upserted (r : VideoRecord) (vs vs' : list VideoRecord) : Prop :=
  (exists before old after,
      vs = before ++ old :: after
      /\ videoId old = videoId r
      /\ (videoId r ∉ videoId <$> before)
      /\ vs' = before
               ++ {| videoId := videoId r; url := url r; title := title r;
                     channelName := channelName r; scrapedAt := scrapedAt r;
                     isAnalyzed := isAnalyzed r;
                     analysisFile := analysisFile old |}
               :: after)
  \/ ((videoId r ∉ videoId <$> vs) /\ vs' = vs ++ [r]).

Definition track_context (d : Tracker.VideoData) : Tracker.Context :=
  {| Tracker.action := "track"; Tracker.videoUrls := None;
     Tracker.videoData := Some d; Tracker.limit := None |}.

Definition check_context (urls : list string) : Tracker.Context :=
  {| Tracker.action := "check"; Tracker.videoUrls := Some urls;
     Tracker.videoData := None; Tracker.limit := None |}.

(** The answer of the tool when its [try] block threw [error]. *)
Definition failure (action : string) (error : Error) : Tracker.Response :=
  {| Tracker.resp_action := action; Tracker.success := false;
     Tracker.results := []; Tracker.tracked := [];
     Tracker.summary := Tracker.counts 0 0 0; Tracker.listed := [];
     Tracker.message := Some (String_of_error error) |}.

(** A sequence of [track] calls of the tool. *)
Definition track_all (ds : list Tracker.VideoData) : M unit :=
  for_of ds (fun d => Tracker.execute (track_context d) ;;; ret tt).

(** The tracker, asked about [videoUrls] in world [w], reports [u] among
    the duplicates. *)
Definition flagged_duplicate (w : World) (videoUrls : list string)
    (u : string) : bool :=
  match Tracker.execute (check_context videoUrls) w with
  | (Ok resp, _) =>
      bool_decide
        (u ∈ default [] (Tracker.duplicateUrls (Tracker.summary resp)))
  | (Throw _, _) => false
  end.

(** The next statement sent to the database does not throw. *)
Definition database_answers (w : World) : bool :=
  negb (hd false (db_faults w)).

(** The postcondition of a completion that found no row: one row for
    the run, completed and marked as a defensive insert; one more
    defensive insert in the trace. *)
Definition completed_defensively (trigger_ runId : string)
    (w1 w' : World) : Prop :=
  (exists row,
      Ledger.rows_of runId (workflow_runs w') = [row]
      /\ LedgerData.status row = "completed"
      /\ LedgerData.source (LedgerData.metadata row)
         = Some "defensive_insert")
  /\ defensive_inserts runId (trace w')
     = defensive_inserts runId (trace w1)
       ++ [DefensiveInsert trigger_ runId "completed"].

(** The postcondition of a failure that found no row. *)
Definition failed_defensively (trigger_ runId : string) (error : Error)
    (w1 w' : World) : Prop :=
  (exists row,
      Ledger.rows_of runId (workflow_runs w') = [row]
      /\ LedgerData.status row = "failed"
      /\ LedgerData.error_message row
         = Some (Js.slice0 1000 (String_of_error error))
      /\ LedgerData.source (LedgerData.metadata row)
         = Some "defensive_insert")
  /\ defensive_inserts runId (trace w')
     = defensive_inserts runId (trace w1)
       ++ [DefensiveInsert trigger_ runId "failed"].

End Spec.

(* ===================================================================== *)
(** * Sample inputs *)
(* ===================================================================== *)

Module Examples.
Import TrackerData.

Definition watch_url : string :=
  "https://www.youtube.com/watch?v=dQw4w9WgXcQ".

Definition short_url : string := "https://youtu.be/dQw4w9WgXcQ".

Definition embed_url : string :=
  "https://www.youtube.com/embed/dQw4w9WgXcQ".

(** Nothing tracked, nothing stored, the database answers. *)
Definition fresh_world : World :=
  {| tracking_file := None; fs_faults := []; videos_table := [];
     workflow_runs := []; db_faults := []; tx_error := None;
     clock := 0; trace := [] |}.

(** Nothing tracked, and [data/] cannot be written: the next three calls
    that create or write a file are rejected. *)
Definition unwritable_world : World :=
  set_fs_faults [true; true; true] fresh_world.

(** The tracking file holds one record, for [dQw4w9WgXcQ] under URL [u];
    table [videos] holds the rows [stored]; [faults] is the fault script. *)
Definition tracked_world (u : string) (stored : list string)
    (faults : list bool) : World :=
  {| tracking_file :=
       Some {| videos :=
                 [{| videoId := "dQw4w9WgXcQ"; url := u;
                     title := Some "Never Gonna Give You Up";
                     channelName := Some "Rick Astley";
                     scrapedAt := 1; isAnalyzed := false;
                     analysisFile := None |}];
               lastUpdated := 2 |};
     fs_faults := []; videos_table := stored; workflow_runs := [];
     db_faults := faults; tx_error := None; clock := 3; trace := [] |}.

Definition track_watch : Tracker.VideoData :=
  {| Tracker.d_videoId := "dQw4w9WgXcQ"; Tracker.d_url := watch_url;
     Tracker.d_title := Some "Never Gonna Give You Up";
     Tracker.d_channelName := Some "Rick Astley" |}.

Definition track_short : Tracker.VideoData :=
  {| Tracker.d_videoId := "dQw4w9WgXcQ"; Tracker.d_url := short_url;
     Tracker.d_title := None; Tracker.d_channelName := None |}.

Definition track_other : Tracker.VideoData :=
  {| Tracker.d_videoId := "9bZkp7q19f0";
     Tracker.d_url := "https://www.youtube.com/watch?v=9bZkp7q19f0";
     Tracker.d_title := Some "Gangnam Style";
     Tracker.d_channelName := None |}.

(** The transcript panel opens but holds no segment, the player response
    has no caption track, the download and the transcription succeed. *)
Definition fallback_env : Scraper.Env :=
  {| Scraper.videoDownloader := fun _ =>
       Ok {| Scraper.audioPath := "/tmp/audio_dQw4w9WgXcQ.mp3";
             Scraper.fileSize := 4096; Scraper.cleanup := Ok tt |};
     Scraper.audioTranscriber := fun _ =>
       Ok {| Scraper.text := "hello world"; Scraper.duration := 2;
             Scraper.language := "en" |};
     Scraper.chromium_launch := Ok tt;
     Scraper.page_navigate := fun _ => Ok tt;
     Scraper.moreActionsVisible := fun _ => Ok true;
     Scraper.transcriptOptionVisible := fun _ => Ok true;
     Scraper.transcriptSegments := fun _ => Ok [];
     Scraper.captionTranscript := fun _ => Ok None;
     Scraper.puppeteer_open := fun _ => Ok tt;
     Scraper.page_metadata := fun _ =>
       Ok {| Scraper.m_title := "Never Gonna Give You Up";
             Scraper.m_views := "1,500,000,000 views";
             Scraper.m_likes := "like this video along with 17M others";
             Scraper.m_description := "The official video";
             Scraper.m_channelName := "Rick Astley";
             Scraper.m_subscribers := "4M subscribers";
             Scraper.m_tags := ["rick astley"; "pop"] |};
     Scraper.commentElements := fun _ =>
       Ok [Some "First!"; Some "  Still the best song of the decade  ";
           None; Some "0123456789"; Some "I was sent here by a friend"] |}.

(** A text of 300 KiB: 75 code units, doubled twelve times. *)
Fixpoint doubled (n : nat) (s : string) : string :=
  match n with
  | O => s
  | S n' => doubled n' (s +:+ s)
  end.

Definition text_300KiB : string :=
  doubled 12
    "The analysis of this video found fifteen hooks, seven myths and two pleas. ".

(** A workflow that returns at once and touches nothing. *)
Definition idle_workflow : option (list string) -> string -> M unit :=
  fun _ _ => ret tt.

End Examples.

(* ===================================================================== *)
(** * The persist stage: the transaction of [saveAnalysisData]
      ([dataStorage.ts]) *)
(* ===================================================================== *)

Module Persist.
Import LedgerData.

Definition set_videos_table (rows : list string) (w : World) : World :=
  {| tracking_file := tracking_file w; fs_faults := fs_faults w;
     videos_table := rows; workflow_runs := workflow_runs w;
     db_faults := db_faults w; tx_error := tx_error w;
     clock := clock w; trace := trace w |}.

(** ** The transaction of the driver

    [db] is [drizzle(postgres(...))] ([storage/index.ts]):
    [db.transaction] is the [begin] of [postgres]. *)

(** A statement sent through [tx].  The driver keeps the first error of
    the statements of a transaction, whether or not the caller catches
    it.  (No statement of [saveAnalysisData] follows one that threw.) *)
Definition tx_statement : M unit :=
  fun w =>
    match db_statement w with
    | (Ok a, w') => (Ok a, w')
    | (Throw e, w') =>
        (Throw e,
         match tx_error w' with
         | Some _ => w'
         | None => set_tx_error (Some e) w'
         end)
    end.

(** The tables as they were in [w], the rest of the world as in [w']. *)
Definition rolled_back (w w' : World) : World :=
  set_tx_error None
    (set_workflow_runs (workflow_runs w)
       (set_videos_table (videos_table w) w')).

(** [db.transaction(callback)]: [begin], the callback, then [commit].
    When the callback throws, or when it returns although one of its
    statements threw, the driver sends [rollback] instead and throws
    that error.  [begin], [commit] and [rollback] are statements like
    the others; a [commit] that throws commits nothing. *)
Definition transaction {A} (callback : M A) : M A :=
  fun w =>
    match db_statement (set_tx_error None w) with
    | (Throw e, w0) => (Throw e, w0)
    | (Ok _, w0) =>
        let '(returned, w1) := callback w0 in
        let outcome :=
          match returned, tx_error w1 with
          | Ok _, Some uncaughtError => Throw uncaughtError
          | _, _ => returned
          end in
        match outcome, db_statement w1 with
        | Ok a, (Ok _, w2) => (Ok a, set_tx_error None w2)
        | Ok _, (Throw e, w2) => (Throw e, rolled_back w w2)
        | Throw e, (Ok _, w2) => (Throw e, rolled_back w w2)
        | Throw _, (Throw e, w2) => (Throw e, rolled_back w w2)
        end
    end.

(** ** The statements of [saveAnalysisData] *)

(** [tx.insert(videos).values(...).onConflictDoUpdate({ target:
    videos.videoId, set: ... }).returning()]: a row is added unless one
    holds the [video_id]; of a row the world keeps its [video_id]. *)
Definition upsert_video (id : string) : M unit :=
  tx_statement ;;;
  fun w =>
    (Ok tt,
     if decide (id ∈ videos_table w) then w
     else set_videos_table (videos_table w ++ [id]) w).

(** [tx.insert(contentAnalysis).values(...).onConflictDoUpdate(...)]:
    table [content_analysis] is not part of the world. *)
Definition upsert_analysis : M unit := tx_statement.

Definition set_video_count (n : nat) (r : RunRow) : RunRow :=
  {| run_id := run_id r; status := status r;
     started_at := started_at r; completed_at := completed_at r;
     error_message := error_message r; video_count := n;
     metadata := metadata r |}.

(** [tx.update(workflowRuns).set({ videoCount })
       .where(eq(workflowRuns.runId, runId))] *)
Definition update_video_count (runId : string) (savedVideoCount : nat)
  : M unit :=
  tx_statement ;;;
  fun w =>
    (Ok tt,
     set_workflow_runs
       ((fun r => if decide (run_id r = runId)
                  then set_video_count savedVideoCount r else r)
          <$> workflow_runs w) w).

Section AnalyzedVideos.

(** [analyzedVideos: any[]].  What the answer of the language model was
    parsed into is kept as given ([AnalysisBody]); [analyzedAt] and
    [analysisModel] are the keys [saveAnalysisData] reads with a
    fallback. *)
Variable AnalysisBody : Type.

Record Analysis : Type := {
  body : AnalysisBody;
  analyzedAt : option Time;
  analysisModel : option string
}.

(** A scraped video with its [analysis]; [None] stands for a falsy
    [scrapedAt] or [analysis]. *)
Record AnalyzedVideo : Type := {
  videoId : string;
  url : string;
  title : string;
  views : string;
  likes : string;
  description : string;
  channelName : string;
  subscribers : string;
  tags : list string;
  transcript : string;
  comments : list string;
  scrapedAt : option Time;
  analysis : option Analysis
}.

(** [x ? new Date(x) : new Date()] *)
Definition date_or_now (x : option Time) : M Time :=
  match x with
  | Some t => ret t
  | None => now
  end.

(** The loop of lines 91-212 with its two counters.  The [catch] block
    of an iteration logs and rethrows [videoError]. *)
Fixpoint save_videos (analyzedVideos : list AnalyzedVideo)
    (savedVideoCount savedAnalysisCount : nat) : M (nat * nat) :=
  match analyzedVideos with
  | [] => ret (savedVideoCount, savedAnalysisCount)
  | video :: rest =>
      let* scrapedAtDate := date_or_now (scrapedAt video) in
      upsert_video (videoId video) ;;;
      let savedVideoCount := S savedVideoCount in
      let* savedAnalysisCount :=
        match analysis video with
        | Some a =>
            (* [analyzedAt] is evaluated for [values] and for [set] *)
            date_or_now (analyzedAt a) ;;;
            date_or_now (analyzedAt a) ;;;
            upsert_analysis ;;;
            ret (S savedAnalysisCount)
        | None => ret savedAnalysisCount
        end in
      save_videos rest savedVideoCount savedAnalysisCount
  end.

End AnalyzedVideos.

Arguments body {AnalysisBody} a.
Arguments analyzedAt {AnalysisBody} a.
Arguments analysisModel {AnalysisBody} a.
Arguments videoId {AnalysisBody} a.
Arguments url {AnalysisBody} a.
Arguments title {AnalysisBody} a.
Arguments views {AnalysisBody} a.
Arguments likes {AnalysisBody} a.
Arguments description {AnalysisBody} a.
Arguments channelName {AnalysisBody} a.
Arguments subscribers {AnalysisBody} a.
Arguments tags {AnalysisBody} a.
Arguments transcript {AnalysisBody} a.
Arguments comments {AnalysisBody} a.
Arguments scrapedAt {AnalysisBody} a.
Arguments analysis {AnalysisBody} a.
Arguments save_videos {AnalysisBody} analyzedVideos
  savedVideoCount savedAnalysisCount.

(** Of the value [saveAnalysisData] returns: [success], [database] and
    [summary.totalVideos]. *)
Record SaveResult : Type := {
  success : bool;
  videosStored : nat;
  analysisStored : nat;
  totalVideos : nat
}.

(** [contextProfile: any], by what lines 60 to 70 do with it. *)
Inductive ContextProfile : Type :=
| Undefined  (* [JSON.stringify] gives [undefined], which [fs.writeFile]
                refuses *)
| Null       (* written as [null]; reading a key of it throws *)
| Profile.   (* any other value; the tool passes an object *)

(** [ensureDataDirectory]: [fs.access(dataDir)], and [fs.mkdir] when that
    rejects.  The entry of the script is the outcome of the pair. *)
Definition ensureDataDirectory : M unit := fs_write.

(** Lines 20-264.  Of the three JSON files under [data/] the world keeps
    whether their writes are rejected; their time stamps are readings of
    the clock.  The outer [catch] logs and rethrows. *)
Definition saveAnalysisData {AnalysisBody}
    (analyzedVideos : list (AnalyzedVideo AnalysisBody))
    (contextProfile : ContextProfile)
    (runId : option string) : M SaveResult :=
  ensureDataDirectory ;;;
  (* [timestamp], [analysisData.timestamp], [analysisMetadata.analyzedAt] *)
  now ;;; now ;;; now ;;;
  (* [fs.writeFile(analysisFile, ...)] *)
  fs_write ;;;
  (* [fs.writeFile(contextFile, JSON.stringify(contextProfile, null, 2))] *)
  match contextProfile with
  | Undefined => throw "The data argument must be of type string"
  | _ => fs_write
  end ;;;
  (* [summary.timestamp], then [contextProfile.topKeywords] *)
  now ;;;
  match contextProfile with
  | Null => throw "Cannot read properties of null (reading 'topKeywords')"
  | _ => ret tt
  end ;;;
  (* [fs.writeFile(summaryFile, ...)] *)
  fs_write ;;;
  let* counts :=
    transaction
      (let* counts :=
         save_videos analyzedVideos 0 0 in
       let savedVideoCount := fst counts in
       (* [if (runId)]: the empty string is falsy *)
       match runId with
       | Some (String c r) =>
           try_catch (update_video_count (String c r) savedVideoCount)
             (fun updateError => ret tt)
       | _ => ret tt
       end ;;;
       ret counts) in
  ret {| success := true;
         videosStored := fst counts;
         analysisStored := snd counts;
         totalVideos := length analyzedVideos |}.

End Persist.

(* ===================================================================== *)
(** * The analysis stage: the batch loop of [contentAnalysisTool]
      ([contentAnalyzer.ts]) *)
(* ===================================================================== *)

Module Analyzer.

Section Analyzer.

Variable AnalysisBody : Type.

(** Lines 18-101 of [analyzeVideoContent]: the prompt, the request to
    the language model and the reading of its answer ([JSON.parse], or
    the sectioning of the text when that throws). *)
Variable analysis_of : Scraper.ScrapedVideo -> Result AnalysisBody.

(** [{ ...videoData, analysis: { ...analysis, analyzedAt, analysisModel } }] *)
Definition with_analysis (videoData : Scraper.ScrapedVideo)
    (a : Persist.Analysis AnalysisBody)
  : Persist.AnalyzedVideo AnalysisBody :=
  {| Persist.videoId := Scraper.videoId videoData;
     Persist.url := Scraper.url videoData;
     Persist.title := Scraper.title videoData;
     Persist.views := Scraper.views videoData;
     Persist.likes := Scraper.likes videoData;
     Persist.description := Scraper.description videoData;
     Persist.channelName := Scraper.channelName videoData;
     Persist.subscribers := Scraper.subscribers videoData;
     Persist.tags := Scraper.tags videoData;
     Persist.transcript := Scraper.transcript videoData;
     Persist.comments := Scraper.comments videoData;
     Persist.scrapedAt := Some (Scraper.scrapedAt videoData);
     Persist.analysis := Some a |}.

Definition analyzeVideoContent (videoData : Scraper.ScrapedVideo)
  : M (Persist.AnalyzedVideo AnalysisBody) :=
  let* analysis := Scraper.call (analysis_of videoData) in
  let* t := now in
  ret (with_analysis videoData
         {| Persist.body := analysis;
            Persist.analyzedAt := Some t;
            Persist.analysisModel := Some "claude-3-5-sonnet-20241022" |}).

(** The loop of lines 180-197: a video whose analysis throws is logged
    and left out. *)
Fixpoint analyze_loop (videos : list Scraper.ScrapedVideo)
    (analyzedVideos : list (Persist.AnalyzedVideo AnalysisBody))
  : M (list (Persist.AnalyzedVideo AnalysisBody)) :=
  match videos with
  | [] => ret analyzedVideos
  | video :: rest =>
      let* analyzedVideos' :=
        try_catch
          (let* analyzedVideo := analyzeVideoContent video in
           ret (analyzedVideos ++ [analyzedVideo]))
          (fun error => ret analyzedVideos) in
      analyze_loop rest analyzedVideos'
  end.

(** [execute]; [None] stands for a [videos] that is not an array. *)
Definition execute (videos : option (list Scraper.ScrapedVideo))
  : M (list (Persist.AnalyzedVideo AnalysisBody)) :=
  match videos with
  | None => ret []
  | Some videos => analyze_loop videos []
  end.

End Analyzer.

Arguments with_analysis {AnalysisBody} videoData a.
Arguments analyzeVideoContent {AnalysisBody} analysis_of videoData.
Arguments analyze_loop {AnalysisBody} analysis_of videos analyzedVideos.
Arguments execute {AnalysisBody} analysis_of videos.

End Analyzer.

(* ===================================================================== *)
(** * The first step of the workflow ([youtubeResearchWorkflow.ts]) *)
(* ===================================================================== *)

Module Workflow.

(** Column [video_urls] of table [settings] as the driver hands it over:
    an array, or a text still to be parsed. *)
Inductive VideoUrlsColumn : Type :=
| UrlArray (urls : list string)
| UrlText (text : string).

Record Env : Type := {
  (* [result[0]?.video_urls] of [SELECT video_urls FROM settings ORDER BY
     id DESC LIMIT 1]; [None]: no row, or a falsy column *)
  settings_video_urls : option VideoUrlsColumn;
  (* [JSON.parse(settings.video_urls)], read as an array of URLs;
     [None] stands for a falsy value *)
  JSON_parse : string -> Result (option (list string))
}.

Definition fallback_urls : list string :=
  ["https://www.youtube.com/watch?v=dQw4w9WgXcQ"].

(** Lines 37-65 of [scrapeYouTubeStep.execute]: the URLs of the input,
    else those of the settings, else the fallback. *)
Definition resolve_videoUrls (env : Env) (videoUrls : option (list string))
  : M (list string) :=
  match videoUrls with
  | Some (u :: rest) => ret (u :: rest)
  | _ =>
      try_catch
        (db_statement ;;;
         match settings_video_urls env with
         | Some (UrlArray settingsUrls) => ret settingsUrls
         | Some (UrlText (String c s)) =>
             let* settingsUrls :=
               Scraper.call (JSON_parse env (String c s)) in
             ret (default [] settingsUrls)
         | _ => ret fallback_urls
         end)
        (fun error => ret fallback_urls)
  end.

(** [scrapeYouTubeStep.execute]; its [catch] logs and rethrows. *)
Definition scrapeYouTubeStep (env : Env) (scraper : Scraper.Env)
    (videoUrls : option (list string)) : M (list Scraper.ScrapedVideo) :=
  let* videoUrls := resolve_videoUrls env videoUrls in
  Scraper.execute scraper videoUrls.

End Workflow.

(* ===================================================================== *)
(** * Vocabulary of the further statements *)
(* ===================================================================== *)

Module Props.
Import TrackerData.

(** The identifiers of the index, in file order. *)
Definition tracked_ids (w : World) : list string :=
  videoId <$> Spec.index w.

Definition list_context (limit : option Js.Number) : Tracker.Context :=
  {| Tracker.action := "list"; Tracker.videoUrls := None;
     Tracker.videoData := None; Tracker.limit := limit |}.

Definition clear_context : Tracker.Context :=
  {| Tracker.action := "clear"; Tracker.videoUrls := None;
     Tracker.videoData := None; Tracker.limit := None |}.

(** The four literals after which [extractVideoId] reads an identifier. *)
Definition tracker_prefixes : list string :=
  ["youtube.com/watch?v="; "youtu.be/"; "youtube.com/embed/";
   "youtube.com/v/"].

(** [a] was scraped no earlier than [b]. *)
Definition not_older (a b : VideoRecord) : Prop :=
  scrapedAt b <= scrapedAt a.

(** The URLs whose scrape a trace announces, in order. *)
Definition scrapes (tr : list Event) : list string :=
  omap (fun e => match e with
                 | ScrapingVideo u => Some u
                 | _ => None
                 end) tr.

(** The audio files whose [cleanup()] a trace records, in order. *)
Definition cleanups (tr : list Event) : list string :=
  omap (fun e => match e with
                 | CleanupCalled p => Some p
                 | _ => None
                 end) tr.

(** The audio files whose [cleanup()] a trace records as failed. *)
Definition cleanup_warnings (tr : list Event) : list string :=
  omap (fun e => match e with
                 | CleanupWarning p => Some p
                 | _ => None
                 end) tr.

(** The pages whose browser a trace records as closed, in order. *)
Definition browser_closes (tr : list Event) : list string :=
  omap (fun e => match e with
                 | BrowserClosed u => Some u
                 | _ => None
                 end) tr.

(** The tracker reads an identifier from [u]. *)
Definition parses (u : string) : bool :=
  match Tracker.extractVideoId u with
  | Ok _ => true
  | Throw _ => false
  end.

(** The number of requested URLs that the tracker cannot parse. *)
Definition unparsed (urls : list string) : nat :=
  length (filter (fun u => parses u = false) urls).

(** The two literals after which the coordinator and the harvester read
    an identifier. *)
Definition scraper_prefixes : list string :=
  ["youtube.com/watch?v="; "youtu.be/"].

(** [<origin><lit><id><more><rest>]: a URL whose token after the literal
    is [id] followed by [more]. *)
Definition token_url (origin lit id more rest : string) : string :=
  origin +:+ lit +:+ id +:+ more +:+ rest.

(** The tracker holds the identifier it reads from [u]. *)
Definition tracker_duplicate (w : World) (u : string) : bool :=
  match Tracker.extractVideoId u with
  | Ok id => bool_decide (id ∈ tracked_ids w)
  | Throw _ => false
  end.

(** The tracker reads an identifier from [u] and does not hold it. *)
Definition tracker_new (w : World) (u : string) : bool :=
  match Tracker.extractVideoId u with
  | Ok id => bool_decide (id ∉ tracked_ids w)
  | Throw _ => false
  end.

(** The coordinator's pattern reads an identifier from [u], and table
    [videos] has no row for it. *)
Definition missing_from_storage (w : World) (u : string) : bool :=
  match Scraper.url_videoId u with
  | Some id => bool_decide (id ∉ videos_table w)
  | None => false
  end.

(** The URLs a run scrapes, in order: the requested URLs new to the
    tracker, then, when the database answers, the requested URLs the
    tracker holds and storage lacks. *)
Definition scheduled (w : World) (videoUrls : list string) : list string :=
  filter (fun u => tracker_new w u) videoUrls
  ++ (if Spec.database_answers w
      then filter (fun u => tracker_duplicate w u
                            && missing_from_storage w u) videoUrls
      else []).

(** Every page step of the harvester succeeds on [u]. *)
Definition harvestable (env : Scraper.Env) (u : string) : bool :=
  match Scraper.url_videoId u, Scraper.puppeteer_open env u,
        Scraper.page_metadata env u, Scraper.commentElements env u with
  | Some _, Ok _, Ok _, Ok _ => true
  | _, _, _, _ => false
  end.

(** The URLs whose scrape a trace records as failed, in order. *)
Definition scrape_failures (tr : list Event) : list string :=
  omap (fun e => match e with
                 | ScrapeFailed u => Some u
                 | _ => None
                 end) tr.

(** [w'] differs from [w] by the trace entries [evs] and by [ticks]
    readings of the clock. *)
Definition logged (w w' : World) (evs : list Event) (ticks : nat) : Prop :=
  tracking_file w' = tracking_file w
  /\ fs_faults w' = fs_faults w
  /\ videos_table w' = videos_table w
  /\ workflow_runs w' = workflow_runs w
  /\ db_faults w' = db_faults w
  /\ tx_error w' = tx_error w
  /\ clock w' = ticks + clock w
  /\ trace w' = trace w ++ evs.

(** A call the tool rejects: [check] without [videoUrls], [track] without
    [videoData], or an action that is none of the four. *)
Definition rejected (c : Tracker.Context) : Prop :=
  (Tracker.action c = "check" /\ Tracker.videoUrls c = None)
  \/ (Tracker.action c = "track" /\ Tracker.videoData c = None)
  \/ Tracker.action c ∉ ["check"; "track"; "list"; "clear"].

(** The answer of the tool to a rejected call. *)
Definition rejection (c : Tracker.Context) : Tracker.Response :=
  {| Tracker.resp_action := Tracker.action c; Tracker.success := false;
     Tracker.results := []; Tracker.tracked := [];
     Tracker.summary := Tracker.counts 0 0 0; Tracker.listed := [];
     Tracker.message :=
       Some ("Error: Invalid action '" +:+ Tracker.action c
             +:+ "' or missing required parameters") |}.

(** One of the next [n] entries of a fault script is a fault. *)
Definition faulted (n : nat) (faults : list bool) : bool :=
  existsb (fun b => b) (take n faults).

(** The videos that carry an analysis. *)
Definition analysed {B} (analyzedVideos : list (Persist.AnalyzedVideo B))
  : nat :=
  length (filter (fun v => is_Some (Persist.analysis v)) analyzedVideos).

(** The statements the loop of [saveAnalysisData] sends: one per video
    and one per analysis. *)
Definition statements {B} (analyzedVideos : list (Persist.AnalyzedVideo B))
  : nat :=
  length analyzedVideos + analysed analyzedVideos.

(** The statements [saveAnalysisData] sends when none of them throws:
    [begin], those of the loop, the update of the video count when
    [runId] is truthy, and [commit]. *)
Definition sent_statements {B}
    (analyzedVideos : list (Persist.AnalyzedVideo B))
    (runId : option string) : nat :=
  1 + statements analyzedVideos
  + match runId with
    | Some (String _ _) => 1
    | _ => 0
    end
  + 1.

(** [saveAnalysisData] gets through: [contextProfile] can be written
    and read, none of its four calls that create or write a file is
    rejected, and none of the statements it sends throws. *)
Definition store_succeeds {B}
    (analyzedVideos : list (Persist.AnalyzedVideo B))
    (contextProfile : Persist.ContextProfile) (runId : option string)
    (w : World) : bool :=
  match contextProfile with
  | Persist.Profile =>
      (negb (faulted 4 (fs_faults w))
       && negb (faulted (sent_statements analyzedVideos runId)
                  (db_faults w)))%bool
  | _ => false
  end.

(** [w'] differs from [w] at most by its clock. *)
Definition same_stores (w w' : World) : Prop :=
  tracking_file w' = tracking_file w
  /\ fs_faults w' = fs_faults w
  /\ videos_table w' = videos_table w
  /\ workflow_runs w' = workflow_runs w
  /\ db_faults w' = db_faults w
  /\ tx_error w' = tx_error w
  /\ trace w' = trace w.

(** [w'] differs from [w] at most by its clock and by what was consumed
    of the fault script of the file system. *)
Definition same_tables (w w' : World) : Prop :=
  tracking_file w' = tracking_file w
  /\ videos_table w' = videos_table w
  /\ workflow_runs w' = workflow_runs w
  /\ db_faults w' = db_faults w
  /\ tx_error w' = tx_error w
  /\ trace w' = trace w.

(** The analysis of [v] succeeds. *)
Definition analysable {B} (analysis_of : Scraper.ScrapedVideo -> Result B)
    (v : Scraper.ScrapedVideo) : bool :=
  match analysis_of v with
  | Ok _ => true
  | Throw _ => false
  end.

(** [a] is [v] with the analysis the collaborator returned for it. *)
Definition analysis_of_video {B}
    (analysis_of : Scraper.ScrapedVideo -> Result B)
    (a : Persist.AnalyzedVideo B) (v : Scraper.ScrapedVideo) : Prop :=
  exists body t,
    analysis_of v = Ok body
    /\ a = Analyzer.with_analysis v
             {| Persist.body := body;
                Persist.analyzedAt := Some t;
                Persist.analysisModel := Some "claude-3-5-sonnet-20241022" |}.

End Props.

(* ===================================================================== *)
(** * Further sample inputs *)
(* ===================================================================== *)

Module Samples.
Import LedgerData.

(** A workflow that throws at once. *)
Definition failing_workflow : option (list string) -> string -> M unit :=
  fun _ _ => throw "Scraping failed".

(** The ledger holds the row written by [POST /api/workflow/run] for
    [runId]; [faults] is the fault script. *)
Definition running_world (runId : string) (faults : list bool) : World :=
  {| tracking_file := None; fs_faults := []; videos_table := [];
     workflow_runs :=
       [{| run_id := runId; status := "running"; started_at := 1;
           completed_at := None; error_message := None; video_count := 0;
           metadata := {| trigger := "manual"; schedule := None;
                          source := Some "api"; note := None |} |}];
     db_faults := faults; tx_error := None; clock := 2; trace := [] |}.

(** The scrape stage on the sample URL, from a fresh world. *)
Definition scraped : Result (list Scraper.ScrapedVideo) * World :=
  Scraper.execute Examples.fallback_env [Examples.watch_url]
    Examples.fresh_world.

Definition videos : list Scraper.ScrapedVideo :=
  match fst scraped with
  | Ok vs => vs
  | Throw _ => []
  end.

(** The record that run returns. *)
Definition video : Scraper.ScrapedVideo :=
  {| Scraper.videoId := "dQw4w9WgXcQ";
     Scraper.url := Examples.watch_url;
     Scraper.title := "Never Gonna Give You Up";
     Scraper.views := "1,500,000,000 views";
     Scraper.likes := "like this video along with 17M others";
     Scraper.description := "The official video";
     Scraper.channelName := "Rick Astley";
     Scraper.subscribers := "4M subscribers";
     Scraper.tags := ["rick astley"; "pop"];
     Scraper.transcript := "hello world";
     Scraper.comments :=
       ["Still the best song of the decade"; "I was sent here by a friend"];
     Scraper.scrapedAt := 1 |}.

Definition analysis_succeeds : Scraper.ScrapedVideo -> Result unit :=
  fun _ => Ok tt.

Definition analysis_fails : Scraper.ScrapedVideo -> Result unit :=
  fun _ => Throw "Request failed with status code 529".

(** The analysis stage on what was scraped. *)
Definition analyzed (analysis_of : Scraper.ScrapedVideo -> Result unit)
  : Result (list (Persist.AnalyzedVideo unit)) * World :=
  Analyzer.execute analysis_of (Some videos) (snd scraped).

Definition analyzedVideos
    (analysis_of : Scraper.ScrapedVideo -> Result unit)
  : list (Persist.AnalyzedVideo unit) :=
  match fst (analyzed analysis_of) with
  | Ok avs => avs
  | Throw _ => []
  end.

(** The store stage on what was analysed; the step of the workflow
    passes no [runId]. *)
Definition saved (analysis_of : Scraper.ScrapedVideo -> Result unit)
  : Result Persist.SaveResult * World :=
  Persist.saveAnalysisData (analyzedVideos analysis_of) Persist.Profile None
    (snd (analyzed analysis_of)).

(** A workflow that stores that analysed video under its run, as the
    last step of the repository's workflow does. *)
Definition storing_workflow : option (list string) -> string -> M unit :=
  fun _ runId =>
    Persist.saveAnalysisData (analyzedVideos analysis_succeeds)
      Persist.Profile (Some runId) ;;;
    ret tt.

End Samples.

(* ===================================================================== *)
(** * Regular expressions: the leftmost match *)
(* ===================================================================== *)

Section RegexFacts.

(** A run of class characters followed by a delimited rest is taken whole. *)
Lemma run_token (cls : ascii -> bool) (id rest : string) :
  Spec.all_in cls id = true ->
  match rest with
  | EmptyString => True
  | String c _ => cls c = false
  end ->
  Regex.run cls (id +:+ rest) = id.
Proof.
  intros Hid Hrest. induction id as [|a id IH]; simpl in *.
  - destruct rest as [|c rest]; simpl; [reflexivity | now rewrite Hrest].
  - apply andb_true_iff in Hid as [Ha Hid]. rewrite Ha. f_equal. now apply IH.
Qed.

Lemma delimited_stops (rest : string) :
  Spec.delimited rest = true ->
  match rest with
  | EmptyString => True
  | String c _ => Regex.not_delimiter c = false
  end.
Proof.
  destruct rest as [|c rest]; simpl; [trivial|].
  intros H. now apply negb_true_iff in H.
Qed.

Lemma group_token (id rest : string) :
  id <> EmptyString ->
  Spec.all_in Regex.not_delimiter id = true ->
  Spec.delimited rest = true ->
  Regex.group Regex.not_delimiter Regex.OneOrMore (id +:+ rest) = Some id.
Proof.
  intros Hne Hid Hrest. unfold Regex.group.
  rewrite run_token; [| assumption | now apply delimited_stops].
  destruct id; [congruence | reflexivity].
Qed.

Lemma strip_prefix_append (lit s : string) :
  Js.strip_prefix lit (lit +:+ s) = Some s.
Proof.
  induction lit as [|a lit IH]; simpl; [reflexivity|].
  now rewrite Ascii.eqb_refl.
Qed.

Lemma strip_prefix_mismatch (a b : ascii) (lit s : string) :
  Ascii.eqb a b = false ->
  Js.strip_prefix (String a lit) (String b s) = None.
Proof. intros H. cbn -[Ascii.eqb]. now rewrite H. Qed.

(** No alternative of the tracker's first pattern starts at a character
    other than [y]. *)
Lemma watch_pattern_needs_y (c : ascii) (s : string) :
  Ascii.eqb c "y" = false ->
  Regex.match_here Tracker.watch_pattern (String c s) = None.
Proof.
  intros Hc. rewrite Ascii.eqb_sym in Hc.
  unfold Regex.match_here, Tracker.watch_pattern.
  cbn [Regex.alternatives Regex.class Regex.quantifier
       Regex.match_alternatives].
  now rewrite !strip_prefix_mismatch by assumption.
Qed.

Lemma match1_skip_origin (origin s : string) :
  Spec.free_of "y" origin = true ->
  Regex.match1 Tracker.watch_pattern (origin +:+ s)
  = Regex.match1 Tracker.watch_pattern s.
Proof.
  induction origin as [|c origin IH]; intros Hfree; [reflexivity|].
  simpl in Hfree. apply andb_true_iff in Hfree as [Hc Hfree].
  apply negb_true_iff in Hc.
  change (String c origin +:+ s) with (String c (origin +:+ s)).
  cbn [Regex.match1]. rewrite watch_pattern_needs_y by assumption.
  now apply IH.
Qed.

(** [match1] returns the match found at the head of the string. *)
Lemma match1_here (p : Regex.Pattern) (s g : string) :
  Regex.match_here p s = Some g -> Regex.match1 p s = Some g.
Proof. intros H. destruct s; cbn [Regex.match1]; now rewrite H. Qed.

Lemma watch_pattern_long (id rest : string) :
  id <> EmptyString ->
  Spec.all_in Regex.not_delimiter id = true ->
  Spec.delimited rest = true ->
  Regex.match1 Tracker.watch_pattern
    ("youtube.com/watch?v=" +:+ id +:+ rest) = Some id.
Proof.
  intros Hne Hid Hrest. apply match1_here.
  unfold Regex.match_here, Tracker.watch_pattern.
  cbn [Regex.alternatives Regex.class Regex.quantifier
       Regex.match_alternatives].
  rewrite strip_prefix_append. now rewrite group_token.
Qed.

Lemma watch_pattern_short (id rest : string) :
  id <> EmptyString ->
  Spec.all_in Regex.not_delimiter id = true ->
  Spec.delimited rest = true ->
  Regex.match1 Tracker.watch_pattern ("youtu.be/" +:+ id +:+ rest) = Some id.
Proof.
  intros Hne Hid Hrest. apply match1_here.
  unfold Regex.match_here, Tracker.watch_pattern.
  cbn [Regex.alternatives Regex.class Regex.quantifier
       Regex.match_alternatives].
  replace (Js.strip_prefix "youtube.com/watch?v=" ("youtu.be/" +:+ id +:+ rest))
    with (@None string) by reflexivity.
  rewrite strip_prefix_append. now rewrite group_token.
Qed.

End RegexFacts.

Lemma extract_long_form (origin id rest : string) :
  Spec.free_of "y" origin = true ->
  id <> EmptyString ->
  Spec.all_in Regex.not_delimiter id = true ->
  Spec.delimited rest = true ->
  Tracker.extractVideoId (Spec.long_form origin id rest) = Ok id.
Proof.
  intros Ho Hne Hid Hrest. unfold Tracker.extractVideoId, Spec.long_form.
  cbn [Tracker.patterns Tracker.first_match].
  rewrite match1_skip_origin, watch_pattern_long by assumption.
  destruct id; [congruence | reflexivity].
Qed.

Lemma extract_short_form (origin id rest : string) :
  Spec.free_of "y" origin = true ->
  id <> EmptyString ->
  Spec.all_in Regex.not_delimiter id = true ->
  Spec.delimited rest = true ->
  Tracker.extractVideoId (Spec.short_form origin id rest) = Ok id.
Proof.
  intros Ho Hne Hid Hrest. unfold Tracker.extractVideoId, Spec.short_form.
  cbn [Tracker.patterns Tracker.first_match].
  rewrite match1_skip_origin, watch_pattern_short by assumption.
  destruct id; [congruence | reflexivity].
Qed.

(** C6.  The long-form URL [<origin>youtube.com/watch?v=<id><rest>] and
    the short-form URL [<origin'>youtu.be/<id><rest'>] of one video are
    given the same identifier by [extractVideoId], namely [id].  The
    shapes: an origin (scheme and host prefix such as [https://www.])
    without the letter [y], a non-empty identifier without [&], [?], [#]
    or line feed, and a rest that is empty or starts with one of those. *)
Theorem long_and_short_form_same_identifier
    (origin1 origin2 id rest1 rest2 : string) :
  Spec.free_of "y" origin1 = true ->
  Spec.free_of "y" origin2 = true ->
  id <> EmptyString ->
  Spec.all_in Regex.not_delimiter id = true ->
  Spec.delimited rest1 = true ->
  Spec.delimited rest2 = true ->
  Tracker.extractVideoId (Spec.long_form origin1 id rest1)
  = Tracker.extractVideoId (Spec.short_form origin2 id rest2)
  /\ Tracker.extractVideoId (Spec.long_form origin1 id rest1) = Ok id.
Proof.
  intros. rewrite extract_long_form, extract_short_form by assumption.
  split; reflexivity.
Qed.

(** C6 at [https://www.youtube.com/watch?v=dQw4w9WgXcQ&t=42s] and
    [https://youtu.be/dQw4w9WgXcQ?si=abc]. *)
Lemma long_and_short_form_same_identifier_witness :
  Tracker.extractVideoId
    (Spec.long_form "https://www." "dQw4w9WgXcQ" "&t=42s")
  = Tracker.extractVideoId
      (Spec.short_form "https://" "dQw4w9WgXcQ" "?si=abc")
  /\ Tracker.extractVideoId
       (Spec.long_form "https://www." "dQw4w9WgXcQ" "&t=42s")
     = Ok "dQw4w9WgXcQ".
Proof.
  apply long_and_short_form_same_identifier;
    solve [reflexivity | discriminate].
Defined.

(* ===================================================================== *)
(** * The tracker's index *)
(* ===================================================================== *)

Section TrackerFacts.
Import TrackerData.

Lemma findIndex_video_Some (id : string) (vs : list VideoRecord) (i : nat) :
  Tracker.findIndex_video id vs = Some i ->
  exists v, vs !! i = Some v /\ videoId v = id.
Proof.
  unfold Tracker.findIndex_video. intros H.
  destruct (list_find _ vs) as [[j v]|] eqn:Hfind; simplify_eq/=.
  apply list_find_Some in Hfind as (Hv & Hid & _). eauto.
Qed.

Lemma findIndex_video_None (id : string) (vs : list VideoRecord) :
  Tracker.findIndex_video id vs = None -> id ∉ videoId <$> vs.
Proof.
  unfold Tracker.findIndex_video. intros H.
  destruct (list_find _ vs) as [[j v]|] eqn:Hfind; simplify_eq/=.
  rewrite list_find_None in Hfind. rewrite Forall_forall in Hfind.
  intros (v & Hv & Hin)%list_elem_of_fmap. exact (Hfind v Hin (eq_sym Hv)).
Qed.

(** [upsert] changes the identifiers of the index only by appending one
    that was absent. *)
Lemma upsert_ids (r : VideoRecord) (vs : list VideoRecord) :
  videoId <$> Tracker.upsert r vs
  = if decide (videoId r ∈ videoId <$> vs)
    then videoId <$> vs
    else (videoId <$> vs) ++ [videoId r].
Proof.
  unfold Tracker.upsert.
  destruct (Tracker.findIndex_video _ vs) as [i|] eqn:Hi.
  - apply findIndex_video_Some in Hi as (v & Hv & Hid). rewrite Hv.
    rewrite decide_True.
    + rewrite list_fmap_insert. apply list_insert_id.
      rewrite list_lookup_fmap, Hv. simpl. now rewrite Hid.
    + rewrite <- Hid. apply list_elem_of_fmap_2.
      eapply list_elem_of_lookup_2; eauto.
  - apply findIndex_video_None in Hi. rewrite decide_False by assumption.
    now rewrite fmap_app.
Qed.

Lemma upsert_NoDup (r : VideoRecord) (vs : list VideoRecord) :
  NoDup (videoId <$> vs) -> NoDup (videoId <$> Tracker.upsert r vs).
Proof.
  intros Hnd. rewrite upsert_ids. case_decide; [assumption|].
  apply NoDup_app. repeat split; [assumption | | apply NoDup_singleton].
  intros x Hx ->%list_elem_of_singleton. contradiction.
Qed.

Lemma upsert_tracked (r : VideoRecord) (vs : list VideoRecord) :
  videoId r ∈ videoId <$> Tracker.upsert r vs.
Proof.
  rewrite upsert_ids. case_decide; [assumption|].
  apply elem_of_app. right. apply list_elem_of_singleton. reflexivity.
Qed.

Lemma upsert_cons (r v : VideoRecord) (vs : list VideoRecord) :
  Tracker.upsert r (v :: vs)
  = if decide (videoId v = videoId r)
    then Tracker.spread v r :: vs
    else v :: Tracker.upsert r vs.
Proof.
  unfold Tracker.upsert, Tracker.findIndex_video. cbn [list_find].
  case_decide; [reflexivity|].
  destruct (list_find _ vs) as [[i x]|]; cbn; [|reflexivity].
  now destruct (vs !! i).
Qed.

(** The update of the code is the upsert of the specification. *)
Lemma upsert_upserted (r : VideoRecord) (vs : list VideoRecord) :
  Spec.upserted r vs (Tracker.upsert r vs).
Proof.
  induction vs as [|v vs IH].
  - right. split; [apply not_elem_of_nil | reflexivity].
  - rewrite upsert_cons. case_decide as Hv.
    + left. exists [], v, vs. split; [reflexivity|]. split; [assumption|].
      split; [apply not_elem_of_nil | reflexivity].
    + destruct IH as [(before & old & after & -> & Hold & Hnot & ->)
                     | [Hnot ->]].
      * left. exists (v :: before), old, after.
        split; [reflexivity|]. split; [assumption|].
        split; [|reflexivity].
        rewrite fmap_cons, not_elem_of_cons. split; [congruence | assumption].
      * right. split; [|reflexivity].
        rewrite fmap_cons, not_elem_of_cons. split; [congruence | assumption].
Qed.

Lemma find_video_tracked (id : string) (vs : list VideoRecord) :
  id ∈ videoId <$> vs -> is_Some (Tracker.find_video id vs).
Proof.
  intros (v & Hid & Hin)%list_elem_of_fmap. unfold Tracker.find_video.
  destruct (list_find_elem_of (fun v => videoId v = id) vs v Hin (eq_sym Hid))
    as [[i x] Hx].
  rewrite Hx. simpl. eauto.
Qed.

(** [ensureTrackingFile] returns the index when the file can be read or
    created, and throws the error of the file system otherwise; the
    index is the same afterwards. *)
Lemma ensureTrackingFile_run (w : World) :
  exists r w1,
    Tracker.ensureTrackingFile w = (r, w1)
    /\ Spec.index w1 = Spec.index w
    /\ videos_table w1 = videos_table w
    /\ workflow_runs w1 = workflow_runs w
    /\ db_faults w1 = db_faults w
    /\ tx_error w1 = tx_error w
    /\ trace w1 = trace w
    /\ clock w <= clock w1
    /\ fs_faults w1 = match tracking_file w with
                      | Some _ => fs_faults w
                      | None => tl (fs_faults w)
                      end
    /\ if Spec.index_available w
       then exists data,
              r = Ok data
              /\ tracking_file w1 = Some data
              /\ videos data = Spec.index w
       else r = Throw "file system error" /\ tracking_file w1 = None.
Proof.
  unfold Tracker.ensureTrackingFile, Tracker.readTrackingFile,
    Tracker.writeTrackingFile, fs_write, Spec.index_available, Spec.index,
    try_catch, bind, ret, now.
  destruct (tracking_file w) as [data|] eqn:Hfile.
  - exists (Ok data), w. rewrite Hfile.
    repeat split; try reflexivity; eauto.
  - cbn [fs_faults set_clock].
    destruct (fs_faults w) as [|[] fs] eqn:Hf; cbn;
      eexists _, _; (split; [reflexivity|]); cbn; rewrite ?Hfile, ?Hf;
      repeat split; eauto.
Qed.

(** What one [check] call of the tool answers; it leaves the index and
    the database as they are. *)
Lemma execute_check (urls : list string) (w : World) :
  exists resp w',
    Tracker.execute (Spec.check_context urls) w = (Ok resp, w')
    /\ Spec.index w' = Spec.index w
    /\ videos_table w' = videos_table w
    /\ workflow_runs w' = workflow_runs w
    /\ db_faults w' = db_faults w
    /\ tx_error w' = tx_error w
    /\ trace w' = trace w
    /\ fs_faults w' = match tracking_file w with
                      | Some _ => fs_faults w
                      | None => tl (fs_faults w)
                      end
    /\ if Spec.index_available w
       then exists data,
              tracking_file w' = Some data
              /\ videos data = Spec.index w
              /\ resp = {| Tracker.resp_action := "check";
                           Tracker.success := true;
                           Tracker.results := Tracker.check_url data <$> urls;
                           Tracker.tracked := [];
                           Tracker.summary :=
                             Tracker.summarize urls
                               (Tracker.check_url data <$> urls);
                           Tracker.listed := [];
                           Tracker.message := None |}
       else resp = Spec.failure "check" "file system error"
            /\ tracking_file w' = None.
Proof.
  destruct (ensureTrackingFile_run w)
    as (r & w1 & Hrun & Hidx & Ht & Hr & Hd & Hx & He & _ & Hf & Hcase).
  unfold Tracker.execute, Spec.check_context, Tracker.checkDuplicates.
  cbn [Tracker.action Tracker.videoUrls Tracker.videoData
       String.eqb Ascii.eqb Bool.eqb].
  unfold try_catch, bind at 1 2. rewrite Hrun.
  destruct (Spec.index_available w).
  - destruct Hcase as (data & -> & Hfile & Hdata).
    eexists _, w1. split; [reflexivity|]. repeat split; try assumption.
    exists data. auto.
  - destruct Hcase as [-> Hfile].
    eexists _, w1. split; [reflexivity|]. repeat split; assumption.
Qed.

(** What one [track] call of the tool does to the world: an upsert when
    its writes are not rejected, nothing to the index otherwise. *)
Lemma execute_track (d : Tracker.VideoData) (w : World) :
  exists resp w',
    Tracker.execute (Spec.track_context d) w = (Ok resp, w')
    /\ videos_table w' = videos_table w
    /\ workflow_runs w' = workflow_runs w
    /\ db_faults w' = db_faults w
    /\ tx_error w' = tx_error w
    /\ trace w' = trace w
    /\ clock w <= clock w'
    /\ Tracker.success resp = Spec.track_writes_succeed w
    /\ if Spec.track_writes_succeed w
       then exists t,
              clock w <= t < clock w'
              /\ resp = {| Tracker.resp_action := "track";
                           Tracker.success := true;
                           Tracker.results := [];
                           Tracker.tracked :=
                             [{| videoId := Tracker.d_videoId d;
                                 url := Tracker.d_url d;
                                 title := Tracker.d_title d;
                                 channelName := Tracker.d_channelName d;
                                 scrapedAt := t; isAnalyzed := false;
                                 analysisFile := None |}];
                           Tracker.summary := Tracker.counts 1 0 1;
                           Tracker.listed := [];
                           Tracker.message := None |}
              /\ is_Some (tracking_file w')
              /\ Spec.index w'
                 = Tracker.upsert
                     {| videoId := Tracker.d_videoId d;
                        url := Tracker.d_url d;
                        title := Tracker.d_title d;
                        channelName := Tracker.d_channelName d;
                        scrapedAt := t; isAnalyzed := false;
                        analysisFile := None |}
                     (Spec.index w)
       else resp = Spec.failure "track" "file system error"
            /\ Spec.index w' = Spec.index w.
Proof.
  unfold Tracker.execute, Spec.track_context, Tracker.trackNewVideo,
    Tracker.ensureTrackingFile, Tracker.readTrackingFile,
    Tracker.saveTrackingData, Tracker.writeTrackingFile, fs_write,
    Spec.track_writes_succeed, Spec.index, try_catch, bind, ret, now.
  cbn [Tracker.action Tracker.videoUrls Tracker.videoData
       String.eqb Ascii.eqb Bool.eqb].
  destruct (tracking_file w) as [data|] eqn:Hfile;
    cbn [fs_faults set_clock set_fs_faults set_tracking_file];
    destruct (fs_faults w) as [|[] [|[] fs]] eqn:Hf;
    cbn [fs_faults set_clock set_fs_faults set_tracking_file hd tl negb andb];
    rewrite ?Hf;
    cbn [fs_faults set_clock set_fs_faults set_tracking_file hd tl negb andb];
    eexists _, _; (split; [reflexivity|]); cbn; rewrite ?Hfile;
    repeat split; try reflexivity; try lia;
    try (eexists; repeat split; cbn; eauto; lia).
Qed.

(** A [track] call never removes the tracking file, and consumes no
    entry of a fault script that is empty. *)
Lemma execute_track_file (d : Tracker.VideoData) (w : World) :
  (is_Some (tracking_file w) ->
   is_Some (tracking_file
              (snd (Tracker.execute (Spec.track_context d) w))))
  /\ (fs_faults w = [] ->
      fs_faults (snd (Tracker.execute (Spec.track_context d) w)) = []
      /\ Spec.track_writes_succeed w = true).
Proof.
  unfold Tracker.execute, Spec.track_context, Tracker.trackNewVideo,
    Tracker.ensureTrackingFile, Tracker.readTrackingFile,
    Tracker.saveTrackingData, Tracker.writeTrackingFile, fs_write,
    Spec.track_writes_succeed, try_catch, bind, ret, now.
  cbn [Tracker.action Tracker.videoUrls Tracker.videoData
       String.eqb Ascii.eqb Bool.eqb].
  destruct (tracking_file w) as [data|] eqn:Hfile;
    cbn [fs_faults set_clock set_fs_faults set_tracking_file];
    destruct (fs_faults w) as [|[] [|[] fs]] eqn:Hf;
    cbn [fs_faults set_clock set_fs_faults set_tracking_file hd tl negb andb];
    rewrite ?Hf;
    cbn [fs_faults set_clock set_fs_faults set_tracking_file hd tl negb andb];
    cbn; rewrite ?Hfile, ?Hf; split; intros H; try discriminate; eauto;
    try (now destruct H).
Qed.

Lemma check_url_url (data : VideoTrackingData) (u : string) :
  Tracker.r_url (Tracker.check_url data u) = u.
Proof.
  unfold Tracker.check_url.
  destruct (Tracker.extractVideoId u); [|reflexivity].
  destruct (Tracker.find_video _ _); reflexivity.
Qed.

(** The URLs reported as duplicates are the requested URLs whose
    identifier is in the index. *)
Lemma duplicateUrls_spec (data : VideoTrackingData) (urls : list string)
    (u : string) :
  u ∈ default [] (Tracker.duplicateUrls
                    (Tracker.summarize urls (Tracker.check_url data <$> urls)))
  <-> u ∈ urls /\ Tracker.r_exists (Tracker.check_url data u) = true.
Proof.
  cbn. rewrite list_elem_of_fmap. split.
  - intros (r & -> & Hr). apply list_elem_of_filter in Hr as [Hex Hr].
    apply list_elem_of_fmap in Hr as (x & -> & Hx).
    rewrite check_url_url. auto.
  - intros [Hu Hex]. exists (Tracker.check_url data u).
    split; [now rewrite check_url_url|].
    apply list_elem_of_filter. split; [assumption|].
    now apply list_elem_of_fmap_2.
Qed.

Lemma newUrls_spec (data : VideoTrackingData) (urls : list string)
    (u : string) :
  u ∈ default [] (Tracker.newUrls
                    (Tracker.summarize urls (Tracker.check_url data <$> urls)))
  -> Tracker.r_exists (Tracker.check_url data u) = false.
Proof.
  cbn. rewrite list_elem_of_fmap.
  intros (r & -> & Hr). apply list_elem_of_filter in Hr as [[Hex _] Hr].
  apply list_elem_of_fmap in Hr as (x & -> & Hx).
  now rewrite check_url_url.
Qed.

Lemma check_url_exists (data : VideoTrackingData) (u id : string) :
  Tracker.extractVideoId u = Ok id ->
  id ∈ videoId <$> videos data ->
  Tracker.r_exists (Tracker.check_url data u) = true.
Proof.
  intros Hid Hin. unfold Tracker.check_url. rewrite Hid.
  destruct (find_video_tracked id (videos data) Hin) as [v ->]. reflexivity.
Qed.

(** A [track] call keeps the index at one record per identifier. *)
Lemma execute_track_unique (d : Tracker.VideoData) (w : World) :
  Spec.unique_ids w ->
  Spec.unique_ids (snd (Tracker.execute (Spec.track_context d) w)).
Proof.
  intros Hw.
  destruct (execute_track d w)
    as (resp & w' & -> & _ & _ & _ & _ & _ & _ & _ & Hcase).
  cbn [snd]. unfold Spec.unique_ids in *.
  destruct (Spec.track_writes_succeed w).
  - destruct Hcase as (t & _ & _ & _ & ->). now apply upsert_NoDup.
  - destruct Hcase as [_ ->]. assumption.
Qed.

Lemma track_all_unique (ds : list Tracker.VideoData) (w : World) :
  Spec.unique_ids w -> Spec.unique_ids (snd (Spec.track_all ds w)).
Proof.
  revert w. induction ds as [|d ds IH]; intros w Hw; [exact Hw|].
  unfold Spec.track_all. cbn [for_of]. unfold bind at 1 2.
  pose proof (execute_track_unique d w Hw) as Hw'.
  destruct (execute_track d w) as (resp & w' & Hrun & _).
  rewrite Hrun in Hw' |- *. cbn [ret snd] in *. now apply IH.
Qed.

End TrackerFacts.

(** C8.  Every [track] call of the tool upserts by identifier.  From any
    world the call returns; it answers [success: true] exactly when its
    writes of the tracking file are not rejected, and the index is then
    the old index with the record of the call upserted: the first record
    that holds the identifier is updated in place, keeping its
    [analysisFile], or the record is appended when no record holds the
    identifier.  A call whose write is rejected leaves the index as it
    was.  So an index that holds at most one record per identifier still
    does after any sequence of [track] calls. *)
Theorem track_keeps_one_record_per_identifier
    (ds : list Tracker.VideoData) (w : World) :
  Spec.unique_ids w ->
  (forall (d : Tracker.VideoData) (w0 : World),
      exists resp w1,
        Tracker.execute (Spec.track_context d) w0 = (Ok resp, w1)
        /\ Tracker.success resp = Spec.track_writes_succeed w0
        /\ (Tracker.success resp = true ->
            exists r,
              Tracker.tracked resp = [r]
              /\ TrackerData.videoId r = Tracker.d_videoId d
              /\ TrackerData.url r = Tracker.d_url d
              /\ TrackerData.title r = Tracker.d_title d
              /\ TrackerData.channelName r = Tracker.d_channelName d
              /\ TrackerData.isAnalyzed r = false
              /\ Spec.upserted r (Spec.index w0) (Spec.index w1))
        /\ (Tracker.success resp = false -> Spec.index w1 = Spec.index w0)
        /\ (Spec.unique_ids w0 -> Spec.unique_ids w1))
  /\ Spec.unique_ids (snd (Spec.track_all ds w)).
Proof.
  intros Hw. split; [|now apply track_all_unique].
  intros d w0.
  pose proof (execute_track_unique d w0) as Huniq.
  destruct (execute_track d w0)
    as (resp & w1 & Hrun & _ & _ & _ & _ & _ & _ & Hs & Hcase).
  exists resp, w1. rewrite Hrun in Huniq. cbn [snd] in Huniq.
  split; [assumption|]. split; [assumption|].
  rewrite Hs. destruct (Spec.track_writes_succeed w0).
  - destruct Hcase as (t & _ & -> & _ & ->).
    split; [|split; [discriminate | assumption]].
    intros _. eexists. split; [reflexivity|].
    repeat split. apply upsert_upserted.
  - destruct Hcase as [_ Hidx].
    split; [discriminate|]. split; [auto | assumption].
Qed.

(** C8 from an index with one record, through three [track] calls, two
    of them for the identifier already present: the first call updates
    the record in place, and the index still holds one record per
    identifier after the three. *)
Lemma track_keeps_one_record_per_identifier_witness :
  Spec.unique_ids (Examples.tracked_world Examples.watch_url [] [])
  /\ Spec.upserted
       {| TrackerData.videoId := "dQw4w9WgXcQ";
          TrackerData.url := Examples.short_url;
          TrackerData.title := None; TrackerData.channelName := None;
          TrackerData.scrapedAt := 3; TrackerData.isAnalyzed := false;
          TrackerData.analysisFile := None |}
       (Spec.index (Examples.tracked_world Examples.watch_url [] []))
       (Spec.index
          (snd (Tracker.execute (Spec.track_context Examples.track_short)
                  (Examples.tracked_world Examples.watch_url [] []))))
  /\ Spec.unique_ids
       (snd (Spec.track_all
               [Examples.track_short; Examples.track_other;
                Examples.track_watch]
               (Examples.tracked_world Examples.watch_url [] []))).
Proof.
  assert (H : Spec.unique_ids
                (Examples.tracked_world Examples.watch_url [] [])).
  { apply (bool_decide_unpack _). vm_compute. exact I. }
  split; [exact H|].
  destruct (track_keeps_one_record_per_identifier
              [Examples.track_short; Examples.track_other;
               Examples.track_watch]
              (Examples.tracked_world Examples.watch_url [] []) H)
    as [Hcall Hall].
  split; [|exact Hall].
  destruct (Hcall Examples.track_short
              (Examples.tracked_world Examples.watch_url [] []))
    as (resp & w1 & Hrun & Hs & Hup & _).
  rewrite Hrun. cbn [snd].
  destruct (Hup Hs) as (r & Hr & _ & _ & _ & _ & _ & Hupserted).
  vm_compute in Hrun. injection Hrun as <- <-.
  injection Hr as <-. exact Hupserted.
Defined.

(** C7.  When the recorded identifier of an entry is the identifier
    that [extractVideoId] reads from its URL: a [track] call returns
    from any world and answers [success: true] exactly when its writes
    of the tracking file are not rejected; and after a [track] that
    succeeded, a [check] of that URL succeeds, whatever the file system
    does then, and reports the URL among [duplicateUrls]. *)
Theorem track_then_check_reports_duplicate (d : Tracker.VideoData) (w : World) :
  Tracker.extractVideoId (Tracker.d_url d) = Ok (Tracker.d_videoId d) ->
  exists tracked w1,
    Tracker.execute (Spec.track_context d) w = (Ok tracked, w1)
    /\ Tracker.success tracked = Spec.track_writes_succeed w
    /\ (Tracker.success tracked = true ->
        exists checked w2,
          Tracker.execute (Spec.check_context [Tracker.d_url d]) w1
          = (Ok checked, w2)
          /\ Tracker.success checked = true
          /\ Tracker.d_url d
             ∈ default [] (Tracker.duplicateUrls (Tracker.summary checked))).
Proof.
  intros Hid.
  destruct (execute_track d w)
    as (tracked & w1 & Ht & _ & _ & _ & _ & _ & _ & Hs & Hcase).
  exists tracked, w1. split; [assumption|]. split; [assumption|].
  rewrite Hs. intros Hok. rewrite Hok in Hcase.
  destruct Hcase as (t & _ & _ & [file Hfile] & Hidx).
  destruct (execute_check [Tracker.d_url d] w1)
    as (checked & w2 & Hc & _ & _ & _ & _ & _ & _ & _ & Hcase).
  unfold Spec.index_available in Hcase. rewrite Hfile in Hcase.
  destruct Hcase as (data & _ & Hdata & ->).
  eexists _, w2. split; [exact Hc|]. split; [reflexivity|].
  cbn [Tracker.summary].
  apply duplicateUrls_spec. split; [apply list_elem_of_here|].
  apply check_url_exists with (id := Tracker.d_videoId d); [assumption|].
  rewrite Hdata, Hidx.
  apply (upsert_tracked
           {| TrackerData.videoId := Tracker.d_videoId d;
              TrackerData.url := Tracker.d_url d;
              TrackerData.title := Tracker.d_title d;
              TrackerData.channelName := Tracker.d_channelName d;
              TrackerData.scrapedAt := t; TrackerData.isAnalyzed := false;
              TrackerData.analysisFile := None |}).
Qed.

(** C7 for a short-form URL tracked in a world without tracking file. *)
Lemma track_then_check_reports_duplicate_witness :
  Tracker.extractVideoId (Tracker.d_url Examples.track_short)
  = Ok (Tracker.d_videoId Examples.track_short)
  /\ exists tracked w1 checked w2,
       Tracker.execute (Spec.track_context Examples.track_short)
         Examples.fresh_world = (Ok tracked, w1)
       /\ Tracker.success tracked = true
       /\ Tracker.execute
            (Spec.check_context [Tracker.d_url Examples.track_short]) w1
          = (Ok checked, w2)
       /\ Tracker.success checked = true
       /\ Tracker.d_url Examples.track_short
          ∈ default [] (Tracker.duplicateUrls (Tracker.summary checked)).
Proof.
  split; [reflexivity|].
  destruct (track_then_check_reports_duplicate Examples.track_short
              Examples.fresh_world eq_refl)
    as (tracked & w1 & Hrun & Hs & Hcheck).
  destruct (Hcheck Hs) as (checked & w2 & Hc & Hs2 & Hin).
  exists tracked, w1, checked, w2. auto.
Defined.

(* ===================================================================== *)
(** * Reconciliation *)
(* ===================================================================== *)

Section ReconcileFacts.
Import TrackerData.

(** The tracker flags a URL only when it could read or create its
    file. *)
Lemma flagged_available (w : World) (videoUrls : list string) (u : string) :
  Spec.flagged_duplicate w videoUrls u = true ->
  Spec.index_available w = true.
Proof.
  unfold Spec.flagged_duplicate.
  destruct (execute_check videoUrls w) as (resp & w1 & -> & Hcase).
  do 7 destruct Hcase as [_ Hcase].
  destruct (Spec.index_available w); [reflexivity|].
  destruct Hcase as [-> _]. cbn. rewrite bool_decide_eq_true.
  now intros ?%elem_of_nil.
Qed.

(** When the tracker can read or create its file, its answer is handed
    to [reconcile], in a world with the same index and the same
    database. *)
Lemma finalVideosToScrape_run (videoUrls : list string) (w : World) :
  Spec.index_available w = true ->
  exists data w1,
    videos data = Spec.index w
    /\ is_Some (tracking_file w1)
    /\ Spec.index w1 = Spec.index w
    /\ videos_table w1 = videos_table w
    /\ workflow_runs w1 = workflow_runs w
    /\ db_faults w1 = db_faults w
    /\ trace w1 = trace w
    /\ (forall u, Spec.flagged_duplicate w videoUrls u = true <->
                  u ∈ videoUrls
                  /\ Tracker.r_exists (Tracker.check_url data u) = true)
    /\ Scraper.finalVideosToScrape videoUrls w
       = Scraper.reconcile
           (default [] (Tracker.newUrls
              (Tracker.summarize videoUrls
                 (Tracker.check_url data <$> videoUrls))))
           (default [] (Tracker.duplicateUrls
              (Tracker.summarize videoUrls
                 (Tracker.check_url data <$> videoUrls))))
           w1.
Proof.
  intros Havail.
  destruct (execute_check videoUrls w)
    as (resp & w1 & Hrun & Hidx & Htab & Hruns & Hf & _ & Htr & _ & Hcase).
  rewrite Havail in Hcase. destruct Hcase as (data & Hfile & Hdata & ->).
  exists data, w1. split; [assumption|]. split; [now rewrite Hfile|].
  split; [assumption|]. split; [assumption|]. split; [assumption|].
  split; [assumption|]. split; [assumption|]. split.
  - intros u. unfold Spec.flagged_duplicate. rewrite Hrun.
    cbn [Tracker.summary].
    rewrite bool_decide_eq_true. apply duplicateUrls_spec.
  - unfold Scraper.finalVideosToScrape.
    change {| Tracker.action := "check"; Tracker.videoUrls := Some videoUrls;
              Tracker.videoData := None; Tracker.limit := None |}
      with (Spec.check_context videoUrls).
    unfold bind at 1. rewrite Hrun. reflexivity.
Qed.

(** When the tracker can neither read nor create its file, the
    coordinator throws before it schedules anything. *)
Lemma finalVideosToScrape_unavailable (videoUrls : list string) (w : World) :
  Spec.index_available w = false ->
  exists w1,
    Scraper.finalVideosToScrape videoUrls w
    = (Throw "Duplicate check failed: Error: file system error", w1)
    /\ tracking_file w1 = None
    /\ videos_table w1 = videos_table w
    /\ workflow_runs w1 = workflow_runs w
    /\ db_faults w1 = db_faults w
    /\ trace w1 = trace w.
Proof.
  intros Havail.
  destruct (execute_check videoUrls w)
    as (resp & w1 & Hrun & Hidx & Htab & Hruns & Hf & _ & Htr & _ & Hcase).
  rewrite Havail in Hcase. destruct Hcase as [-> Hfile].
  exists w1. split; [|auto].
  unfold Scraper.finalVideosToScrape.
  change {| Tracker.action := "check"; Tracker.videoUrls := Some videoUrls;
            Tracker.videoData := None; Tracker.limit := None |}
    with (Spec.check_context videoUrls).
  unfold bind at 1. rewrite Hrun. reflexivity.
Qed.

(** [reconcile] never throws, and only adds duplicates from which the
    coordinator's pattern extracts an identifier. *)
Lemma reconcile_adds_parsed_only (new dups : list string) (w : World) :
  exists final w',
    Scraper.reconcile new dups w = (Ok final, w')
    /\ forall u, u ∈ final ->
         u ∈ new \/ (u ∈ dups /\ is_Some (Scraper.url_videoId u)).
Proof.
  unfold Scraper.reconcile.
  destruct (Nat.ltb 0 (length dups));
    [|eexists _, _; split; [reflexivity|auto]].
  unfold try_catch, bind at 1, Scraper.select_videoIds, bind at 1, db_statement.
  destruct (db_faults w) as [|[] fs].
  2: { eexists _, _; split; [reflexivity|auto]. }
  all: match goal with
       | |- context [Nat.ltb 0 (length ?l)] =>
           destruct (Nat.ltb 0 (length l)); cbn;
           eexists _, _; (split; [reflexivity|]); intros u Hu; auto;
           apply elem_of_app in Hu as [Hu|Hu]; auto;
           apply list_elem_of_filter in Hu as [Hm Hu]; right; split; auto;
           unfold Scraper.missing_from_db in Hm;
           destruct (Scraper.url_videoId u); [eauto | contradiction]
       end.
Qed.

(** When the query is answered, a duplicate whose identifier (as the
    coordinator extracts it) has no row in [videos] is added. *)
Lemma reconcile_adds_missing (new dups : list string) (w : World)
    (u id : string) :
  u ∈ dups ->
  Scraper.url_videoId u = Some id ->
  id ∉ videos_table w ->
  Spec.database_answers w = true ->
  exists final w',
    Scraper.reconcile new dups w = (Ok final, w') /\ u ∈ final.
Proof.
  intros Hu Hid Hmiss Hdb. unfold Scraper.reconcile.
  assert (Hlen : Nat.ltb 0 (length dups) = true).
  { destruct dups; [inversion Hu | reflexivity]. }
  rewrite Hlen.
  unfold try_catch, bind at 1, Scraper.select_videoIds, bind at 1, db_statement.
  unfold Spec.database_answers in Hdb.
  assert (Hin : forall ids : list string,
            u ∈ filter (fun x =>
                  Scraper.missing_from_db
                    (list_to_set (filter (fun row => row ∈ ids)
                                    (videos_table w))) x) dups).
  { intros ids. apply list_elem_of_filter. split; [|assumption].
    unfold Scraper.missing_from_db. rewrite Hid.
    apply bool_decide_spec. rewrite elem_of_list_to_set.
    intros [_ ?]%list_elem_of_filter. contradiction. }
  destruct (db_faults w) as [|[] fs]; [|discriminate|].
  all: cbn [videos_table set_db_faults];
       match goal with
       | |- context [Nat.ltb 0 (length ?l)] =>
           destruct (Nat.ltb 0 (length l)) eqn:Hl; cbn;
           [ eexists _, _; split; [reflexivity|];
             apply elem_of_app; right; apply Hin
           | exfalso; specialize (Hin (omap Scraper.url_videoId dups));
             destruct l; [inversion Hin | discriminate] ]
       end.
Qed.

(** When the query throws, the answer of the tracker stands. *)
Lemma reconcile_falls_back (new dups : list string) (w : World) :
  dups <> [] ->
  Spec.database_answers w = false ->
  exists w',
    Scraper.reconcile new dups w = (Ok new, w')
    /\ trace w' = trace w ++ [DatabaseCheckFailed].
Proof.
  intros Hdups Hdb. unfold Scraper.reconcile.
  destruct dups as [|u dups]; [congruence|]. cbn [length Nat.ltb Nat.leb].
  unfold try_catch, bind at 1, Scraper.select_videoIds, bind at 1, db_statement.
  unfold Spec.database_answers in Hdb.
  destruct (db_faults w) as [|[] fs]; try discriminate.
  eexists. split; reflexivity.
Qed.

End ReconcileFacts.

(** C10.  The two extractions disagree: for a URL that the tracker
    parses and the coordinator's pattern does not (an embed URL is
    one), once the tracker flags it as a duplicate the
    coordinator never puts it among the URLs to scrape, whatever table
    [videos] holds and whatever the database does. *)
Theorem unparsed_duplicate_is_never_reprocessed
    (w : World) (videoUrls : list string) (u id : string) :
  Tracker.extractVideoId u = Ok id ->
  Scraper.url_videoId u = None ->
  Spec.flagged_duplicate w videoUrls u = true ->
  exists final w',
    Scraper.finalVideosToScrape videoUrls w = (Ok final, w')
    /\ u ∉ final.
Proof.
  intros _ Hnone Hdup.
  destruct (finalVideosToScrape_run videoUrls w
              (flagged_available _ _ _ Hdup))
    as (data & w1 & _ & _ & _ & _ & _ & _ & _ & Hflag & Heq).
  rewrite Heq. destruct (proj1 (Hflag u) Hdup) as [_ Hex].
  edestruct reconcile_adds_parsed_only as (final & w' & Hrun & Hfinal).
  exists final, w'. split; [exact Hrun|].
  intros [Hnew | [_ [x Hx]]]%Hfinal.
  - apply newUrls_spec in Hnew. congruence.
  - congruence.
Qed.

(** C10 at an embed URL that the tracker holds and storage lacks. *)
Lemma unparsed_duplicate_is_never_reprocessed_witness :
  Tracker.extractVideoId Examples.embed_url = Ok "dQw4w9WgXcQ"
  /\ Scraper.url_videoId Examples.embed_url = None
  /\ exists final w',
       Scraper.finalVideosToScrape [Examples.embed_url]
         (Examples.tracked_world Examples.embed_url [] [])
       = (Ok final, w')
       /\ Examples.embed_url ∉ final.
Proof.
  split; [reflexivity|]. split; [reflexivity|].
  apply (unparsed_duplicate_is_never_reprocessed
           (Examples.tracked_world Examples.embed_url [] [])
           [Examples.embed_url] Examples.embed_url "dQw4w9WgXcQ");
    vm_compute; reflexivity.
Defined.

(** C3, as amended.  A URL that the tracker flags as a duplicate is put
    back among the URLs to scrape when the coordinator's own pattern
    extracts an identifier from it, table [videos] has no row with that
    identifier, and the presence query is answered. *)
Theorem duplicate_missing_from_storage_is_reprocessed
    (w : World) (videoUrls : list string) (u id : string) :
  Spec.flagged_duplicate w videoUrls u = true ->
  Scraper.url_videoId u = Some id ->
  id ∉ videos_table w ->
  Spec.database_answers w = true ->
  exists final w',
    Scraper.finalVideosToScrape videoUrls w = (Ok final, w')
    /\ u ∈ final.
Proof.
  intros Hdup Hid Hmiss Hdb.
  destruct (finalVideosToScrape_run videoUrls w
              (flagged_available _ _ _ Hdup))
    as (data & w1 & _ & _ & _ & Htab & _ & Hf & _ & Hflag & Heq).
  rewrite Heq. destruct (proj1 (Hflag u) Hdup) as [Hin Hex].
  apply reconcile_adds_missing with (id := id).
  - apply duplicateUrls_spec. now split.
  - assumption.
  - now rewrite Htab.
  - unfold Spec.database_answers. now rewrite Hf.
Qed.

(** C3, as amended, at a watch URL that the tracker holds while table
    [videos] holds another video only. *)
Lemma duplicate_missing_from_storage_is_reprocessed_witness :
  exists final w',
    Scraper.finalVideosToScrape [Examples.watch_url]
      (Examples.tracked_world Examples.watch_url ["9bZkp7q19f0"] [])
    = (Ok final, w')
    /\ Examples.watch_url ∈ final.
Proof.
  apply (duplicate_missing_from_storage_is_reprocessed
           (Examples.tracked_world Examples.watch_url ["9bZkp7q19f0"] [])
           [Examples.watch_url] Examples.watch_url "dQw4w9WgXcQ").
  - vm_compute; reflexivity.
  - vm_compute; reflexivity.
  - apply (bool_decide_unpack _). vm_compute. exact I.
  - reflexivity.
Defined.

(** C3, counterexample.  Two worlds in which the tracker flags the URL,
    its identifier has no row in [videos], and the URL is not put back:
    an embed URL, which the coordinator's pattern does not parse; and a
    watch URL while the presence query throws. *)
Lemma flagged_duplicate_not_reprocessed :
  (Spec.flagged_duplicate (Examples.tracked_world Examples.embed_url [] [])
     [Examples.embed_url] Examples.embed_url = true
   /\ Tracker.extractVideoId Examples.embed_url = Ok "dQw4w9WgXcQ"
   /\ ("dQw4w9WgXcQ"
         ∉ videos_table (Examples.tracked_world Examples.embed_url [] []))
   /\ fst (Scraper.finalVideosToScrape [Examples.embed_url]
             (Examples.tracked_world Examples.embed_url [] []))
      = Ok [])
  /\ (Spec.flagged_duplicate
        (Examples.tracked_world Examples.watch_url [] [true])
        [Examples.watch_url] Examples.watch_url = true
      /\ Tracker.extractVideoId Examples.watch_url = Ok "dQw4w9WgXcQ"
      /\ ("dQw4w9WgXcQ"
            ∉ videos_table
                (Examples.tracked_world Examples.watch_url [] [true]))
      /\ fst (Scraper.finalVideosToScrape [Examples.watch_url]
                (Examples.tracked_world Examples.watch_url [] [true]))
         = Ok []).
Proof.
  repeat split; try (vm_compute; reflexivity); apply not_elem_of_nil.
Qed.

(* ===================================================================== *)
(** * Transcript strategies *)
(* ===================================================================== *)

Section ResolverFacts.

Lemma strategies_started_snoc (tr : list Event) (e : Event) :
  Spec.strategies_started (tr ++ [e])
  = Spec.strategies_started tr
    ++ match e with
       | StrategyStarted s _ => [s]
       | _ => []
       end.
Proof.
  unfold Spec.strategies_started. rewrite omap_app. f_equal.
  destruct e; reflexivity.
Qed.

(** Unfolds the combinators of the monad. *)
Ltac run :=
  unfold try_finally, try_catch, bind, ret, throw, log, now, Scraper.call;
  cbn [trace set_trace set_clock fst snd].

(** Strategy 3 returns normally whatever the downloader, the transcriber
    and the cleanup do, and announces itself once. *)
Lemma download_run (env : Scraper.Env) (videoUrl : string) (w : World) :
  exists w',
    Scraper.getYouTubeTranscriptViaDownload env videoUrl w
    = (Ok match Scraper.videoDownloader env videoUrl with
          | Throw _ => EmptyString
          | Ok downloadResult =>
              match Scraper.audioTranscriber env
                      (Scraper.audioPath downloadResult) with
              | Throw _ => EmptyString
              | Ok transcriptionResult => Scraper.text transcriptionResult
              end
          end, w')
    /\ Spec.strategies_started (trace w')
       = Spec.strategies_started (trace w) ++ [DownloadAndTranscribe]
    /\ tracking_file w' = tracking_file w
    /\ clock w' = clock w.
Proof.
  unfold Scraper.getYouTubeTranscriptViaDownload. run.
  destruct (Scraper.videoDownloader env videoUrl) as [d|e].
  - destruct (Scraper.cleanup d);
      destruct (Scraper.audioTranscriber env (Scraper.audioPath d));
      eexists; (split; [reflexivity|]); cbn;
      rewrite ?strategies_started_snoc, ?app_nil_r; auto.
  - eexists; (split; [reflexivity|]); cbn;
      rewrite ?strategies_started_snoc, ?app_nil_r; auto.
Qed.

(** The harvester resolves the transcript through strategy 3 and no
    other strategy. *)
Lemma harvester_strategies (env : Scraper.Env) (videoUrl : string)
    (w : World) :
  Spec.strategies_started
    (trace (snd (Scraper.getYouTubeVideoData env videoUrl w)))
  = Spec.strategies_started (trace w)
    ++ match Scraper.url_videoId videoUrl with
       | Some _ => [DownloadAndTranscribe]
       | None => []
       end.
Proof.
  unfold Scraper.getYouTubeVideoData, Scraper.url_videoId.
  destruct (Regex.match1 Scraper.id_pattern videoUrl) as [id|];
    [|now rewrite app_nil_r].
  unfold bind at 1.
  destruct (download_run env videoUrl w) as (w' & -> & Htr & _).
  run.
  destruct (Scraper.puppeteer_open env videoUrl); [|exact Htr].
  destruct (Scraper.page_metadata env videoUrl); [|exact Htr].
  destruct (Scraper.commentElements env videoUrl); [|exact Htr].
  cbn. now rewrite strategies_started_snoc, app_nil_r.
Qed.

Lemma harvester_transcript (env : Scraper.Env) (videoUrl : string)
    (w : World) (v : Scraper.ScrapedVideo) (w' : World) :
  Scraper.getYouTubeVideoData env videoUrl w = (Ok v, w') ->
  Ok (Scraper.transcript v)
  = fst (Scraper.getYouTubeTranscriptViaDownload env videoUrl w).
Proof.
  unfold Scraper.getYouTubeVideoData.
  destruct (Regex.match1 Scraper.id_pattern videoUrl) as [id|];
    [|discriminate].
  unfold bind at 1.
  destruct (download_run env videoUrl w) as (w1 & -> & _).
  run.
  destruct (Scraper.puppeteer_open env videoUrl); [|discriminate].
  destruct (Scraper.page_metadata env videoUrl); [|discriminate].
  destruct (Scraper.commentElements env videoUrl); [|discriminate].
  cbn. intros [= <- _]. reflexivity.
Qed.

(** What the panel strategy yields does not depend on the world. *)
Lemma transcript_panel_outcome (env : Scraper.Env) (videoUrl : string)
    (w1 w2 : World) :
  fst (Scraper.transcript_panel env videoUrl w1)
  = fst (Scraper.transcript_panel env videoUrl w2).
Proof.
  unfold Scraper.transcript_panel. run.
  destruct (Scraper.moreActionsVisible env videoUrl) as [[]|]; try reflexivity.
  destruct (Scraper.transcriptOptionVisible env videoUrl) as [[]|];
    try reflexivity.
  destruct (Scraper.transcriptSegments env videoUrl); try reflexivity.
  destruct (Nat.ltb 0 _); reflexivity.
Qed.

(** Inside [getTranscriptViaPlaywright] the panel comes first, and the
    caption track is tried only when the panel gave no transcript. *)
Lemma playwright_strategies (env : Scraper.Env) (videoUrl : string)
    (w : World) :
  exists l,
    Spec.strategies_started
      (trace (snd (Scraper.getTranscriptViaPlaywright env videoUrl w)))
    = Spec.strategies_started (trace w) ++ l
    /\ l `prefix_of` [TranscriptPanel; CaptionTrack]
    /\ (CaptionTrack ∈ l ->
        fst (Scraper.transcript_panel env videoUrl w) = Ok None).
Proof.
  unfold Scraper.getTranscriptViaPlaywright, Scraper.caption_track,
    Scraper.transcript_panel.
  run.
  assert (Hnil : [] `prefix_of` [TranscriptPanel; CaptionTrack])
    by apply prefix_nil.
  assert (Hone : [TranscriptPanel] `prefix_of` [TranscriptPanel; CaptionTrack])
    by (now exists [CaptionTrack]).
  assert (Hnot : CaptionTrack ∉ [TranscriptPanel])
    by (now intros [=]%list_elem_of_singleton).
  assert (Hnot0 : CaptionTrack ∉ @nil Strategy) by apply not_elem_of_nil.
  destruct (Scraper.chromium_launch env);
    [|exists []; cbn; rewrite app_nil_r; now auto].
  destruct (Scraper.page_navigate env videoUrl);
    [|exists []; cbn; rewrite ?strategies_started_snoc, !app_nil_r; now auto].
  destruct (Scraper.moreActionsVisible env videoUrl) as [[]|];
    [destruct (Scraper.transcriptOptionVisible env videoUrl) as [[]|];
     [destruct (Scraper.transcriptSegments env videoUrl);
      [destruct (Nat.ltb 0 _)|]| |]| |].
  all: try (exists [TranscriptPanel]; cbn;
            rewrite ?strategies_started_snoc, ?app_nil_r; now auto).
  all: destruct (Scraper.captionTranscript env videoUrl) as [[c|]|];
       [destruct (Nat.ltb 50 _)| |].
  all: exists [TranscriptPanel; CaptionTrack]; cbn;
       rewrite ?strategies_started_snoc, ?app_nil_r, <- ?app_assoc;
       split; [reflexivity | split; [reflexivity | reflexivity]].
Qed.

End ResolverFacts.

(** C2.  For every environment, URL and world, transcript resolution
    returns normally with a string: the transcribed text when download
    and transcription succeed, the empty string when either throws;
    whether [cleanup()] throws makes no difference. *)
Theorem transcript_resolution_never_throws
    (env : Scraper.Env) (videoUrl : string) (w : World) :
  exists transcript w',
    Scraper.getYouTubeTranscriptViaDownload env videoUrl w
    = (Ok transcript, w')
    /\ transcript
       = match Scraper.videoDownloader env videoUrl with
         | Throw _ => EmptyString
         | Ok downloadResult =>
             match Scraper.audioTranscriber env
                     (Scraper.audioPath downloadResult) with
             | Throw _ => EmptyString
             | Ok transcriptionResult => Scraper.text transcriptionResult
             end
         end.
Proof.
  destruct (download_run env videoUrl w) as (w' & Hrun & _).
  eexists _, w'. split; [exact Hrun | reflexivity].
Qed.

(** C1, as amended.  The harvester resolves a transcript through the
    download-and-transcribe strategy alone: it announces exactly that
    one strategy (none when the URL is rejected first), and the
    transcript of the record is what that strategy returns.  The panel
    and caption-track strategies are chained only inside
    [getTranscriptViaPlaywright]: panel first, caption track second and
    only when the panel gave no transcript. *)
Theorem transcript_resolution_is_download_only
    (env : Scraper.Env) (videoUrl : string) (w : World) :
  Spec.strategies_started
    (trace (snd (Scraper.getYouTubeVideoData env videoUrl w)))
  = Spec.strategies_started (trace w)
    ++ match Scraper.url_videoId videoUrl with
       | Some _ => [DownloadAndTranscribe]
       | None => []
       end
  /\ (forall v w',
        Scraper.getYouTubeVideoData env videoUrl w = (Ok v, w') ->
        Ok (Scraper.transcript v)
        = fst (Scraper.getYouTubeTranscriptViaDownload env videoUrl w))
  /\ exists l,
       Spec.strategies_started
         (trace (snd (Scraper.getTranscriptViaPlaywright env videoUrl w)))
       = Spec.strategies_started (trace w) ++ l
       /\ l `prefix_of` [TranscriptPanel; CaptionTrack]
       /\ (CaptionTrack ∈ l ->
           fst (Scraper.transcript_panel env videoUrl w) = Ok None).
Proof.
  split; [apply harvester_strategies|].
  split; [apply harvester_transcript | apply playwright_strategies].
Qed.

(** C1, as amended, for a page whose panel and caption track are empty
    while download and transcription succeed. *)
Lemma transcript_resolution_is_download_only_witness :
  exists v w',
    Scraper.getYouTubeVideoData Examples.fallback_env Examples.watch_url
      Examples.fresh_world = (Ok v, w')
    /\ Spec.strategies_started (trace w') = [DownloadAndTranscribe]
    /\ Ok (Scraper.transcript v)
       = fst (Scraper.getYouTubeTranscriptViaDownload Examples.fallback_env
                Examples.watch_url Examples.fresh_world).
Proof.
  destruct (transcript_resolution_is_download_only Examples.fallback_env
              Examples.watch_url Examples.fresh_world)
    as (Hstrategies & Htranscript & _).
  eexists _, _. split; [vm_compute; reflexivity|].
  split; [vm_compute; reflexivity|].
  eapply Htranscript. vm_compute. reflexivity.
Defined.

(** C1, counterexample.  Strategies 1 and 2 yield the empty string and
    strategy 3 yields "hello world"; the harvester returns "hello world"
    after one announced strategy, not three. *)
Lemma resolution_makes_one_attempt_not_three :
  fst (Scraper.getTranscriptViaPlaywright Examples.fallback_env
         Examples.watch_url Examples.fresh_world) = Ok EmptyString
  /\ fst (Scraper.getYouTubeTranscriptViaDownload Examples.fallback_env
            Examples.watch_url Examples.fresh_world) = Ok "hello world"
  /\ match fst (Scraper.getYouTubeVideoData Examples.fallback_env
                  Examples.watch_url Examples.fresh_world) with
     | Ok v => Scraper.transcript v = "hello world"
     | Throw _ => False
     end
  /\ Spec.strategies_started
       (trace (snd (Scraper.getYouTubeVideoData Examples.fallback_env
                      Examples.watch_url Examples.fresh_world)))
     = [DownloadAndTranscribe]
  /\ Spec.strategies_started
       (trace (snd (Scraper.getYouTubeVideoData Examples.fallback_env
                      Examples.watch_url Examples.fresh_world)))
     <> [TranscriptPanel; CaptionTrack; DownloadAndTranscribe].
Proof.
  repeat split; try (vm_compute; reflexivity).
  vm_compute. discriminate.
Qed.

(* ===================================================================== *)
(** * Comments *)
(* ===================================================================== *)

Section CommentFacts.

Lemma comment_loop_length (els : list (option string)) (idx : list nat)
    (acc : list string) :
  length (fold_left (Scraper.comment_step els) idx acc)
  <= length acc + length idx.
Proof.
  revert acc. induction idx as [|i idx IH]; intros acc; cbn [fold_left length].
  - lia.
  - etransitivity; [apply IH|]. unfold Scraper.comment_step.
    destruct (els !! i) as [[t|]|]; try lia.
    destruct (Nat.ltb 10 _); rewrite ?length_app; cbn; lia.
Qed.

Lemma comment_loop_long (els : list (option string)) (idx : list nat)
    (acc : list string) :
  Forall (fun c => 10 < Js.length c) acc ->
  Forall (fun c => 10 < Js.length c)
         (fold_left (Scraper.comment_step els) idx acc).
Proof.
  revert acc. induction idx as [|i idx IH]; intros acc Hacc; cbn [fold_left].
  - exact Hacc.
  - apply IH. unfold Scraper.comment_step.
    destruct (els !! i) as [[t|]|]; try exact Hacc.
    destruct (Nat.ltb 10 _) eqn:Hlong; [|exact Hacc].
    apply Forall_app. split; [exact Hacc|].
    apply Forall_singleton. now apply Nat.ltb_lt.
Qed.

Lemma extractComments_bounds (els : list (option string)) :
  length (Scraper.extractComments els) <= 50
  /\ Forall (fun c => 10 < Js.length c) (Scraper.extractComments els).
Proof.
  unfold Scraper.extractComments. split.
  - etransitivity; [apply comment_loop_length|].
    rewrite length_seq. cbn [length]. lia.
  - apply comment_loop_long. constructor.
Qed.

End CommentFacts.

(** C9.  A harvested record holds at most 50 comments, every one of
    them at least 10 code units long; a string shorter than 10 is never
    among them. *)
Theorem harvested_comments_are_bounded
    (env : Scraper.Env) (videoUrl : string) (w : World)
    (v : Scraper.ScrapedVideo) (w' : World) :
  Scraper.getYouTubeVideoData env videoUrl w = (Ok v, w') ->
  length (Scraper.comments v) <= 50
  /\ (forall c, c ∈ Scraper.comments v -> 10 <= Js.length c)
  /\ (forall c, Js.length c < 10 -> c ∉ Scraper.comments v).
Proof.
  unfold Scraper.getYouTubeVideoData.
  destruct (Regex.match1 Scraper.id_pattern videoUrl) as [id|];
    [|discriminate].
  unfold bind at 1.
  destruct (Scraper.getYouTubeTranscriptViaDownload env videoUrl w)
    as [[t|e] w1]; [|discriminate].
  unfold bind, ret, log, now, Scraper.call.
  destruct (Scraper.puppeteer_open env videoUrl); [|discriminate].
  destruct (Scraper.page_metadata env videoUrl); [|discriminate].
  destruct (Scraper.commentElements env videoUrl) as [els|]; [|discriminate].
  intros [= <- _]. cbn [Scraper.comments].
  destruct (extractComments_bounds els) as [Hlen Hlong].
  assert (Hall : forall c, c ∈ take 50 (Scraper.extractComments els) ->
                           10 < Js.length c).
  { intros c Hc. rewrite Forall_forall in Hlong. apply Hlong.
    eapply subseteq_take; eauto. }
  split; [rewrite length_take; lia|].
  split; intros c Hc.
  - specialize (Hall c Hc). lia.
  - intros Hin. specialize (Hall c Hin). lia.
Qed.

(** C9 for a page with five comment elements: two survive, the ones
    whose trimmed text is longer than 10 code units. *)
Lemma harvested_comments_are_bounded_witness :
  exists v w',
    Scraper.getYouTubeVideoData Examples.fallback_env Examples.watch_url
      Examples.fresh_world = (Ok v, w')
    /\ Scraper.comments v
       = ["Still the best song of the decade"; "I was sent here by a friend"]
    /\ length (Scraper.comments v) <= 50
    /\ (forall c, c ∈ Scraper.comments v -> 10 <= Js.length c)
    /\ (forall c, Js.length c < 10 -> c ∉ Scraper.comments v).
Proof.
  eexists _, _. split; [vm_compute; reflexivity|].
  split; [reflexivity|].
  eapply (harvested_comments_are_bounded Examples.fallback_env
            Examples.watch_url Examples.fresh_world).
  vm_compute. reflexivity.
Defined.

(* ===================================================================== *)
(** * Truncation of [rawAnalysis] *)
(* ===================================================================== *)

Section TruncationFacts.

Lemma slice0_length (n : nat) (s : string) :
  Js.length (Js.slice0 n s) = Nat.min n (Js.length s).
Proof.
  revert s. induction n as [|n IH]; intros [|c s]; cbn; auto.
Qed.

Lemma append_length (a b : string) :
  Js.length (a +:+ b) = Js.length a + Js.length b.
Proof.
  unfold Js.length. induction a as [|c a IH]; [reflexivity|].
  simpl. now rewrite IH.
Qed.

Lemma marker_length :
  Js.length DataStorage.truncation_marker = 35.
Proof. reflexivity. Qed.

(** Past the cap, the stored text is the first [262044] code units
    followed by the marker: [262079] code units in all. *)
Lemma truncate_long (rawText : string) :
  (DataStorage.MAX_RAW_ANALYSIS_SIZE < N.of_nat (Js.length rawText))%N ->
  DataStorage.truncate rawText
  = Js.slice0 (N.to_nat (DataStorage.MAX_RAW_ANALYSIS_SIZE - 100)) rawText
    +:+ DataStorage.truncation_marker
  /\ N.of_nat (Js.length (DataStorage.truncate rawText)) = 262079%N.
Proof.
  intros Hlong. unfold DataStorage.truncate.
  apply N.ltb_lt in Hlong as Hb. rewrite Hb. split; [reflexivity|].
  rewrite append_length, slice0_length, marker_length.
  unfold DataStorage.MAX_RAW_ANALYSIS_SIZE in *. lia.
Qed.

(** [s.slice(0, n)] is a prefix of [s]. *)
Lemma slice0_split (n : nat) (s : string) :
  exists dropped, s = Js.slice0 n s +:+ dropped.
Proof.
  revert s. induction n as [|n IH]; intros [|c s]; cbn [Js.slice0].
  - now exists EmptyString.
  - now exists (String c s).
  - now exists EmptyString.
  - destruct (IH s) as [dropped Hs]. exists dropped.
    change (String c (Js.slice0 n s) +:+ dropped)
      with (String c (Js.slice0 n s +:+ dropped)).
    now rewrite <- Hs.
Qed.

End TruncationFacts.



(* ===================================================================== *)
(** * The terminal transition of a run *)
(* ===================================================================== *)

Section LedgerFacts.
Import LedgerData.

Lemma rows_of_missing (runId : string) (rows : list RunRow) :
  runId ∉ run_id <$> rows -> Ledger.rows_of runId rows = [].
Proof.
  intros Hmiss. unfold Ledger.rows_of.
  induction rows as [|r rows IH]; [reflexivity|].
  rewrite fmap_cons, not_elem_of_cons in Hmiss. destruct Hmiss as [Hne Hmiss].
  rewrite filter_cons_False by congruence. now apply IH.
Qed.

Lemma update_rows_missing (change : RunRow -> RunRow) (runId : string)
    (rows : list RunRow) :
  runId ∉ run_id <$> rows ->
  (fun r => if decide (run_id r = runId) then change r else r) <$> rows
  = rows.
Proof.
  intros Hmiss. induction rows as [|r rows IH]; [reflexivity|].
  rewrite fmap_cons, not_elem_of_cons in Hmiss. destruct Hmiss as [Hne Hmiss].
  rewrite fmap_cons, decide_False by congruence. now rewrite IH.
Qed.

(** An update that finds no row returns no row and changes none. *)
Lemma update_where_missing (change : Time -> RunRow -> RunRow)
    (runId : string) (w : World) :
  runId ∉ run_id <$> workflow_runs w ->
  exists r w',
    Ledger.update_where change runId w = (r, w')
    /\ workflow_runs w' = workflow_runs w
    /\ trace w' = trace w
    /\ db_faults w' = tl (db_faults w)
    /\ r = if Spec.database_answers w then Ok [] else Throw "database error".
Proof.
  intros Hmiss. unfold Ledger.update_where, bind, db_statement, now,
    Spec.database_answers.
  destruct (db_faults w) as [|[] fs] eqn:Hf; cbn -[Ledger.rows_of];
    rewrite ?rows_of_missing, ?update_rows_missing by assumption;
    eexists _, _; repeat split; cbn; rewrite ?Hf; reflexivity.
Qed.

(** An insert under a fresh [run_id] appends the row. *)
Lemma insert_run_fresh (row : Time -> RunRow) (w : World) :
  (forall t, run_id (row t) ∉ run_id <$> workflow_runs w) ->
  exists r w',
    Ledger.insert_run row w = (r, w')
    /\ trace w' = trace w
    /\ db_faults w' = tl (db_faults w)
    /\ if Spec.database_answers w
       then r = Ok tt
            /\ exists t, workflow_runs w' = workflow_runs w ++ [row t]
       else r = Throw "database error".
Proof.
  intros Hfresh. unfold Ledger.insert_run, bind, db_statement, now,
    Spec.database_answers.
  destruct (db_faults w) as [|[] fs] eqn:Hf; cbn;
    rewrite ?decide_False by apply Hfresh;
    eexists _, _; repeat split; cbn; rewrite ?Hf; try reflexivity; eauto.
Qed.

Lemma defensive_inserts_snoc (runId : string) (tr : list Event) (e : Event) :
  Spec.defensive_inserts runId (tr ++ [e])
  = Spec.defensive_inserts runId tr
    ++ (if Spec.is_defensive_insert runId e then [e] else []).
Proof.
  unfold Spec.defensive_inserts. rewrite filter_app. f_equal.
  destruct (Spec.is_defensive_insert runId e) eqn:He.
  - rewrite filter_cons_True by now rewrite He. reflexivity.
  - rewrite filter_cons_False by now rewrite He. reflexivity.
Qed.

Lemma rows_of_snoc (runId : string) (rows : list RunRow) (r : RunRow) :
  runId ∉ run_id <$> rows ->
  run_id r = runId ->
  Ledger.rows_of runId (rows ++ [r]) = [r].
Proof.
  intros Hmiss Hr. unfold Ledger.rows_of. rewrite filter_app.
  fold (Ledger.rows_of runId rows). rewrite rows_of_missing by assumption.
  now rewrite filter_cons_True.
Qed.

Lemma mark_completed_missing (trigger_ : string) (schedule_ : option string)
    (runId : string) (w : World) :
  runId ∉ run_id <$> workflow_runs w ->
  exists r w',
    Ledger.mark_completed trigger_ schedule_ runId w = (r, w')
    /\ (r = Ok tt -> Spec.completed_defensively trigger_ runId w w')
    /\ (db_faults w = [] -> r = Ok tt).
Proof.
  intros Hmiss. unfold Ledger.mark_completed. unfold bind at 1.
  destruct (update_where_missing Ledger.set_completed runId w Hmiss)
    as (r1 & w1 & -> & Hrows1 & Htr1 & Hf1 & ->).
  destruct (Spec.database_answers w) eqn:Hdb1.
  2: { eexists _, _. split; [reflexivity|]. split; [discriminate|].
       intros Hnil. unfold Spec.database_answers in Hdb1.
       now rewrite Hnil in Hdb1. }
  cbn [length Nat.eqb]. unfold bind at 1 2, log at 1.
  set (w2 := set_trace _ w1).
  destruct (insert_run_fresh
              (Ledger.defensive_row trigger_ schedule_ runId "completed" None
                 "Record created during completion due to missing initial record")
              w2) as (r3 & w3 & -> & Htr3 & Hf3 & Hins).
  { intros t. cbn. now rewrite Hrows1. }
  destruct (Spec.database_answers w2) eqn:Hdb2.
  - destruct Hins as [-> [t Hrows3]]. unfold log.
    eexists _, _. split; [reflexivity|]. split; [|reflexivity].
    intros _. split.
    + eexists. cbn [workflow_runs set_trace]. rewrite Hrows3.
      cbn [workflow_runs set_trace w2]. rewrite Hrows1.
      split; [apply rows_of_snoc; [assumption | reflexivity]|].
      split; reflexivity.
    + cbn [trace set_trace]. rewrite Htr3. cbn [trace set_trace w2].
      rewrite Htr1, !defensive_inserts_snoc. cbn.
      rewrite bool_decide_eq_true_2 by reflexivity. now rewrite app_nil_r.
  - rewrite Hins. eexists _, _. split; [reflexivity|].
    split; [discriminate|].
    intros Hnil. unfold Spec.database_answers in Hdb2.
    cbn [db_faults set_trace w2] in Hdb2. rewrite Hf1, Hnil in Hdb2.
    discriminate.
Qed.

Lemma mark_failed_missing (trigger_ : string) (schedule_ : option string)
    (runId : string) (error : Error) (w : World) :
  runId ∉ run_id <$> workflow_runs w ->
  db_faults w = [] ->
  exists w',
    Ledger.mark_failed trigger_ schedule_ runId error w = (Ok tt, w')
    /\ Spec.failed_defensively trigger_ runId error w w'.
Proof.
  intros Hmiss Hnil. unfold Ledger.mark_failed, try_catch. unfold bind at 1.
  destruct (update_where_missing
              (Ledger.set_failed (Js.slice0 1000 (String_of_error error)))
              runId w Hmiss)
    as (r1 & w1 & -> & Hrows1 & Htr1 & Hf1 & ->).
  unfold Spec.database_answers. rewrite Hnil. cbn [hd negb length Nat.eqb].
  unfold bind at 1 2, log at 1.
  set (w2 := set_trace _ w1).
  destruct (insert_run_fresh
              (Ledger.defensive_row trigger_ schedule_ runId "failed"
                 (Some (Js.slice0 1000 (String_of_error error)))
                 "Record created during failure due to missing initial record")
              w2) as (r3 & w3 & -> & Htr3 & Hf3 & Hins).
  { intros t. cbn. now rewrite Hrows1. }
  unfold Spec.database_answers in Hins.
  cbn [db_faults set_trace w2] in Hins. rewrite Hf1, Hnil in Hins.
  cbn [tl hd negb] in Hins. destruct Hins as [-> [t Hrows3]].
  unfold log. eexists. split; [reflexivity|]. split.
  - eexists. cbn [workflow_runs set_trace]. rewrite Hrows3.
    cbn [workflow_runs set_trace w2]. rewrite Hrows1.
    split; [apply rows_of_snoc; [assumption | reflexivity]|].
    repeat split; reflexivity.
  - cbn [trace set_trace]. rewrite Htr3. cbn [trace set_trace w2].
    rewrite Htr1, !defensive_inserts_snoc. cbn.
    rewrite bool_decide_eq_true_2 by reflexivity. now rewrite app_nil_r.
Qed.

(** The [catch] block of a wrapper ends by rethrowing. *)
Lemma mark_failed_then_throw {A} (trigger_ : string)
    (schedule_ : option string) (runId : string) (error : Error)
    (w : World) (a : A) (w' : World) :
  (bind (Ledger.mark_failed trigger_ schedule_ runId error)
        (fun _ => throw error)) w <> (Ok a, w').
Proof.
  unfold bind, throw.
  destruct (Ledger.mark_failed trigger_ schedule_ runId error w) as [[|] ?];
    discriminate.
Qed.

End LedgerFacts.

Section WrapperFacts.
Import LedgerData.

Context {WorkflowResult : Type}.

Lemma try_catch_bind_ok {A B} (m : M A) (k : A -> M B)
    (h : Error -> M B) (w : World) (a : A) (w1 : World) :
  m w = (Ok a, w1) ->
  try_catch (bind m k) h w = try_catch (k a) h w1.
Proof. intros H. unfold try_catch, bind. now rewrite H. Qed.

Lemma try_catch_bind_throw {A B} (m : M A) (k : A -> M B)
    (h : Error -> M B) (w : World) (e : Error) (w1 : World) :
  m w = (Throw e, w1) ->
  try_catch (bind m k) h w = h e w1.
Proof. intros H. unfold try_catch, bind. now rewrite H. Qed.

(** The [catch] block of the two wrappers, when the row is missing and
    the database answers. *)
Lemma wrapper_catch (trigger_ : string) (schedule_ : option string)
    (runId : string) (error : Error) (w1 : World) :
  runId ∉ run_id <$> workflow_runs w1 ->
  db_faults w1 = [] ->
  exists w',
    bind (Ledger.mark_failed trigger_ schedule_ runId error)
         (fun _ => @throw WorkflowResult error) w1 = (Throw error, w')
    /\ Spec.failed_defensively trigger_ runId error w1 w'.
Proof.
  intros Hmiss Hnil.
  destruct (mark_failed_missing trigger_ schedule_ runId error w1 Hmiss Hnil)
    as (w' & Hrun & Hpost).
  exists w'. unfold bind. rewrite Hrun. split; [reflexivity | assumption].
Qed.

(** The cron handler reads the clock, then enters its [try] block. *)
Lemma registerCronWorkflow_unfold
    (workflow : option (list string) -> string -> M WorkflowResult)
    (cronExpression random : string) (w : World) :
  Ledger.registerCronWorkflow workflow cronExpression random w
  = try_catch
      (bind (Ledger.insert_run
               (Ledger.running_row (Ledger.cron_runId (clock w) random)
                  cronExpression))
         (fun _ =>
            bind (workflow None (Ledger.cron_runId (clock w) random))
              (fun result =>
                 bind (Ledger.mark_completed "cron" (Some cronExpression)
                         (Ledger.cron_runId (clock w) random))
                      (fun _ => ret result))))
      (fun error =>
         bind (Ledger.mark_failed "cron" (Some cronExpression)
                 (Ledger.cron_runId (clock w) random) error)
              (fun _ => throw error))
      (set_clock (S (clock w)) w).
Proof. reflexivity. Qed.

(** The part of the two wrappers that follows the workflow. *)
Lemma wrapper_tail (trigger_ : string) (schedule_ : option string)
    (runId : string) (result : WorkflowResult) (w1 : World) :
  runId ∉ run_id <$> workflow_runs w1 ->
  (forall r w',
      try_catch
        (bind (Ledger.mark_completed trigger_ schedule_ runId)
              (fun _ => ret result))
        (fun error =>
           bind (Ledger.mark_failed trigger_ schedule_ runId error)
                (fun _ => throw error)) w1 = (Ok r, w') ->
      r = result /\ Spec.completed_defensively trigger_ runId w1 w')
  /\ (db_faults w1 = [] ->
      exists w',
        try_catch
          (bind (Ledger.mark_completed trigger_ schedule_ runId)
                (fun _ => ret result))
          (fun error =>
             bind (Ledger.mark_failed trigger_ schedule_ runId error)
                  (fun _ => throw error)) w1 = (Ok result, w')).
Proof.
  intros Hmiss. unfold try_catch. unfold bind at 1 3.
  destruct (mark_completed_missing trigger_ schedule_ runId w1 Hmiss)
    as (r0 & w2 & -> & Hpost & Hlive).
  destruct r0 as [[]|e]; cbn [ret].
  - split; [|eauto]. intros r w' [= <- <-]. auto.
  - split.
    + intros r w' Habs. now apply mark_failed_then_throw in Habs.
    + intros Hnil. specialize (Hlive Hnil). discriminate.
Qed.

End WrapperFacts.

(** C5.  When the run has no row in [workflow_runs] at the time the
    workflow ends, both wrappers insert the terminal record themselves.
    Success path, manual and cron: if the wrapper returns normally, it
    returns the workflow's result, the run has exactly one row, that row
    is [completed] and marked [defensive_insert], and exactly one
    defensive insert was logged for the run; and it does return normally
    when the database answers.  Failure path, manual and cron: when the
    database answers, the wrapper rethrows the workflow's error after
    inserting exactly one [failed] row with the truncated message. *)
Theorem missing_run_record_is_inserted_once
    (WorkflowResult : Type)
    (workflow : option (list string) -> string -> M WorkflowResult) :
  (forall (runId : string) (inputData : option (list string))
          (w : World) (result : WorkflowResult) (w1 : World),
      workflow inputData runId w = (Ok result, w1) ->
      runId ∉ LedgerData.run_id <$> workflow_runs w1 ->
      (forall r w',
          Ledger.registerManualWorkflow workflow runId inputData w
          = (Ok r, w') ->
          r = result /\ Spec.completed_defensively "manual" runId w1 w')
      /\ (db_faults w1 = [] ->
          exists w',
            Ledger.registerManualWorkflow workflow runId inputData w
            = (Ok result, w')))
  /\ (forall (cronExpression random : string)
             (w w0 : World) (result : WorkflowResult) (w1 : World),
      Ledger.insert_run
        (Ledger.running_row (Ledger.cron_runId (clock w) random)
           cronExpression)
        (set_clock (S (clock w)) w) = (Ok tt, w0) ->
      workflow None (Ledger.cron_runId (clock w) random) w0
      = (Ok result, w1) ->
      Ledger.cron_runId (clock w) random
        ∉ LedgerData.run_id <$> workflow_runs w1 ->
      (forall r w',
          Ledger.registerCronWorkflow workflow cronExpression random w
          = (Ok r, w') ->
          r = result
          /\ Spec.completed_defensively "cron"
               (Ledger.cron_runId (clock w) random) w1 w')
      /\ (db_faults w1 = [] ->
          exists w',
            Ledger.registerCronWorkflow workflow cronExpression
              random w = (Ok result, w')))
  /\ (forall (runId : string) (inputData : option (list string))
             (w : World) (error : Error) (w1 : World),
      workflow inputData runId w = (Throw error, w1) ->
      runId ∉ LedgerData.run_id <$> workflow_runs w1 ->
      db_faults w1 = [] ->
      exists w',
        Ledger.registerManualWorkflow workflow runId inputData w
        = (Throw error, w')
        /\ Spec.failed_defensively "manual" runId error w1 w')
  /\ (forall (cronExpression random : string)
             (w w0 : World) (error : Error) (w1 : World),
      Ledger.insert_run
        (Ledger.running_row (Ledger.cron_runId (clock w) random)
           cronExpression)
        (set_clock (S (clock w)) w) = (Ok tt, w0) ->
      workflow None (Ledger.cron_runId (clock w) random) w0
      = (Throw error, w1) ->
      Ledger.cron_runId (clock w) random
        ∉ LedgerData.run_id <$> workflow_runs w1 ->
      db_faults w1 = [] ->
      exists w',
        Ledger.registerCronWorkflow workflow cronExpression random w
        = (Throw error, w')
        /\ Spec.failed_defensively "cron"
             (Ledger.cron_runId (clock w) random) error w1 w').
Proof.
  repeat apply conj.
  - intros runId inputData w result w1 Hwf Hmiss.
    unfold Ledger.registerManualWorkflow.
    rewrite (try_catch_bind_ok _ _ _ _ _ _ Hwf).
    now apply wrapper_tail.
  - intros cronExpression random w w0 result w1 Hins Hwf Hmiss.
    rewrite !registerCronWorkflow_unfold.
    rewrite (try_catch_bind_ok _ _ _ _ _ _ Hins).
    rewrite (try_catch_bind_ok _ _ _ _ _ _ Hwf).
    now apply wrapper_tail.
  - intros runId inputData w error w1 Hwf Hmiss Hnil.
    unfold Ledger.registerManualWorkflow.
    rewrite (try_catch_bind_throw _ _ _ _ _ _ Hwf).
    now apply wrapper_catch.
  - intros cronExpression random w w0 error w1 Hins Hwf Hmiss Hnil.
    rewrite registerCronWorkflow_unfold.
    rewrite (try_catch_bind_ok _ _ _ _ _ _ Hins).
    rewrite (try_catch_bind_throw _ _ _ _ _ _ Hwf).
    now apply wrapper_catch.
Qed.

(** C5 for the manual wrapper, a run that was never recorded and a
    workflow that returns at once. *)
Lemma missing_run_record_is_inserted_once_witness :
  exists w',
    Ledger.registerManualWorkflow Examples.idle_workflow
      "manual-1700000000000" (Some [Examples.watch_url])
      Examples.fresh_world = (Ok tt, w')
    /\ Spec.completed_defensively "manual" "manual-1700000000000"
         Examples.fresh_world w'.
Proof.
  destruct (proj1 (missing_run_record_is_inserted_once unit
                     Examples.idle_workflow)
              "manual-1700000000000" (Some [Examples.watch_url])
              Examples.fresh_world tt Examples.fresh_world
              eq_refl (not_elem_of_nil _)) as [Hpost Hlive].
  destruct (Hlive eq_refl) as [w' Hrun].
  exists w'. split; [exact Hrun | exact (proj2 (Hpost tt w' Hrun))].
Defined.

(* ===================================================================== *)
(** * Further properties of the tracker *)
(* ===================================================================== *)

Section TrackerMore.
Import TrackerData.

Lemma find_video_Some_id (id : string) (vs : list VideoRecord)
    (v : VideoRecord) :
  Tracker.find_video id vs = Some v -> videoId v = id /\ v ∈ vs.
Proof.
  unfold Tracker.find_video. intros H.
  destruct (list_find _ vs) as [[i x]|] eqn:Hfind; simplify_eq/=.
  apply list_find_Some in Hfind as (Hv & Hid & _).
  split; [assumption | eapply list_elem_of_lookup_2; eauto].
Qed.

Lemma find_video_None_id (id : string) (vs : list VideoRecord) :
  Tracker.find_video id vs = None -> id ∉ videoId <$> vs.
Proof.
  intros H Hin. apply find_video_tracked in Hin as [v Hv]. congruence.
Qed.

(** What [check_url] answers, read against the index. *)
Lemma check_url_exists_iff (data : VideoTrackingData) (u : string) :
  Tracker.r_exists (Tracker.check_url data u) = true
  <-> exists id, Tracker.extractVideoId u = Ok id
                 /\ id ∈ videoId <$> videos data.
Proof.
  unfold Tracker.check_url.
  destruct (Tracker.extractVideoId u) as [id|e]; cbn.
  - destruct (Tracker.find_video id (videos data)) as [v|] eqn:Hfind; cbn.
    + split; [|reflexivity]. intros _. exists id. split; [reflexivity|].
      apply find_video_Some_id in Hfind as [<- Hin].
      now apply list_elem_of_fmap_2.
    + split; [discriminate|]. intros (id' & [= <-] & Hin).
      now apply find_video_None_id in Hfind.
  - split; [discriminate|]. now intros (id' & [=] & _).
Qed.

Lemma check_url_new_iff (data : VideoTrackingData) (u : string) :
  Tracker.r_exists (Tracker.check_url data u) = false
  /\ Tracker.r_error (Tracker.check_url data u) = None
  <-> exists id, Tracker.extractVideoId u = Ok id
                 /\ id ∉ videoId <$> videos data.
Proof.
  unfold Tracker.check_url.
  destruct (Tracker.extractVideoId u) as [id|e]; cbn.
  - destruct (Tracker.find_video id (videos data)) as [v|] eqn:Hfind; cbn.
    + split; [now intros [? _]|]. intros (id' & [= <-] & Hnot).
      apply find_video_Some_id in Hfind as [<- Hin].
      exfalso. apply Hnot. now apply list_elem_of_fmap_2.
    + split; [|auto]. intros _. exists id. split; [reflexivity|].
      now apply find_video_None_id.
  - split; [now intros [_ ?]|]. now intros (id' & [=] & _).
Qed.

Lemma newUrls_iff (data : VideoTrackingData) (urls : list string)
    (u : string) :
  u ∈ default [] (Tracker.newUrls
                    (Tracker.summarize urls (Tracker.check_url data <$> urls)))
  <-> u ∈ urls
      /\ exists id, Tracker.extractVideoId u = Ok id
                    /\ id ∉ videoId <$> videos data.
Proof.
  rewrite <- check_url_new_iff. cbn. rewrite list_elem_of_fmap. split.
  - intros (r & -> & Hr). apply list_elem_of_filter in Hr as [Hnew Hr].
    apply list_elem_of_fmap in Hr as (x & -> & Hx).
    rewrite check_url_url. auto.
  - intros [Hu Hnew]. exists (Tracker.check_url data u).
    split; [now rewrite check_url_url|].
    apply list_elem_of_filter. split; [assumption|].
    now apply list_elem_of_fmap_2.
Qed.

(** Every requested URL is counted once: as new, as duplicate or as
    unparsed. *)
Lemma summarize_counts (data : VideoTrackingData) (urls : list string) :
  Tracker.new (Tracker.summarize urls (Tracker.check_url data <$> urls))
  + Tracker.duplicates
      (Tracker.summarize urls (Tracker.check_url data <$> urls))
  + Props.unparsed urls
  = length urls.
Proof.
  unfold Props.unparsed, Props.parses. cbn.
  induction urls as [|u urls IH]; [reflexivity|].
  rewrite fmap_cons. cbn [length]. rewrite <- IH. clear IH.
  unfold Tracker.check_url at 1 3.
  destruct (Tracker.extractVideoId u) as [id|e] eqn:Hid.
  - destruct (Tracker.find_video id (videos data)).
    + rewrite filter_cons_False by (cbn; now intros [? _]).
      rewrite filter_cons_True by reflexivity.
      rewrite (filter_cons_False _ u) by (rewrite Hid; discriminate).
      cbn [length]. lia.
    + rewrite filter_cons_True by (cbn; auto).
      rewrite filter_cons_False by (cbn; discriminate).
      rewrite (filter_cons_False _ u) by (rewrite Hid; discriminate).
      cbn [length]. lia.
  - rewrite filter_cons_False by (cbn; now intros [_ ?]).
    rewrite filter_cons_False by (cbn; discriminate).
    rewrite (filter_cons_True _ u) by (now rewrite Hid).
    cbn [length]. lia.
Qed.

End TrackerMore.


(** X2.  A [check] call never changes the index.  When the tracking file
    can be read or created, the call reads: repeating it in the world it
    leaves gives the same answer and the same world, and any later
    [check] leaves that world as it is (the first call may create the
    tracking file, empty). *)
Theorem check_twice_is_check_once (urls urls' : list string) (w : World) :
  Spec.index (snd (Tracker.execute (Spec.check_context urls) w))
  = Spec.index w
  /\ (Spec.index_available w = true ->
      Tracker.execute (Spec.check_context urls)
        (snd (Tracker.execute (Spec.check_context urls) w))
      = Tracker.execute (Spec.check_context urls) w
      /\ snd (Tracker.execute (Spec.check_context urls')
                (snd (Tracker.execute (Spec.check_context urls) w)))
         = snd (Tracker.execute (Spec.check_context urls) w)).
Proof.
  unfold Tracker.execute, Spec.check_context, Tracker.checkDuplicates,
    Tracker.ensureTrackingFile, Tracker.readTrackingFile,
    Tracker.writeTrackingFile, fs_write, Spec.index_available, Spec.index,
    try_catch, bind, ret, now.
  cbn [Tracker.action Tracker.videoUrls Tracker.videoData
       String.eqb Ascii.eqb Bool.eqb].
  destruct (tracking_file w) as [data|] eqn:Hfile; cbn;
    rewrite ?Hfile; cbn; rewrite ?Hfile; auto.
  destruct (fs_faults w) as [|[] fs]; cbn; rewrite ?Hfile; cbn;
    (split; [reflexivity|]); try discriminate; auto.
Qed.

Section UpsertFacts.
Import TrackerData.

Lemma find_video_cons (id : string) (v : VideoRecord)
    (vs : list VideoRecord) :
  Tracker.find_video id (v :: vs)
  = if decide (videoId v = id) then Some v else Tracker.find_video id vs.
Proof.
  unfold Tracker.find_video. cbn [list_find]. case_decide; [reflexivity|].
  now destruct (list_find _ vs) as [[i x]|].
Qed.

(** After [upsert] the identifier is found, with the new fields and the
    old [analysisFile]. *)
Lemma find_upsert_same (r : VideoRecord) (vs : list VideoRecord) :
  Tracker.find_video (videoId r) (Tracker.upsert r vs)
  = Some match Tracker.find_video (videoId r) vs with
         | Some old => Tracker.spread old r
         | None => r
         end.
Proof.
  induction vs as [|v vs IH].
  - cbn. now rewrite decide_True.
  - rewrite upsert_cons, (find_video_cons _ v). case_decide.
    + rewrite find_video_cons. now rewrite decide_True.
    + rewrite find_video_cons. now rewrite decide_False.
Qed.

Lemma find_upsert_other (r : VideoRecord) (vs : list VideoRecord)
    (id : string) :
  id <> videoId r ->
  Tracker.find_video id (Tracker.upsert r vs) = Tracker.find_video id vs.
Proof.
  intros Hid. induction vs as [|v vs IH].
  - cbn. now rewrite decide_False.
  - rewrite upsert_cons, (find_video_cons _ v). case_decide as Hv.
    + rewrite find_video_cons. cbn [Tracker.spread videoId].
      rewrite !decide_False by congruence. reflexivity.
    + rewrite find_video_cons. case_decide; [reflexivity | assumption].
Qed.

Lemma upsert_length (r : VideoRecord) (vs : list VideoRecord) :
  length (Tracker.upsert r vs)
  = if decide (videoId r ∈ videoId <$> vs)
    then length vs else S (length vs).
Proof.
  rewrite <- (length_fmap videoId (Tracker.upsert r vs)), upsert_ids.
  case_decide; rewrite ?length_app, length_fmap; cbn; lia.
Qed.

End UpsertFacts.


Section ListFacts.
Import TrackerData.

Lemma insert_newest_first_perm (v : VideoRecord) (l : list VideoRecord) :
  Tracker.insert_newest_first v l ≡ₚ v :: l.
Proof.
  induction l as [|x l IH]; cbn [Tracker.insert_newest_first];
    [reflexivity|].
  destruct (Nat.ltb (scrapedAt v) (scrapedAt x)); [|reflexivity].
  rewrite IH. apply Permutation_swap.
Qed.

Lemma sort_newest_first_perm (vs : list VideoRecord) :
  Tracker.sort_newest_first vs ≡ₚ vs.
Proof.
  induction vs as [|v vs IH]; cbn; [reflexivity|].
  rewrite insert_newest_first_perm.
  now apply Permutation_skip.
Qed.

Lemma insert_newest_first_sorted (v : VideoRecord) (l : list VideoRecord) :
  StronglySorted Props.not_older l ->
  StronglySorted Props.not_older (Tracker.insert_newest_first v l).
Proof.
  induction 1 as [|x l Hl IH Hx]; cbn [Tracker.insert_newest_first].
  - repeat constructor.
  - destruct (Nat.ltb_spec (scrapedAt v) (scrapedAt x)) as [Hlt|Hge].
    + constructor; [assumption|].
      rewrite insert_newest_first_perm. constructor; [|assumption].
      unfold Props.not_older. lia.
    + constructor; [now constructor|].
      constructor; [exact Hge|].
      eapply Forall_impl; [exact Hx|].
      unfold Props.not_older. intros y Hy. lia.
Qed.

Lemma sort_newest_first_sorted (vs : list VideoRecord) :
  StronglySorted Props.not_older (Tracker.sort_newest_first vs).
Proof.
  induction vs as [|v vs IH]; cbn; [constructor|].
  now apply insert_newest_first_sorted.
Qed.

(** The sort is stable: the records of one instant keep their order. *)
Lemma insert_newest_first_stable (t : Time) (v : VideoRecord)
    (l : list VideoRecord) :
  filter (fun x => scrapedAt x = t) (Tracker.insert_newest_first v l)
  = filter (fun x => scrapedAt x = t) (v :: l).
Proof.
  induction l as [|x l IH]; cbn [Tracker.insert_newest_first];
    [reflexivity|].
  destruct (Nat.ltb_spec (scrapedAt v) (scrapedAt x)) as [Hlt|Hge];
    [|reflexivity].
  rewrite (filter_cons _ x), IH, !(filter_cons _ v), (filter_cons _ x).
  repeat case_decide; try reflexivity; lia.
Qed.

Lemma sort_newest_first_stable (t : Time) (vs : list VideoRecord) :
  filter (fun x => scrapedAt x = t) (Tracker.sort_newest_first vs)
  = filter (fun x => scrapedAt x = t) vs.
Proof.
  induction vs as [|v vs IH]; cbn [Tracker.sort_newest_first foldr];
    [reflexivity|].
  rewrite insert_newest_first_stable, !(filter_cons _ v).
  unfold Tracker.sort_newest_first in IH. now rewrite IH.
Qed.

(** The number of elements that [slice(0, end)] returns. *)
Lemma slice_to_take {A} (end_ : option Js.Number) (xs : list A) :
  exists k,
    Js.slice_to end_ xs = take k xs
    /\ k <= length xs
    /\ k = match end_ with
           | None => length xs
           | Some n =>
               match Js.ToIntegerOrInfinity n with
               | Js.PlusInfinity => length xs
               | Js.MinusInfinity => 0
               | Js.Integer z =>
                   if (z <? 0)%Z then length xs - Z.to_nat (- z)
                   else Z.to_nat z `min` length xs
               end
           end.
Proof.
  unfold Js.slice_to. eexists. split; [reflexivity|].
  destruct end_ as [n|]; [|split; lia].
  destruct (Js.ToIntegerOrInfinity n) as [| |z]; [split; lia | split; lia|].
  destruct (Z.ltb_spec z 0); split; lia.
Qed.

Lemma execute_list (limit : option Js.Number) (w : World) :
  exists resp w',
    Tracker.execute (Props.list_context limit) w = (Ok resp, w')
    /\ Spec.index w' = Spec.index w
    /\ videos_table w' = videos_table w
    /\ workflow_runs w' = workflow_runs w
    /\ db_faults w' = db_faults w
    /\ trace w' = trace w
    /\ if Spec.index_available w
       then resp = {| Tracker.resp_action := "list";
                      Tracker.success := true;
                      Tracker.results := []; Tracker.tracked := [];
                      Tracker.summary :=
                        Tracker.counts
                          (length (Tracker.slice_limit limit
                                     (Tracker.sort_newest_first
                                        (Spec.index w)))) 0 0;
                      Tracker.listed :=
                        Tracker.slice_limit limit
                          (Tracker.sort_newest_first (Spec.index w));
                      Tracker.message := None |}
       else resp = Spec.failure "list" "file system error".
Proof.
  destruct (ensureTrackingFile_run w)
    as (r & w1 & Hrun & Hidx & Ht & Hr & Hd & Hx & He & _ & Hf & Hcase).
  unfold Tracker.execute, Props.list_context.
  cbn [Tracker.action Tracker.videoUrls Tracker.videoData Tracker.limit
       String.eqb Ascii.eqb Bool.eqb].
  unfold try_catch, bind at 1. rewrite Hrun.
  destruct (Spec.index_available w).
  - destruct Hcase as (data & -> & Hfile & Hdata).
    eexists _, w1. split; [reflexivity|]. rewrite Hdata.
    repeat split; assumption.
  - destruct Hcase as [-> Hfile].
    eexists _, w1. split; [reflexivity|]. repeat split; assumption.
Qed.

Lemma execute_clear (w : World) :
  exists resp w',
    Tracker.execute Props.clear_context w = (Ok resp, w')
    /\ videos_table w' = videos_table w
    /\ workflow_runs w' = workflow_runs w
    /\ db_faults w' = db_faults w
    /\ trace w' = trace w
    /\ if Spec.file_system_answers w
       then resp = {| Tracker.resp_action := "clear";
                      Tracker.success := true;
                      Tracker.results := []; Tracker.tracked := [];
                      Tracker.summary := Tracker.counts 0 0 0;
                      Tracker.listed := [];
                      Tracker.message := Some "Video tracking data cleared" |}
            /\ exists t, tracking_file w'
                         = Some {| videos := []; lastUpdated := t |}
       else resp = Spec.failure "clear" "file system error"
            /\ tracking_file w' = tracking_file w.
Proof.
  unfold Tracker.execute, Props.clear_context,
    Tracker.saveTrackingData, Tracker.writeTrackingFile, fs_write,
    Spec.file_system_answers, try_catch, bind, ret, now.
  cbn [Tracker.action Tracker.videoUrls Tracker.videoData Tracker.limit
       String.eqb Ascii.eqb Bool.eqb fs_faults set_clock].
  destruct (fs_faults w) as [|[] fs]; cbn;
    eexists _, _; (split; [reflexivity|]); cbn; repeat split; eauto.
Qed.

End ListFacts.


Section ClearFacts.
Import TrackerData.

(** Against an empty index nothing is a duplicate, and the new URLs are
    the ones the tracker parses. *)
Lemma summarize_empty_index (data : VideoTrackingData)
    (urls : list string) :
  videos data = [] ->
  Tracker.duplicateUrls
    (Tracker.summarize urls (Tracker.check_url data <$> urls)) = Some []
  /\ Tracker.newUrls
       (Tracker.summarize urls (Tracker.check_url data <$> urls))
     = Some (filter (fun u => Props.parses u = true) urls).
Proof.
  intros Hdata. cbn. split; f_equal.
  - induction urls as [|u urls IH]; [reflexivity|].
    rewrite fmap_cons, filter_cons_False; [exact IH|].
    unfold Tracker.check_url. rewrite Hdata.
    destruct (Tracker.extractVideoId u); cbn; discriminate.
  - unfold Props.parses.
    induction urls as [|u urls IH]; [reflexivity|].
    rewrite fmap_cons.
    destruct (Tracker.extractVideoId u) as [id|e] eqn:Hid.
    + rewrite filter_cons_True
        by (unfold Tracker.check_url; rewrite Hid, Hdata; cbn; auto).
      rewrite (filter_cons_True _ u) by (now rewrite Hid).
      rewrite fmap_cons, check_url_url. f_equal. exact IH.
    + rewrite filter_cons_False
        by (unfold Tracker.check_url; rewrite Hid; cbn; now intros [_ ?]).
      rewrite (filter_cons_False _ u) by (now rewrite Hid). exact IH.
Qed.

End ClearFacts.


Section RejectFacts.

Lemma eqb_action (a b : string) :
  String.eqb a b = bool_decide (a = b).
Proof.
  destruct (String.eqb_spec a b); [now rewrite bool_decide_true
                                  | now rewrite bool_decide_false].
Qed.

End RejectFacts.


(* ===================================================================== *)
(** * Regular expressions: what a match says about the string *)
(* ===================================================================== *)

Section MatchFacts.

Lemma append_cons (c : ascii) (a b : string) :
  String c a +:+ b = String c (a +:+ b).
Proof. reflexivity. Qed.

Lemma append_nil (b : string) : EmptyString +:+ b = b.
Proof. reflexivity. Qed.

Lemma strip_prefix_Some (lit s r : string) :
  Js.strip_prefix lit s = Some r -> s = lit +:+ r.
Proof.
  revert s. induction lit as [|a lit IH]; intros s; cbn -[Ascii.eqb].
  - now intros [= ->].
  - destruct s as [|b s]; [discriminate|].
    destruct (Ascii.eqb_spec a b) as [->|]; [|discriminate].
    intros H. now rewrite (IH _ H).
Qed.

Lemma match_alternatives_inv (alts : list string) (cls : ascii -> bool)
    (q : Regex.Quantifier) (s g : string) :
  Regex.match_alternatives alts cls q s = Some g ->
  exists lit rest,
    lit ∈ alts /\ s = lit +:+ rest /\ Regex.group cls q rest = Some g.
Proof.
  induction alts as [|lit alts IH]; cbn [Regex.match_alternatives];
    [discriminate|].
  intros H.
  assert (Hnext : Regex.match_alternatives alts cls q s = Some g ->
                  exists lit0 rest,
                    lit0 ∈ lit :: alts /\ s = lit0 +:+ rest
                    /\ Regex.group cls q rest = Some g).
  { intros (l & r & Hl & Hs & Hg)%IH. exists l, r.
    split; [now apply list_elem_of_further | auto]. }
  destruct (Js.strip_prefix lit s) as [rest|] eqn:Hstrip; [|auto].
  destruct (Regex.group cls q rest) as [g'|] eqn:Hgroup; [|auto].
  injection H as ->. exists lit, rest.
  split; [apply list_elem_of_here|]. split; [now apply strip_prefix_Some|].
  assumption.
Qed.

Lemma match_alternatives_complete (alts : list string) (cls : ascii -> bool)
    (q : Regex.Quantifier) (lit rest g : string) :
  lit ∈ alts ->
  Regex.group cls q rest = Some g ->
  is_Some (Regex.match_alternatives alts cls q (lit +:+ rest)).
Proof.
  intros Hin Hg. induction alts as [|l alts IH];
    [now apply elem_of_nil in Hin|].
  cbn [Regex.match_alternatives].
  destruct (Js.strip_prefix l (lit +:+ rest)) as [r|] eqn:Hstrip.
  - destruct (Regex.group cls q r) as [g'|] eqn:Hgr; [eauto|].
    apply elem_of_cons in Hin as [->|Hin]; [|auto].
    rewrite strip_prefix_append in Hstrip. congruence.
  - apply elem_of_cons in Hin as [->|Hin]; [|auto].
    rewrite strip_prefix_append in Hstrip. discriminate.
Qed.

(** A match of [p] somewhere in [s] exhibits an alternative and the group
    behind it. *)
Lemma match1_inv (p : Regex.Pattern) (s g : string) :
  Regex.match1 p s = Some g ->
  exists origin lit rest,
    lit ∈ Regex.alternatives p
    /\ s = origin +:+ lit +:+ rest
    /\ Regex.group (Regex.class p) (Regex.quantifier p) rest = Some g.
Proof.
  induction s as [|c s IH]; cbn [Regex.match1]; unfold Regex.match_here.
  - destruct (Regex.match_alternatives _ _ _ _) as [g'|] eqn:Hm;
      [|discriminate].
    intros [= ->].
    apply match_alternatives_inv in Hm as (lit & rest & Hl & Hs & Hg).
    exists "", lit, rest. auto.
  - destruct (Regex.match_alternatives _ _ _ _) as [g'|] eqn:Hm.
    + intros [= ->].
      apply match_alternatives_inv in Hm as (lit & rest & Hl & Hs & Hg).
      exists "", lit, rest. auto.
    + intros (origin & lit & rest & Hl & -> & Hg)%IH.
      exists (String c origin), lit, rest. auto.
Qed.

Lemma match1_complete (p : Regex.Pattern) (origin lit rest g : string) :
  lit ∈ Regex.alternatives p ->
  Regex.group (Regex.class p) (Regex.quantifier p) rest = Some g ->
  is_Some (Regex.match1 p (origin +:+ lit +:+ rest)).
Proof.
  intros Hl Hg. induction origin as [|c origin IH].
  - destruct (match_alternatives_complete _ _ _ _ _ _ Hl Hg) as [g' Hg'].
    exists g'. now apply match1_here.
  - change (String c origin +:+ lit +:+ rest)
      with (String c (origin +:+ lit +:+ rest)).
    cbn [Regex.match1]. destruct (Regex.match_here _ _); eauto.
Qed.

(** The greedy run splits the string: the run is in the class and what
    follows does not start with a class character. *)
Lemma run_spec (cls : ascii -> bool) (s : string) :
  exists rest,
    s = Regex.run cls s +:+ rest
    /\ Spec.all_in cls (Regex.run cls s) = true
    /\ match rest with
       | EmptyString => True
       | String c _ => cls c = false
       end.
Proof.
  induction s as [|c s (rest & Hs & Hall & Hstop)]; cbn [Regex.run].
  - exists "". auto.
  - destruct (cls c) eqn:Hc.
    + exists rest. rewrite append_cons, <- Hs. cbn [Spec.all_in].
      rewrite Hc, Hall. auto.
    + exists (String c s). rewrite append_nil. auto.
Qed.

Lemma group_OneOrMore_inv (cls : ascii -> bool) (s g : string) :
  Regex.group cls Regex.OneOrMore s = Some g ->
  g <> EmptyString
  /\ Spec.all_in cls g = true
  /\ exists rest,
       s = g +:+ rest
       /\ match rest with
          | EmptyString => True
          | String c _ => cls c = false
          end.
Proof.
  unfold Regex.group. intros H.
  destruct (run_spec cls s) as (rest & Hs & Hall & Hstop).
  destruct (Regex.run cls s) as [|c r] eqn:Hrun; [discriminate|].
  injection H as <-. split; [discriminate|]. split; [assumption|].
  exists rest. auto.
Qed.

Lemma group_OneOrMore_head (cls : ascii -> bool) (c : ascii) (s : string) :
  cls c = true ->
  is_Some (Regex.group cls Regex.OneOrMore (String c s)).
Proof. intros Hc. unfold Regex.group. cbn. rewrite Hc. eauto. Qed.

Lemma group_OneOrMore_head_inv (cls : ascii -> bool) (s g : string) :
  Regex.group cls Regex.OneOrMore s = Some g ->
  exists c s', s = String c s' /\ cls c = true.
Proof.
  unfold Regex.group. destruct s as [|c s]; cbn; [discriminate|].
  destruct (cls c) eqn:Hc; [eauto | discriminate].
Qed.

Lemma exactly_inv (cls : ascii -> bool) (n : nat) (s g : string) :
  Regex.exactly cls n s = Some g ->
  String.length g = n
  /\ Spec.all_in cls g = true
  /\ exists rest, s = g +:+ rest.
Proof.
  revert s g. induction n as [|n IH]; intros s g; cbn [Regex.exactly].
  - intros [= <-]. repeat split. now exists s.
  - destruct s as [|c s]; [discriminate|].
    destruct (cls c) eqn:Hc; [|discriminate].
    destruct (Regex.exactly cls n s) as [g'|] eqn:Hg; [|discriminate].
    intros [= <-]. destruct (IH _ _ Hg) as (Hlen & Hall & rest & ->).
    cbn [String.length Spec.all_in]. rewrite Hc, Hall, Hlen.
    repeat split. now exists rest.
Qed.

Lemma exactly_token (cls : ascii -> bool) (g rest : string) :
  Spec.all_in cls g = true ->
  Regex.exactly cls (String.length g) (g +:+ rest) = Some g.
Proof.
  induction g as [|c g IH]; [reflexivity|].
  rewrite append_cons. cbn [Spec.all_in String.length Regex.exactly].
  intros [Hc Hg]%andb_true_iff. now rewrite Hc, IH.
Qed.

Lemma all_in_app (cls : ascii -> bool) (a b : string) :
  Spec.all_in cls (a +:+ b) = (Spec.all_in cls a && Spec.all_in cls b)%bool.
Proof.
  induction a as [|c a IH]; [reflexivity|].
  rewrite append_cons. cbn [Spec.all_in]. now rewrite IH, andb_assoc.
Qed.

Lemma all_in_impl (cls cls' : ascii -> bool) (s : string) :
  (forall c, cls c = true -> cls' c = true) ->
  Spec.all_in cls s = true -> Spec.all_in cls' s = true.
Proof.
  intros Himpl. induction s as [|c s IH]; cbn; [reflexivity|].
  intros [Hc Hs]%andb_true_iff. now rewrite (Himpl c Hc), IH.
Qed.

(** An identifier character is never one of the tracker's delimiters. *)
Lemma id_char_not_delimiter (c : ascii) :
  Regex.id_char c = true -> Regex.not_delimiter c = true.
Proof.
  destruct c as [[] [] [] [] [] [] [] []]; vm_compute;
    solve [reflexivity | discriminate].
Qed.

End MatchFacts.

Section ExtractFacts.

Lemma first_match_inv (ps : list Regex.Pattern) (url id : string) :
  Tracker.first_match ps url = Some id ->
  id <> EmptyString /\ exists p, p ∈ ps /\ Regex.match1 p url = Some id.
Proof.
  induction ps as [|p ps IH]; cbn [Tracker.first_match]; [discriminate|].
  intros H.
  assert (Hnext : Tracker.first_match ps url = Some id ->
                  id <> EmptyString
                  /\ exists p0, p0 ∈ p :: ps
                                /\ Regex.match1 p0 url = Some id).
  { intros [Hne (p0 & Hp & Hm)]%IH. split; [assumption|].
    exists p0. split; [now apply list_elem_of_further | assumption]. }
  destruct (Regex.match1 p url) as [[|c g]|] eqn:Hm; [auto | | auto].
  injection H as <-. split; [discriminate|].
  exists p. split; [apply list_elem_of_here | assumption].
Qed.

Lemma first_match_complete (ps : list Regex.Pattern) (p : Regex.Pattern)
    (url g : string) :
  p ∈ ps ->
  Regex.match1 p url = Some g ->
  g <> EmptyString ->
  is_Some (Tracker.first_match ps url).
Proof.
  intros Hp Hm Hne. induction ps as [|p0 ps IH];
    [now apply elem_of_nil in Hp|].
  cbn [Tracker.first_match].
  destruct (Regex.match1 p0 url) as [[|c g']|] eqn:Hm0; [| eauto |].
  - apply elem_of_cons in Hp as [->|Hp]; [congruence | auto].
  - apply elem_of_cons in Hp as [->|Hp]; [congruence | auto].
Qed.

Lemma tracker_pattern_inv (p : Regex.Pattern) :
  p ∈ Tracker.patterns ->
  Regex.class p = Regex.not_delimiter
  /\ Regex.quantifier p = Regex.OneOrMore
  /\ forall lit, lit ∈ Regex.alternatives p -> lit ∈ Props.tracker_prefixes.
Proof.
  unfold Tracker.patterns, Props.tracker_prefixes.
  rewrite !elem_of_cons, elem_of_nil.
  intros [->|[->|[]]]; cbn; repeat split; intros lit;
    rewrite !elem_of_cons, !elem_of_nil; tauto.
Qed.

Lemma tracker_prefix_pattern (lit : string) :
  lit ∈ Props.tracker_prefixes ->
  exists p, p ∈ Tracker.patterns
            /\ lit ∈ Regex.alternatives p
            /\ Regex.class p = Regex.not_delimiter
            /\ Regex.quantifier p = Regex.OneOrMore.
Proof.
  unfold Props.tracker_prefixes, Tracker.patterns.
  rewrite !elem_of_cons, elem_of_nil.
  intros [->|[->|[->|[->|[]]]]];
    [exists Tracker.watch_pattern | exists Tracker.watch_pattern
    |exists Tracker.watch_pattern | exists Tracker.v_pattern];
    cbn; rewrite !elem_of_cons; tauto.
Qed.

End ExtractFacts.

(** X7.  When [extractVideoId] returns an identifier, the URL holds one of
    the four literals [youtube.com/watch?v=], [youtu.be/],
    [youtube.com/embed/], [youtube.com/v/] directly followed by the
    identifier; the identifier is not empty, holds none of [&], [?], [#]
    or line feed, and is followed by the end of the URL or by one of
    those four characters. *)
Theorem extractVideoId_reads_a_delimited_token (url id : string) :
  Tracker.extractVideoId url = Ok id ->
  exists origin lit rest,
    lit ∈ Props.tracker_prefixes
    /\ url = origin +:+ lit +:+ id +:+ rest
    /\ id <> EmptyString
    /\ Spec.all_in Regex.not_delimiter id = true
    /\ Spec.delimited rest = true.
Proof.
  unfold Tracker.extractVideoId.
  destruct (Tracker.first_match _ url) as [id'|] eqn:Hfirst; [|discriminate].
  intros [= ->].
  apply first_match_inv in Hfirst as [Hne (p & Hp & Hm)].
  apply tracker_pattern_inv in Hp as (Hcls & Hq & Halts).
  apply match1_inv in Hm as (origin & lit & rest & Hl & -> & Hg).
  rewrite Hcls, Hq in Hg.
  apply group_OneOrMore_inv in Hg as (_ & Hall & rest' & -> & Hstop).
  exists origin, lit, rest'. repeat split; auto.
  destruct rest' as [|c r]; cbn; [reflexivity|]. now rewrite Hstop.
Qed.

(** X7 on a sample input. *)
Lemma extractVideoId_reads_a_delimited_token_witness :
  Tracker.extractVideoId "https://www.youtube.com/v/dQw4w9WgXcQ?version=3"
  = Ok "dQw4w9WgXcQ"
  /\ exists origin lit rest,
       lit ∈ Props.tracker_prefixes
       /\ "https://www.youtube.com/v/dQw4w9WgXcQ?version=3"
          = origin +:+ lit +:+ "dQw4w9WgXcQ" +:+ rest
       /\ "dQw4w9WgXcQ" <> EmptyString
       /\ Spec.all_in Regex.not_delimiter "dQw4w9WgXcQ" = true
       /\ Spec.delimited rest = true.
Proof.
  split; [reflexivity|].
  apply (extractVideoId_reads_a_delimited_token
           "https://www.youtube.com/v/dQw4w9WgXcQ?version=3" "dQw4w9WgXcQ").
  reflexivity.
Defined.

Section AcceptFacts.

(** A URL that holds one of the four literals followed by a character
    other than a delimiter is parsed. *)
Lemma prefixed_url_parses (origin lit rest : string) (c : ascii) :
  lit ∈ Props.tracker_prefixes ->
  Regex.not_delimiter c = true ->
  Props.parses (origin +:+ lit +:+ String c rest) = true.
Proof.
  intros Hl Hc. unfold Props.parses, Tracker.extractVideoId.
  apply tracker_prefix_pattern in Hl as (p & Hp & Hl & Hcls & Hq).
  destruct (group_OneOrMore_head Regex.not_delimiter c rest Hc)
    as [g Hg].
  destruct (match1_complete p origin lit (String c rest) g Hl) as [g' Hm];
    [now rewrite Hcls, Hq|].
  assert (Hne : g' <> EmptyString).
  { apply match1_inv in Hm as (? & ? & ? & _ & _ & Hg').
    rewrite Hcls, Hq in Hg'.
    now apply group_OneOrMore_inv in Hg' as [? _]. }
  destruct (first_match_complete _ p _ g' Hp Hm Hne) as [id ->].
  reflexivity.
Qed.

End AcceptFacts.

(** X8.  [extractVideoId] returns an identifier exactly for the URLs that
    hold one of its four literals followed by a character other than [&],
    [?], [#] and line feed; for every other URL it throws [Invalid
    YouTube URL format: <url>]. *)
Theorem extractVideoId_accepts_exactly_prefixed_urls (url : string) :
  (Props.parses url = true
   <-> exists origin lit c rest,
         lit ∈ Props.tracker_prefixes
         /\ Regex.not_delimiter c = true
         /\ url = origin +:+ lit +:+ String c rest)
  /\ (Props.parses url = false
      <-> Tracker.extractVideoId url
          = Throw ("Invalid YouTube URL format: " +:+ url)).
Proof.
  unfold Props.parses, Tracker.extractVideoId. split; split.
  - destruct (Tracker.first_match _ url) as [id|] eqn:Hfirst;
      [intros _ | discriminate].
    apply first_match_inv in Hfirst as [Hne (p & Hp & Hm)].
    apply tracker_pattern_inv in Hp as (Hcls & Hq & Halts).
    apply match1_inv in Hm as (origin & lit & rest & Hl & -> & Hg).
    rewrite Hcls, Hq in Hg.
    apply group_OneOrMore_head_inv in Hg as (c & s' & -> & Hc).
    exists origin, lit, c, s'. auto.
  - intros (origin & lit & c & rest & Hl & Hc & ->).
    change (Props.parses (origin +:+ lit +:+ String c rest) = true).
    now apply prefixed_url_parses.
  - destruct (Tracker.first_match _ url); [discriminate | reflexivity].
  - destruct (Tracker.first_match _ url); [discriminate | reflexivity].
Qed.

Section StrictPatternFacts.

Lemma append_assoc (a b c : string) : (a +:+ b) +:+ c = a +:+ b +:+ c.
Proof.
  induction a as [|x a IH]; [reflexivity|].
  rewrite !append_cons. now f_equal.
Qed.

Lemma id_pattern_needs_y (c : ascii) (s : string) :
  Ascii.eqb c "y" = false ->
  Regex.match_here Scraper.id_pattern (String c s) = None.
Proof.
  intros Hc. rewrite Ascii.eqb_sym in Hc.
  unfold Regex.match_here, Scraper.id_pattern.
  cbn [Regex.alternatives Regex.class Regex.quantifier
       Regex.match_alternatives].
  now rewrite !strip_prefix_mismatch by assumption.
Qed.

Lemma id_pattern_skip_origin (origin s : string) :
  Spec.free_of "y" origin = true ->
  Regex.match1 Scraper.id_pattern (origin +:+ s)
  = Regex.match1 Scraper.id_pattern s.
Proof.
  induction origin as [|c origin IH]; intros Hfree; [reflexivity|].
  cbn [Spec.free_of] in Hfree. apply andb_true_iff in Hfree as [Hc Hfree].
  apply negb_true_iff in Hc.
  rewrite append_cons.
  cbn [Regex.match1]. rewrite id_pattern_needs_y by assumption.
  now apply IH.
Qed.

(** The strict pattern keeps the first 11 identifier characters behind
    either literal, whatever follows them. *)
Lemma id_pattern_token (lit id rest : string) :
  lit ∈ Props.scraper_prefixes ->
  String.length id = 11 ->
  Spec.all_in Regex.id_char id = true ->
  Regex.match1 Scraper.id_pattern (lit +:+ id +:+ rest) = Some id.
Proof.
  intros Hlit Hlen Hid. apply match1_here.
  unfold Regex.match_here, Scraper.id_pattern.
  cbn [Regex.alternatives Regex.class Regex.quantifier
       Regex.match_alternatives Regex.group].
  unfold Props.scraper_prefixes in Hlit.
  rewrite !elem_of_cons, elem_of_nil in Hlit.
  destruct Hlit as [->|[->|[]]].
  - rewrite strip_prefix_append, <- Hlen. now rewrite exactly_token.
  - replace (Js.strip_prefix "youtube.com/watch?v="
               ("youtu.be/" +:+ id +:+ rest))
      with (@None string) by reflexivity.
    rewrite strip_prefix_append, <- Hlen. now rewrite exactly_token.
Qed.

Lemma watch_pattern_token (lit id rest : string) :
  lit ∈ Props.scraper_prefixes ->
  id <> EmptyString ->
  Spec.all_in Regex.not_delimiter id = true ->
  Spec.delimited rest = true ->
  Regex.match1 Tracker.watch_pattern (lit +:+ id +:+ rest) = Some id.
Proof.
  unfold Props.scraper_prefixes. rewrite !elem_of_cons, elem_of_nil.
  intros [->|[->|[]]];
    [apply watch_pattern_long | apply watch_pattern_short].
Qed.

Lemma strict_id_parses (u id : string) :
  Scraper.url_videoId u = Some id -> Props.parses u = true.
Proof.
  unfold Scraper.url_videoId. intros Hm.
  apply match1_inv in Hm as (origin & lit & rest & Hl & -> & Hg).
  cbn [Scraper.id_pattern Regex.class Regex.quantifier Regex.alternatives
       Regex.group] in Hl, Hg.
  apply exactly_inv in Hg as (Hlen & Hall & rest' & ->).
  destruct id as [|c id]; [discriminate|].
  cbn [Spec.all_in] in Hall. apply andb_true_iff in Hall as [Hc _].
  rewrite append_cons.
  apply prefixed_url_parses; [|now apply id_char_not_delimiter].
  revert Hl. unfold Props.tracker_prefixes.
  rewrite !elem_of_cons, !elem_of_nil. tauto.
Qed.

End StrictPatternFacts.

(** X9.  When the pattern of the coordinator and the harvester
    ([youtube.com/watch?v=] or [youtu.be/], then 11 characters of
    [[a-zA-Z0-9_-]]) reads an identifier from a URL, the identifier has
    exactly 11 characters of that class and stands in the URL directly
    behind one of the two literals; and the tracker parses that URL
    too. *)
Theorem strict_identifier_has_eleven_characters (u id : string) :
  Scraper.url_videoId u = Some id ->
  String.length id = 11
  /\ Spec.all_in Regex.id_char id = true
  /\ (exists origin lit rest,
        lit ∈ Props.scraper_prefixes /\ u = origin +:+ lit +:+ id +:+ rest)
  /\ Props.parses u = true.
Proof.
  intros Hid. split; [|split; [|split]].
  - apply match1_inv in Hid as (_ & _ & rest & _ & _ & Hg).
    now apply exactly_inv in Hg as (Hlen & _).
  - apply match1_inv in Hid as (_ & _ & rest & _ & _ & Hg).
    now apply exactly_inv in Hg as (_ & Hall & _).
  - apply match1_inv in Hid as (origin & lit & rest & Hl & -> & Hg).
    apply exactly_inv in Hg as (_ & _ & rest' & ->).
    exists origin, lit, rest'. split; [exact Hl | reflexivity].
  - eapply strict_id_parses, Hid.
Qed.

(** X9 on a sample input. *)
Lemma strict_identifier_has_eleven_characters_witness :
  Scraper.url_videoId "https://youtu.be/dQw4w9WgXcQ-and-more"
  = Some "dQw4w9WgXcQ"
  /\ String.length "dQw4w9WgXcQ" = 11
  /\ Spec.all_in Regex.id_char "dQw4w9WgXcQ" = true
  /\ (exists origin lit rest,
        lit ∈ Props.scraper_prefixes
        /\ "https://youtu.be/dQw4w9WgXcQ-and-more"
           = origin +:+ lit +:+ "dQw4w9WgXcQ" +:+ rest)
  /\ Props.parses "https://youtu.be/dQw4w9WgXcQ-and-more" = true.
Proof.
  split; [reflexivity|].
  apply (strict_identifier_has_eleven_characters
           "https://youtu.be/dQw4w9WgXcQ-and-more" "dQw4w9WgXcQ").
  reflexivity.
Defined.

Section AgreementFacts.

Lemma token_url_ids (origin lit id more rest : string) :
  Spec.free_of "y" origin = true ->
  lit ∈ Props.scraper_prefixes ->
  String.length id = 11 ->
  Spec.all_in Regex.id_char id = true ->
  Spec.all_in Regex.not_delimiter more = true ->
  Spec.delimited rest = true ->
  Scraper.url_videoId (Props.token_url origin lit id more rest) = Some id
  /\ Tracker.extractVideoId (Props.token_url origin lit id more rest)
     = Ok (id +:+ more).
Proof.
  intros Ho Hl Hlen Hid Hmore Hrest. unfold Props.token_url. split.
  - unfold Scraper.url_videoId.
    rewrite id_pattern_skip_origin by assumption.
    now apply id_pattern_token.
  - unfold Tracker.extractVideoId.
    cbn [Tracker.patterns Tracker.first_match].
    rewrite match1_skip_origin by assumption.
    rewrite <- (append_assoc id more rest).
    rewrite watch_pattern_token; try assumption.
    + destruct id; [discriminate | reflexivity].
    + destruct id; [discriminate | rewrite append_cons; discriminate].
    + rewrite all_in_app, Hmore, andb_true_r.
      eapply all_in_impl; [apply id_char_not_delimiter | assumption].
Qed.

End AgreementFacts.

(** X10.  On a URL [<origin><literal><id><more><rest>] (an origin without the
    letter [y], one of the two literals of the strict pattern, an [id] of
    11 identifier characters, [more] without delimiter, a delimited
    [rest]) the harvester reads [id] and the tracker reads [id] followed
    by [more]: the two agree exactly when nothing follows the eleventh
    character before the next delimiter. *)
Theorem harvester_and_tracker_identifiers
    (origin lit id more rest : string) :
  Spec.free_of "y" origin = true ->
  lit ∈ Props.scraper_prefixes ->
  String.length id = 11 ->
  Spec.all_in Regex.id_char id = true ->
  Spec.all_in Regex.not_delimiter more = true ->
  Spec.delimited rest = true ->
  Scraper.url_videoId (Props.token_url origin lit id more rest) = Some id
  /\ Tracker.extractVideoId (Props.token_url origin lit id more rest)
     = Ok (id +:+ more)
  /\ (Tracker.extractVideoId (Props.token_url origin lit id more rest)
      = Ok id <-> more = EmptyString).
Proof.
  intros Ho Hl Hlen Hid Hmore Hrest.
  destruct (token_url_ids origin lit id more rest) as [Hs Ht];
    try assumption.
  split; [assumption|]. split; [assumption|]. rewrite Ht. split.
  - intros [= Heq]. destruct more as [|c more]; [reflexivity|].
    exfalso. apply (f_equal String.length) in Heq.
    rewrite append_length in Heq. unfold Js.length in Heq.
    cbn [String.length] in Heq. lia.
  - intros ->. f_equal. clear. induction id as [|c id IH];
      [reflexivity | rewrite append_cons; now f_equal].
Qed.

(** X10 on a sample input. *)
Lemma harvester_and_tracker_identifiers_witness :
  Scraper.url_videoId
    (Props.token_url "https://" "youtu.be/" "dQw4w9WgXcQ" "/" "?t=42")
  = Some "dQw4w9WgXcQ"
  /\ Tracker.extractVideoId
       (Props.token_url "https://" "youtu.be/" "dQw4w9WgXcQ" "/" "?t=42")
     = Ok ("dQw4w9WgXcQ" +:+ "/")
  /\ (Tracker.extractVideoId
        (Props.token_url "https://" "youtu.be/" "dQw4w9WgXcQ" "/" "?t=42")
      = Ok "dQw4w9WgXcQ" <-> "/" = EmptyString).
Proof.
  apply (harvester_and_tracker_identifiers
           "https://" "youtu.be/" "dQw4w9WgXcQ" "/" "?t=42");
    try reflexivity.
  apply list_elem_of_further, list_elem_of_here.
Defined.

(* ===================================================================== *)
(** * The coordinator: which URLs a run scrapes *)

(* ===================================================================== *)

Section ScheduleFacts.
Import TrackerData.

Lemma filter_ext_in {A} (P Q : A -> Prop) `{!forall x, Decision (P x)}
    `{!forall x, Decision (Q x)} (l : list A) :
  (forall x, x ∈ l -> P x <-> Q x) -> filter P l = filter Q l.
Proof.
  induction l as [|x l IH]; intros Hext; [reflexivity|].
  rewrite !filter_cons.
  assert (Hx : P x <-> Q x) by (apply Hext, list_elem_of_here).
  rewrite IH by (intros y Hy; apply Hext; now apply list_elem_of_further).
  repeat case_decide; tauto.
Qed.

(** The URLs of the results a predicate keeps are the URLs whose result
    the predicate keeps. *)
Lemma filter_check_urls (data : VideoTrackingData)
    (P : Tracker.CheckResult -> Prop) `{!forall r, Decision (P r)}
    (urls : list string) :
  Tracker.r_url <$> filter P (Tracker.check_url data <$> urls)
  = filter (fun u => P (Tracker.check_url data u)) urls.
Proof.
  induction urls as [|u urls IH]; [reflexivity|].
  rewrite fmap_cons, !filter_cons. case_decide.
  - now rewrite fmap_cons, check_url_url, IH.
  - exact IH.
Qed.

Lemma summarize_buckets (w : World) (data : VideoTrackingData)
    (urls : list string) :
  videos data = Spec.index w ->
  default [] (Tracker.newUrls
                (Tracker.summarize urls (Tracker.check_url data <$> urls)))
  = filter (fun u => Props.tracker_new w u) urls
  /\ default [] (Tracker.duplicateUrls
                   (Tracker.summarize urls
                      (Tracker.check_url data <$> urls)))
     = filter (fun u => Props.tracker_duplicate w u) urls.
Proof.
  intros Hdata. cbn [Tracker.summarize Tracker.newUrls Tracker.duplicateUrls
                     default].
  rewrite !filter_check_urls. split; apply list_filter_iff; intros u.
  - rewrite check_url_new_iff, Hdata. unfold Props.tracker_new.
    destruct (Tracker.extractVideoId u) as [id|e].
    + rewrite bool_decide_spec. split; [now intros (? & [= <-] & ?) | eauto].
    + split; [now intros (? & [=] & _) | intros []].
  - rewrite check_url_exists_iff, Hdata. unfold Props.tracker_duplicate.
    destruct (Tracker.extractVideoId u) as [id|e].
    + rewrite bool_decide_spec. split; [now intros (? & [= <-] & ?) | eauto].
    + split; [now intros (? & [=] & _) | intros []].
Qed.

(** The re-add filter, read against table [videos]. *)
Lemma videosToReAdd_spec (w : World) (dups : list string) :
  filter (fun u =>
            Scraper.missing_from_db
              (list_to_set
                 (filter (fun row => row ∈ omap Scraper.url_videoId dups)
                    (videos_table w))) u) dups
  = filter (fun u => Props.missing_from_storage w u) dups.
Proof.
  apply filter_ext_in. intros u Hu.
  unfold Scraper.missing_from_db, Props.missing_from_storage.
  destruct (Scraper.url_videoId u) as [id|] eqn:Hid; [|reflexivity].
  rewrite !bool_decide_spec, elem_of_list_to_set, list_elem_of_filter.
  assert (Hin : id ∈ omap Scraper.url_videoId dups)
    by (apply list_elem_of_omap; eauto).
  tauto.
Qed.

(** [reconcile] in closed form. *)
Lemma reconcile_exact (new dups : list string) (w : World) :
  exists w',
    Scraper.reconcile new dups w
    = (Ok (new ++ if Spec.database_answers w
                  then filter (fun u => Props.missing_from_storage w u) dups
                  else []), w')
    /\ tracking_file w' = tracking_file w
    /\ fs_faults w' = fs_faults w
    /\ videos_table w' = videos_table w
    /\ workflow_runs w' = workflow_runs w
    /\ clock w' = clock w
    /\ trace w'
       = trace w ++ (if Spec.database_answers w then []
                     else match dups with
                          | [] => []
                          | _ => [DatabaseCheckFailed]
                          end).
Proof.
  unfold Scraper.reconcile.
  destruct dups as [|d dups].
  { cbn. destruct (Spec.database_answers w);
      eexists; rewrite !app_nil_r; repeat split; reflexivity. }
  cbn [length Nat.ltb Nat.leb].
  unfold try_catch, bind at 1, Scraper.select_videoIds, bind at 1,
    db_statement, Spec.database_answers.
  pose proof (videosToReAdd_spec w (d :: dups)) as Hre.
  destruct (db_faults w) as [|[] fs] eqn:Hf; cbn [hd negb];
    cbn [videos_table set_db_faults].
  2: { eexists. rewrite app_nil_r. repeat split; reflexivity. }
  all: rewrite Hre;
       destruct (filter (fun u => Props.missing_from_storage w u) (d :: dups))
         as [|x l]; cbn [length Nat.ltb Nat.leb ret];
       eexists; rewrite ?app_nil_r; repeat split; reflexivity.
Qed.

Lemma filter_andb {A} (p q : A -> bool) (l : list A) :
  filter (fun x => q x) (filter (fun x => p x) l)
  = filter (fun x => p x && q x) l.
Proof.
  rewrite list_filter_filter. apply list_filter_iff. intros x.
  rewrite andb_True. tauto.
Qed.

(** Steps 1 and 2 in closed form. *)
Lemma finalVideosToScrape_exact (videoUrls : list string) (w : World) :
  exists r w',
    Scraper.finalVideosToScrape videoUrls w = (r, w')
    /\ Spec.index w' = Spec.index w
    /\ videos_table w' = videos_table w
    /\ workflow_runs w' = workflow_runs w
    /\ Props.scrapes (trace w') = Props.scrapes (trace w)
    /\ Props.scrape_failures (trace w') = Props.scrape_failures (trace w)
    /\ fs_faults w' = match tracking_file w with
                      | Some _ => fs_faults w
                      | None => tl (fs_faults w)
                      end
    /\ if Spec.index_available w
       then r = Ok (Props.scheduled w videoUrls)
            /\ is_Some (tracking_file w')
       else r = Throw "Duplicate check failed: Error: file system error"
            /\ tracking_file w' = None.
Proof.
  destruct (execute_check videoUrls w)
    as (resp & w1 & Hrun & Hidx & Htab & Hruns & Hf & _ & Htr & Hfs & Hcase).
  unfold Scraper.finalVideosToScrape.
  change {| Tracker.action := "check"; Tracker.videoUrls := Some videoUrls;
            Tracker.videoData := None; Tracker.limit := None |}
    with (Spec.check_context videoUrls).
  unfold bind at 1. rewrite Hrun.
  destruct (Spec.index_available w).
  2: { destruct Hcase as [-> Hfile].
       eexists _, w1. split; [reflexivity|].
       unfold Props.scrapes, Props.scrape_failures. rewrite Htr.
       repeat split; assumption. }
  destruct Hcase as (data & Hfile & Hdata & ->).
  cbn [Tracker.success negb Tracker.summary].
  destruct (summarize_buckets w data videoUrls Hdata) as [Hnew Hdup].
  rewrite Hnew, Hdup.
  destruct (reconcile_exact
              (filter (fun u => Props.tracker_new w u) videoUrls)
              (filter (fun u => Props.tracker_duplicate w u) videoUrls) w1)
    as (w' & Hrec & Hfile' & Hfs' & Htab' & Hruns' & _ & Htr').
  eexists _, w'. split; [exact Hrec|].
  assert (Hans : Spec.database_answers w1 = Spec.database_answers w)
    by (unfold Spec.database_answers; now rewrite Hf).
  assert (Hmiss : forall u, Props.missing_from_storage w1 u
                            = Props.missing_from_storage w u)
    by (intros u; unfold Props.missing_from_storage; now rewrite Htab).
  split; [|split; [|split; [|split; [|split; [|split; [|split]]]]]].
  - unfold Spec.index in *. now rewrite Hfile'.
  - congruence.
  - congruence.
  - rewrite Htr', Htr. unfold Props.scrapes. rewrite omap_app.
    destruct (Spec.database_answers w1);
      [|destruct (filter (fun u => Props.tracker_duplicate w u) videoUrls)];
      cbn [omap]; rewrite ?app_nil_r; reflexivity.
  - rewrite Htr', Htr. unfold Props.scrape_failures. rewrite omap_app.
    destruct (Spec.database_answers w1);
      [|destruct (filter (fun u => Props.tracker_duplicate w u) videoUrls)];
      cbn [omap]; rewrite ?app_nil_r; reflexivity.
  - congruence.
  - f_equal. unfold Props.scheduled. rewrite Hans.
    destruct (Spec.database_answers w); [|reflexivity].
    rewrite filter_andb.
    rewrite (list_filter_iff
               (fun u => Props.tracker_duplicate w u
                         && Props.missing_from_storage w1 u)
               (fun u => Props.tracker_duplicate w u
                         && Props.missing_from_storage w u));
      [reflexivity|].
    intros u. now rewrite Hmiss.
  - rewrite Hfile', Hfile. eauto.
Qed.

End ScheduleFacts.


(* ===================================================================== *)
(** * The monad: running a step whose outcome is known *)
(* ===================================================================== *)

Section MonadFacts.

Lemma bind_Ok {A B} (m : M A) (k : A -> M B) (w w1 : World) (a : A) :
  m w = (Ok a, w1) -> bind m k w = k a w1.
Proof. intros H. unfold bind. now rewrite H. Qed.

Lemma bind_Throw {A B} (m : M A) (k : A -> M B) (w w1 : World)
    (e : Error) :
  m w = (Throw e, w1) -> bind m k w = (Throw e, w1).
Proof. intros H. unfold bind. now rewrite H. Qed.

Lemma try_catch_Ok {A} (m : M A) (h : Error -> M A) (w w1 : World)
    (a : A) :
  m w = (Ok a, w1) -> try_catch m h w = (Ok a, w1).
Proof. intros H. unfold try_catch. now rewrite H. Qed.

Lemma try_catch_Throw {A} (m : M A) (h : Error -> M A) (w w1 : World)
    (e : Error) :
  m w = (Throw e, w1) -> try_catch m h w = h e w1.
Proof. intros H. unfold try_catch. now rewrite H. Qed.

Lemma logged_refl (w : World) : Props.logged w w [] 0.
Proof. unfold Props.logged. now rewrite app_nil_r. Qed.

Lemma logged_trans (w w1 w2 : World) (evs1 evs2 : list Event)
    (n1 n2 : nat) :
  Props.logged w w1 evs1 n1 ->
  Props.logged w1 w2 evs2 n2 ->
  Props.logged w w2 (evs1 ++ evs2) (n2 + n1).
Proof.
  unfold Props.logged.
  intros (Hf1 & Hs1 & Ht1 & Hr1 & Hd1 & Hx1 & Hc1 & He1)
         (Hf2 & Hs2 & Ht2 & Hr2 & Hd2 & Hx2 & Hc2 & He2).
  rewrite Hf2, Hs2, Ht2, Hr2, Hd2, Hx2, Hc2, He2,
    Hf1, Hs1, Ht1, Hr1, Hd1, Hx1, Hc1, He1.
  rewrite app_assoc. repeat split; lia.
Qed.

Lemma log_logged (e : Event) (w : World) :
  exists w', log e w = (Ok tt, w') /\ Props.logged w w' [e] 0.
Proof. eexists. split; [reflexivity|]. repeat split. Qed.

Lemma now_logged (w : World) :
  exists w', now w = (Ok (clock w), w') /\ Props.logged w w' [] 1.
Proof.
  eexists. split; [reflexivity|]. unfold Props.logged. cbn.
  now rewrite app_nil_r.
Qed.

End MonadFacts.

(* ===================================================================== *)
(** * The download strategy and the harvester *)
(* ===================================================================== *)

Section HarvestFacts.

(** Strategy 3: the outcome, and what it leaves in the trace. *)
Lemma download_logged (env : Scraper.Env) (videoUrl : string) (w : World) :
  exists evs w',
    Scraper.getYouTubeTranscriptViaDownload env videoUrl w
    = (Ok match Scraper.videoDownloader env videoUrl with
          | Throw _ => EmptyString
          | Ok downloadResult =>
              match Scraper.audioTranscriber env
                      (Scraper.audioPath downloadResult) with
              | Throw _ => EmptyString
              | Ok transcriptionResult => Scraper.text transcriptionResult
              end
          end, w')
    /\ Props.logged w w' evs 0
    /\ evs = StrategyStarted DownloadAndTranscribe videoUrl
             :: match Scraper.videoDownloader env videoUrl with
                | Throw _ => []
                | Ok downloadResult =>
                    CleanupCalled (Scraper.audioPath downloadResult)
                    :: match Scraper.cleanup downloadResult with
                       | Ok _ => []
                       | Throw _ =>
                           [CleanupWarning
                              (Scraper.audioPath downloadResult)]
                       end
                end.
Proof.
  unfold Scraper.getYouTubeTranscriptViaDownload, Props.logged.
  unfold try_catch, bind, ret, log, Scraper.call.
  destruct (Scraper.videoDownloader env videoUrl) as [d|e].
  - destruct (Scraper.cleanup d);
      destruct (Scraper.audioTranscriber env (Scraper.audioPath d));
      eexists _, _; (split; [reflexivity|]); cbn;
      rewrite <- ?app_assoc; repeat split; reflexivity.
  - eexists _, _; (split; [reflexivity|]); cbn; repeat split; reflexivity.
Qed.

(** The harvester returns a record exactly when the URL matches the
    strict pattern and every page step succeeds; the record carries the
    URL and the identifier the pattern reads, and the browser is closed
    only on that path. *)
Lemma harvest_logged (env : Scraper.Env) (u : string) (w : World) :
  exists evs ticks w',
    Props.logged w w' evs ticks
    /\ Props.scrapes evs = []
    /\ Props.scrape_failures evs = []
    /\ if Props.harvestable env u
       then exists v,
              Scraper.getYouTubeVideoData env u w = (Ok v, w')
              /\ Scraper.url v = u
              /\ Scraper.url_videoId u = Some (Scraper.videoId v)
              /\ Props.browser_closes evs = [u]
       else exists e,
              Scraper.getYouTubeVideoData env u w = (Throw e, w')
              /\ Props.browser_closes evs = [].
Proof.
  unfold Props.harvestable, Scraper.getYouTubeVideoData, Scraper.url_videoId.
  destruct (Regex.match1 Scraper.id_pattern u) as [id|].
  2: { exists [], 0, w. split; [apply logged_refl|].
       repeat split. eexists. split; reflexivity. }
  destruct (download_logged env u w) as (evs & w1 & Hrun & Hlog & Hevs).
  rewrite (bind_Ok _ _ _ _ _ Hrun).
  assert (Hs : Props.scrapes evs = [] /\ Props.scrape_failures evs = []
               /\ Props.browser_closes evs = []).
  { rewrite Hevs. destruct (Scraper.videoDownloader env u) as [d|];
      [destruct (Scraper.cleanup d)|]; repeat split. }
  destruct Hs as (Hs1 & Hs2 & Hs3).
  unfold bind, Scraper.call, log, now, ret.
  destruct (Scraper.puppeteer_open env u);
    [|exists evs, 0, w1; repeat split; try apply Hlog; eauto].
  destruct (Scraper.page_metadata env u);
    [|exists evs, 0, w1; repeat split; try apply Hlog; eauto].
  destruct (Scraper.commentElements env u);
    [|exists evs, 0, w1; repeat split; try apply Hlog; eauto].
  eexists (evs ++ [BrowserClosed u]), 1, _.
  split; [|split; [|split]].
  2: { unfold Props.scrapes in *. now rewrite omap_app, Hs1. }
  2: { unfold Props.scrape_failures in *. now rewrite omap_app, Hs2. }
  2: { eexists. split; [reflexivity|]. cbn. repeat split.
       unfold Props.browser_closes in *. now rewrite omap_app, Hs3. }
  destruct Hlog as (Hf & Hs & Ht & Hr & Hd & Hx & Hc & He).
  unfold Props.logged. cbn.
  rewrite Hf, Hs, Ht, Hr, Hd, Hx, Hc, He, <- app_assoc.
  repeat split.
Qed.

End HarvestFacts.

(* ===================================================================== *)
(** * The scraping loop *)
(* ===================================================================== *)

Section LoopFacts.

Lemma scrape_loop_cons (env : Scraper.Env) (u : string)
    (rest : list string) (videos : list Scraper.ScrapedVideo) (w : World) :
  Scraper.scrape_loop env (u :: rest) videos w
  = match Scraper.scrape_loop env [u] videos w with
    | (Ok vs, w1) => Scraper.scrape_loop env rest vs w1
    | (Throw e, w1) => (Throw e, w1)
    end.
Proof.
  cbn [Scraper.scrape_loop]. set (body := try_catch _ _).
  unfold bind, ret. destruct (body w) as [[vs|e] w1]; reflexivity.
Qed.

(** One turn of the loop: the URL is announced; a harvested record is
    pushed, and tracked under the identifier of the strict pattern
    unless a write of the tracking file is rejected; a failure of the
    harvest is logged and the loop goes on. *)
Lemma scrape_single (env : Scraper.Env) (u : string)
    (videos : list Scraper.ScrapedVideo) (w : World) :
  exists evs w',
    videos_table w' = videos_table w
    /\ workflow_runs w' = workflow_runs w
    /\ db_faults w' = db_faults w
    /\ trace w' = trace w ++ evs
    /\ Props.scrapes evs = [u]
    /\ (is_Some (tracking_file w) -> is_Some (tracking_file w'))
    /\ (fs_faults w = [] -> fs_faults w' = [])
    /\ if Props.harvestable env u
       then exists v r,
              Scraper.scrape_loop env [u] videos w = (Ok (videos ++ [v]), w')
              /\ Scraper.url v = u
              /\ Scraper.url_videoId u = Some (Scraper.videoId v)
              /\ TrackerData.videoId r = Scraper.videoId v
              /\ (Spec.index w' = Tracker.upsert r (Spec.index w)
                  \/ Spec.index w' = Spec.index w)
              /\ (fs_faults w = [] ->
                  Spec.index w' = Tracker.upsert r (Spec.index w))
              /\ Props.scrape_failures evs = []
              /\ Props.browser_closes evs = [u]
       else Scraper.scrape_loop env [u] videos w = (Ok videos, w')
            /\ Spec.index w' = Spec.index w
            /\ Props.scrape_failures evs = [u]
            /\ Props.browser_closes evs = [].
Proof.
  cbn [Scraper.scrape_loop].
  destruct (log_logged (ScrapingVideo u) w) as (w0 & Hlog0 & Hw0).
  destruct (harvest_logged env u w0)
    as (evs & ticks & w1 & Hw1 & Hs & Hf & Hcase).
  pose proof (logged_trans _ _ _ _ _ _ _ Hw0 Hw1) as Hw01.
  destruct (Props.harvestable env u).
  - destruct Hcase as (v & Hrun & Hurl & Hid & Hb).
    set (d := {| Tracker.d_videoId := Scraper.videoId v;
                 Tracker.d_url := Scraper.url v;
                 Tracker.d_title := Some (Scraper.title v);
                 Tracker.d_channelName := Some (Scraper.channelName v) |}).
    pose proof (execute_track_file d w1) as [Hkeep Hnofault].
    destruct (execute_track d w1)
      as (resp & w2 & Htrack & Ht2 & Hr2 & Hd2 & _ & He2 & _ & _ & Hidx).
    rewrite Htrack in Hkeep, Hnofault. cbn [snd] in Hkeep, Hnofault.
    exists (ScrapingVideo u :: evs), w2.
    destruct Hw01 as (Hf01 & Hs01 & Ht01 & Hr01 & Hd01 & _ & _ & He01).
    split; [congruence|]. split; [congruence|]. split; [congruence|].
    split; [now rewrite He2, He01|].
    split; [unfold Props.scrapes in *; cbn; now rewrite Hs|].
    split; [rewrite <- Hf01; exact Hkeep|].
    split; [rewrite <- Hs01; apply Hnofault|].
    assert (Hsame : Spec.index w1 = Spec.index w)
      by (unfold Spec.index; now rewrite Hf01).
    destruct (Spec.track_writes_succeed w1) eqn:Hok.
    + destruct Hidx as (t & _ & _ & _ & Hidx).
      exists v, {| TrackerData.videoId := Tracker.d_videoId d;
                   TrackerData.url := Tracker.d_url d;
                   TrackerData.title := Tracker.d_title d;
                   TrackerData.channelName := Tracker.d_channelName d;
                   TrackerData.scrapedAt := t;
                   TrackerData.isAnalyzed := false;
                   TrackerData.analysisFile := None |}.
      split.
      { erewrite bind_Ok; [reflexivity|].
        erewrite try_catch_Ok; [reflexivity|].
        erewrite bind_Ok; [|exact Hlog0].
        erewrite bind_Ok; [|exact Hrun].
        erewrite try_catch_Ok; [reflexivity|].
        erewrite bind_Ok; [reflexivity | exact Htrack]. }
      split; [assumption|]. split; [assumption|].
      split; [reflexivity|].
      rewrite Hidx, Hsame.
      split; [now left|]. split; [reflexivity|]. split.
      * unfold Props.scrape_failures in *. cbn. exact Hf.
      * unfold Props.browser_closes in *. cbn. exact Hb.
    + destruct Hidx as [_ Hidx].
      exists v, {| TrackerData.videoId := Scraper.videoId v;
                   TrackerData.url := Scraper.url v;
                   TrackerData.title := None;
                   TrackerData.channelName := None;
                   TrackerData.scrapedAt := 0;
                   TrackerData.isAnalyzed := false;
                   TrackerData.analysisFile := None |}.
      split.
      { erewrite bind_Ok; [reflexivity|].
        erewrite try_catch_Ok; [reflexivity|].
        erewrite bind_Ok; [|exact Hlog0].
        erewrite bind_Ok; [|exact Hrun].
        erewrite try_catch_Ok; [reflexivity|].
        erewrite bind_Ok; [reflexivity | exact Htrack]. }
      split; [assumption|]. split; [assumption|].
      split; [reflexivity|].
      rewrite Hidx, Hsame.
      split; [now right|]. split.
      { intros Hnil. rewrite <- Hs01 in Hnil.
        destruct (Hnofault Hnil) as [_ Habs]. discriminate. }
      split.
      * unfold Props.scrape_failures in *. cbn. exact Hf.
      * unfold Props.browser_closes in *. cbn. exact Hb.
  - destruct Hcase as (e & Hrun & Hb).
    destruct (log_logged (ScrapeFailed u) w1) as (w2 & Hlog2 & Hw2).
    pose proof (logged_trans _ _ _ _ _ _ _ Hw01 Hw2) as Hw.
    exists ((ScrapingVideo u :: evs) ++ [ScrapeFailed u]), w2.
    destruct Hw as (Hf02 & Hs02 & Ht02 & Hr02 & Hd02 & _ & _ & He02).
    split; [assumption|]. split; [assumption|]. split; [assumption|].
    split; [assumption|].
    split; [unfold Props.scrapes in *; rewrite omap_app; cbn;
            now rewrite Hs|].
    split; [now rewrite Hf02|]. split; [now rewrite Hs02|].
    split.
    + erewrite bind_Ok; [reflexivity|].
      erewrite try_catch_Throw.
      2: { erewrite bind_Ok; [|exact Hlog0].
           erewrite bind_Throw; [reflexivity | exact Hrun]. }
      erewrite bind_Ok; [reflexivity | exact Hlog2].
    + split; [unfold Spec.index; now rewrite Hf02|]. split.
      * unfold Props.scrape_failures in *. rewrite omap_app. cbn.
        now rewrite Hf.
      * unfold Props.browser_closes in *. rewrite omap_app. cbn.
        now rewrite Hb.
Qed.

(** The whole loop. *)
Lemma scrape_loop_spec (env : Scraper.Env) (urls : list string) :
  forall (videos : list Scraper.ScrapedVideo) (w : World),
  exists new w',
    Scraper.scrape_loop env urls videos w = (Ok (videos ++ new), w')
    /\ Scraper.url <$> new = filter (fun u => Props.harvestable env u) urls
    /\ Forall (fun v => Scraper.url_videoId (Scraper.url v)
                        = Some (Scraper.videoId v)) new
    /\ Props.scrapes (trace w') = Props.scrapes (trace w) ++ urls
    /\ Props.scrape_failures (trace w')
       = Props.scrape_failures (trace w)
         ++ filter (fun u => Props.harvestable env u = false) urls
    /\ Props.browser_closes (trace w')
       = Props.browser_closes (trace w)
         ++ filter (fun u => Props.harvestable env u) urls
    /\ videos_table w' = videos_table w
    /\ workflow_runs w' = workflow_runs w
    /\ db_faults w' = db_faults w
    /\ (is_Some (tracking_file w) -> is_Some (tracking_file w'))
    /\ (forall id, id ∈ Props.tracked_ids w'
                   -> id ∈ Props.tracked_ids w
                      \/ id ∈ Scraper.videoId <$> new)
    /\ (forall id, id ∈ Props.tracked_ids w -> id ∈ Props.tracked_ids w')
    /\ (fs_faults w = [] ->
        forall id, id ∈ Scraper.videoId <$> new -> id ∈ Props.tracked_ids w')
    /\ (Spec.unique_ids w -> Spec.unique_ids w').
Proof.
  induction urls as [|u urls IH]; intros videos w.
  { exists [], w. cbn. rewrite !app_nil_r.
    repeat split; auto; try constructor.
    intros _ id Hin. now apply elem_of_nil in Hin. }
  rewrite scrape_loop_cons.
  destruct (scrape_single env u videos w)
    as (evs & w1 & Ht1 & Hr1 & Hd1 & He1 & Hs1 & Hfile1 & Hfs1 & Hcase).
  rewrite !filter_cons.
  assert (Htr : forall (f : Event -> option string),
            omap f (trace w1) = omap f (trace w) ++ omap f evs)
    by (intros f; now rewrite He1, omap_app).
  destruct (Props.harvestable env u) eqn:Hh.
  - destruct Hcase
      as (v & r & -> & Hurl & Hid & Hrid & Hidx & Hidx0 & Hf1 & Hb1).
    destruct (IH (videos ++ [v]) w1)
      as (new & w' & -> & Hurls & Hids & Hs & Hf & Hb & Ht & Hr & Hd
          & Hfile & Hmem & Hmono & Hall & Huniq).
    exists (v :: new), w'.
    rewrite <- app_assoc. split; [reflexivity|].
    rewrite decide_True by exact I.
    rewrite decide_False by discriminate.
    split; [now rewrite fmap_cons, Hurl, Hurls|].
    split; [constructor; [now rewrite Hurl | assumption]|].
    unfold Props.scrapes, Props.scrape_failures, Props.browser_closes in *.
    rewrite Hs, Hf, Hb, !Htr, Hs1, Hf1, Hb1, <- !app_assoc, ?app_nil_r.
    assert (Hstep : forall id,
              id ∈ Props.tracked_ids w1 ->
              id ∈ Props.tracked_ids w \/ id = Scraper.videoId v).
    { intros id. unfold Props.tracked_ids.
      destruct Hidx as [-> | ->]; [|auto].
      rewrite upsert_ids. case_decide; [auto|].
      rewrite elem_of_app, list_elem_of_singleton, Hrid. auto. }
    assert (Hkeep : forall id,
              id ∈ Props.tracked_ids w -> id ∈ Props.tracked_ids w1).
    { intros id. unfold Props.tracked_ids.
      destruct Hidx as [-> | ->]; [|auto].
      rewrite upsert_ids. case_decide; [auto|].
      rewrite elem_of_app. auto. }
    split; [reflexivity|]. split; [reflexivity|]. split; [reflexivity|].
    split; [congruence|]. split; [congruence|]. split; [congruence|].
    split; [auto|].
    split; [|split; [|split]].
    + intros id Hin. rewrite fmap_cons, elem_of_cons.
      apply Hmem in Hin as [Hin|Hin]; [|auto].
      apply Hstep in Hin. tauto.
    + auto.
    + intros Hnil id. rewrite fmap_cons, elem_of_cons.
      intros [->|Hin]; [|now apply Hall; auto].
      apply Hmono. unfold Props.tracked_ids.
      rewrite (Hidx0 Hnil), <- Hrid. apply upsert_tracked.
    + intros Hu. apply Huniq. unfold Spec.unique_ids in *.
      destruct Hidx as [-> | ->]; [now apply upsert_NoDup | assumption].
  - destruct Hcase as (-> & Hidx & Hf1 & Hb1).
    destruct (IH videos w1)
      as (new & w' & -> & Hurls & Hids & Hs & Hf & Hb & Ht & Hr & Hd
          & Hfile & Hmem & Hmono & Hall & Huniq).
    exists new, w'. split; [reflexivity|].
    rewrite decide_False by (intros []).
    rewrite decide_True by reflexivity.
    split; [assumption|]. split; [assumption|].
    unfold Props.scrapes, Props.scrape_failures, Props.browser_closes in *.
    rewrite Hs, Hf, Hb, !Htr, Hs1, Hf1, Hb1, <- !app_assoc, ?app_nil_r.
    unfold Props.tracked_ids, Spec.unique_ids in *. rewrite Hidx in *.
    repeat split; try congruence; auto.
Qed.

(** [execute] of the coordinator: the schedule, then the loop. *)
Lemma scraper_execute_spec (env : Scraper.Env) (videoUrls : list string)
    (w : World) :
  exists r w',
    Scraper.execute env videoUrls w = (r, w')
    /\ videos_table w' = videos_table w
    /\ workflow_runs w' = workflow_runs w
    /\ (forall id, id ∈ Props.tracked_ids w -> id ∈ Props.tracked_ids w')
    /\ (Spec.unique_ids w -> Spec.unique_ids w')
    /\ if Spec.index_available w
       then exists videos,
              r = Ok videos
              /\ is_Some (tracking_file w')
              /\ Scraper.url <$> videos
                 = filter (fun u => Props.harvestable env u)
                     (Props.scheduled w videoUrls)
              /\ Forall (fun v => Scraper.url_videoId (Scraper.url v)
                                  = Some (Scraper.videoId v)) videos
              /\ Props.scrapes (trace w')
                 = Props.scrapes (trace w) ++ Props.scheduled w videoUrls
              /\ Props.scrape_failures (trace w')
                 = Props.scrape_failures (trace w)
                   ++ filter (fun u => Props.harvestable env u = false)
                        (Props.scheduled w videoUrls)
              /\ (forall id, id ∈ Props.tracked_ids w'
                             -> id ∈ Props.tracked_ids w
                                \/ id ∈ Scraper.videoId <$> videos)
              /\ (fs_faults w = [] ->
                  forall id, id ∈ Scraper.videoId <$> videos ->
                             id ∈ Props.tracked_ids w')
       else r = Throw "Duplicate check failed: Error: file system error"
            /\ Props.scrapes (trace w') = Props.scrapes (trace w)
            /\ Props.scrape_failures (trace w')
               = Props.scrape_failures (trace w).
Proof.
  destruct (finalVideosToScrape_exact videoUrls w)
    as (r & w1 & Hrun & Hidx & Ht & Hr & Hs & Hf & Hfs & Hcase).
  unfold Scraper.execute.
  destruct (Spec.index_available w) eqn:Havail.
  2: { destruct Hcase as [-> Hfile].
       rewrite (bind_Throw _ _ _ _ _ Hrun).
       eexists _, w1. split; [reflexivity|].
       unfold Props.tracked_ids, Spec.unique_ids. rewrite Hidx.
       repeat split; auto. }
  destruct Hcase as [-> Hfile]. rewrite (bind_Ok _ _ _ _ _ Hrun).
  destruct (scrape_loop_spec env (Props.scheduled w videoUrls) [] w1)
    as (new & w' & Hloop & Hurls & Hids & Hs' & Hf' & _ & Ht' & Hr' & _
        & Hfile' & Hmem & Hmono & Hall & Huniq).
  assert (Hfs1 : fs_faults w = [] -> fs_faults w1 = []).
  { intros Hnil. rewrite Hfs, Hnil. now destruct (tracking_file w). }
  unfold Props.tracked_ids, Spec.unique_ids in *. rewrite Hidx in *.
  destruct (Props.scheduled w videoUrls) as [|u l] eqn:Hsch.
  - cbn. exists (Ok []), w1. split; [reflexivity|]. rewrite Hidx.
    split; [assumption|]. split; [assumption|].
    split; [auto|]. split; [auto|].
    exists []. rewrite !app_nil_r.
    repeat split; auto.
    intros _ id Hin. now apply elem_of_nil in Hin.
  - cbn [length Nat.eqb]. exists (Ok new), w'.
    rewrite Hloop. split; [reflexivity|].
    split; [congruence|]. split; [congruence|].
    split; [assumption|]. split; [assumption|].
    exists new. rewrite Hs', Hf', Hs, Hf.
    repeat split; auto.
Qed.

End LoopFacts.


(** X13.  A run of the coordinator never removes an identifier from the
    index, and an index with one record per identifier stays so.  When
    the run returns, every returned record carries the identifier the
    strict pattern reads from its URL, 11 characters long, and the
    index holds no identifier other than those it held before and those
    of the records returned.  The coordinator does not look at the
    answer of the [track] call: a returned record is in the index when
    no write of the tracking file is rejected, and may be missing from
    it otherwise. *)
Theorem run_tracks_only_the_scraped_videos
    (env : Scraper.Env) (videoUrls : list string) (w : World) :
  exists r w',
    Scraper.execute env videoUrls w = (r, w')
    /\ (forall id, id ∈ Props.tracked_ids w -> id ∈ Props.tracked_ids w')
    /\ (Spec.unique_ids w -> Spec.unique_ids w')
    /\ forall videos,
         r = Ok videos ->
         (forall v, v ∈ videos ->
            Scraper.url_videoId (Scraper.url v) = Some (Scraper.videoId v)
            /\ String.length (Scraper.videoId v) = 11)
         /\ (forall id, id ∈ Props.tracked_ids w'
                        -> id ∈ Props.tracked_ids w
                           \/ id ∈ Scraper.videoId <$> videos)
         /\ (fs_faults w = [] ->
             forall v, v ∈ videos ->
                       Scraper.videoId v ∈ Props.tracked_ids w').
Proof.
  destruct (scraper_execute_spec env videoUrls w)
    as (r & w' & Hrun & _ & _ & Hmono & Huniq & Hcase).
  exists r, w'. split; [assumption|]. split; [assumption|].
  split; [assumption|].
  intros videos ->.
  destruct (Spec.index_available w); [|now destruct Hcase as [[=] _]].
  destruct Hcase as (videos' & [= <-] & _ & _ & Hids & _ & _ & Hmem & Hall).
  split; [|split; [assumption|]].
  - intros v Hv. rewrite Forall_forall in Hids.
    split; [now apply Hids|].
    apply Hids in Hv.
    apply match1_inv in Hv as (_ & _ & rest & _ & _ & Hg).
    now apply exactly_inv in Hg as (Hlen & _).
  - intros Hnil v Hv. apply (Hall Hnil). now apply list_elem_of_fmap_2.
Qed.

(** X14.  A URL from which the tracker reads an identifier that is not 11
    characters long, and not yet in the index, is never remembered: the
    harvester tracks records under 11-character identifiers only, so
    after any run, returned or thrown, the tracker still does not hold
    the URL's identifier; and after a run that returned, every later
    request that names the URL schedules it again.  The run returns when
    the tracker can read or create its file. *)
Theorem url_with_long_token_is_scraped_again
    (env : Scraper.Env) (videoUrls : list string) (w : World)
    (u id : string) :
  Tracker.extractVideoId u = Ok id ->
  String.length id <> 11 ->
  id ∉ Props.tracked_ids w ->
  exists r w',
    Scraper.execute env videoUrls w = (r, w')
    /\ (Spec.index_available w = true -> exists videos, r = Ok videos)
    /\ (id ∉ Props.tracked_ids w')
    /\ forall videos,
         r = Ok videos ->
         forall videoUrls', u ∈ videoUrls' ->
           exists final w'',
             Scraper.finalVideosToScrape videoUrls' w' = (Ok final, w'')
             /\ u ∈ final.
Proof.
  intros Hid Hlen Hnew.
  destruct (scraper_execute_spec env videoUrls w)
    as (r & w' & Hrun & _ & _ & _ & _ & Hcase).
  exists r, w'. split; [assumption|].
  destruct (Spec.index_available w).
  2: { destruct Hcase as (-> & _). split; [discriminate|]. split.
       - revert Hrun. unfold Scraper.execute.
         destruct (finalVideosToScrape_exact videoUrls w)
           as (r & w1 & Hfin & Hidx & _).
         unfold bind. rewrite Hfin.
         destruct r as [final|e].
         + destruct (Nat.eqb (length final) 0); [discriminate|].
           destruct (scrape_loop_spec env final [] w1)
             as (new & w2 & -> & _). discriminate.
         + intros [= _ <-]. unfold Props.tracked_ids. now rewrite Hidx.
       - discriminate. }
  destruct Hcase as (videos & -> & Hfile & _ & Hids & _ & _ & Hmem & _).
  split; [eauto|].
  assert (Hnew' : id ∉ Props.tracked_ids w').
  { intros [Hin|Hin]%Hmem; [contradiction|].
    apply list_elem_of_fmap in Hin as (v & -> & Hv).
    rewrite Forall_forall in Hids. apply Hids in Hv.
    apply match1_inv in Hv as (_ & _ & rest & _ & _ & Hg).
    apply exactly_inv in Hg as (Hlen' & _). contradiction. }
  split; [assumption|].
  intros videos' _ videoUrls' Hu.
  destruct (finalVideosToScrape_exact videoUrls' w')
    as (r & w'' & Hfinal & _ & _ & _ & _ & _ & _ & Hcase).
  assert (Havail : Spec.index_available w' = true).
  { unfold Spec.index_available. now destruct Hfile as [file ->]. }
  rewrite Havail in Hcase. destruct Hcase as [-> _].
  exists (Props.scheduled w' videoUrls'), w''. split; [assumption|].
  unfold Props.scheduled. apply elem_of_app. left.
  apply list_elem_of_filter. split; [|assumption].
  unfold Props.tracker_new. rewrite Hid. now apply bool_decide_spec.
Qed.

(** X14 on a sample input. *)
Lemma url_with_long_token_is_scraped_again_witness :
  Tracker.extractVideoId "https://youtu.be/dQw4w9WgXcQ/" = Ok "dQw4w9WgXcQ/"
  /\ exists videos w',
       Scraper.execute Examples.fallback_env
         ["https://youtu.be/dQw4w9WgXcQ/"] Examples.fresh_world
       = (Ok videos, w')
       /\ ("dQw4w9WgXcQ/" ∉ Props.tracked_ids w')
       /\ forall videoUrls', "https://youtu.be/dQw4w9WgXcQ/" ∈ videoUrls' ->
            exists final w'',
              Scraper.finalVideosToScrape videoUrls' w' = (Ok final, w'')
              /\ "https://youtu.be/dQw4w9WgXcQ/" ∈ final.
Proof.
  split; [reflexivity|].
  destruct (url_with_long_token_is_scraped_again Examples.fallback_env
              ["https://youtu.be/dQw4w9WgXcQ/"] Examples.fresh_world
              "https://youtu.be/dQw4w9WgXcQ/" "dQw4w9WgXcQ/")
    as (r & w' & Hrun & Hlive & Hnot & Hagain).
  - reflexivity.
  - discriminate.
  - apply not_elem_of_nil.
  - destruct (Hlive eq_refl) as [videos ->].
    exists videos, w'. split; [exact Hrun|]. split; [exact Hnot|].
    exact (Hagain videos eq_refl).
Defined.

(** X15.  The harvester returns a record exactly when the strict pattern
    matches the URL and the page opens, the metadata and the comment
    elements are read; the record carries the URL and the identifier the
    pattern reads.  It records the close of its browser on that path
    only: when a step throws, the error is rethrown and no close is
    recorded.  It touches neither the tracking file nor table
    [videos]. *)
Theorem harvester_closes_browser_only_on_success
    (env : Scraper.Env) (u : string) (w : World) :
  exists w',
    videos_table w' = videos_table w
    /\ tracking_file w' = tracking_file w
    /\ if Props.harvestable env u
       then exists v,
              Scraper.getYouTubeVideoData env u w = (Ok v, w')
              /\ Scraper.url v = u
              /\ Scraper.url_videoId u = Some (Scraper.videoId v)
              /\ Props.browser_closes (trace w')
                 = Props.browser_closes (trace w) ++ [u]
       else exists e,
              Scraper.getYouTubeVideoData env u w = (Throw e, w')
              /\ Props.browser_closes (trace w')
                 = Props.browser_closes (trace w).
Proof.
  destruct (harvest_logged env u w)
    as (evs & ticks & w' & (Hf & _ & Ht & _ & _ & _ & _ & He) & _ & _
        & Hcase).
  exists w'. split; [assumption|]. split; [assumption|].
  unfold Props.browser_closes in *. rewrite He, omap_app.
  destruct (Props.harvestable env u).
  - destruct Hcase as (v & Hrun & Hurl & Hid & Hb).
    exists v. rewrite Hb. auto.
  - destruct Hcase as (e & Hrun & Hb).
    exists e. rewrite Hb, app_nil_r. auto.
Qed.

(** X16.  The download strategy calls [cleanup()] exactly once when the
    download succeeded, whether or not the transcription then throws, and
    never when the download failed; a [cleanup()] that throws leaves one
    warning and nothing else.  The strategy changes neither the tracking
    file nor table [videos] nor the clock. *)
Theorem downloaded_audio_is_cleaned_up_once
    (env : Scraper.Env) (videoUrl : string) (w : World) :
  exists transcript w',
    Scraper.getYouTubeTranscriptViaDownload env videoUrl w
    = (Ok transcript, w')
    /\ Props.cleanups (trace w')
       = Props.cleanups (trace w)
         ++ match Scraper.videoDownloader env videoUrl with
            | Ok downloadResult => [Scraper.audioPath downloadResult]
            | Throw _ => []
            end
    /\ Props.cleanup_warnings (trace w')
       = Props.cleanup_warnings (trace w)
         ++ match Scraper.videoDownloader env videoUrl with
            | Ok downloadResult =>
                match Scraper.cleanup downloadResult with
                | Ok _ => []
                | Throw _ => [Scraper.audioPath downloadResult]
                end
            | Throw _ => []
            end
    /\ tracking_file w' = tracking_file w
    /\ videos_table w' = videos_table w
    /\ clock w' = clock w.
Proof.
  destruct (download_logged env videoUrl w)
    as (evs & w' & Hrun & (Hf & _ & Ht & _ & _ & _ & Hc & He) & Hevs).
  eexists _, w'. split; [exact Hrun|].
  unfold Props.cleanups, Props.cleanup_warnings.
  rewrite He, !omap_app, Hevs.
  destruct (Scraper.videoDownloader env videoUrl) as [d|];
    [destruct (Scraper.cleanup d)|]; repeat split; assumption.
Qed.

Section PlaywrightFacts.

(** The [try] block of [getTranscriptViaPlaywright] logs no close of the
    browser; only the [finally] block does. *)
Lemma playwright_body_closes (env : Scraper.Env) (videoUrl : string)
    (w : World) :
  exists r w',
    bind (Scraper.call (Scraper.page_navigate env videoUrl))
      (fun _ =>
         bind (Scraper.transcript_panel env videoUrl)
           (fun panel =>
              match panel with
              | Some fullTranscript => ret fullTranscript
              | None =>
                  bind (Scraper.caption_track env videoUrl)
                    (fun captions =>
                       match captions with
                       | Some cleanTranscript => ret cleanTranscript
                       | None => ret EmptyString
                       end)
              end)) w = (r, w')
    /\ Props.browser_closes (trace w') = Props.browser_closes (trace w)
    /\ (forall e, r = Throw e ->
          Scraper.page_navigate env videoUrl = Throw e
          \/ Scraper.moreActionsVisible env videoUrl = Throw e
          \/ Scraper.transcriptOptionVisible env videoUrl = Throw e
          \/ Scraper.transcriptSegments env videoUrl = Throw e).
Proof.
  unfold Scraper.transcript_panel, Scraper.caption_track, Props.browser_closes.
  unfold try_catch, bind, ret, log, Scraper.call.
  cbn [trace set_trace].
  destruct (Scraper.page_navigate env videoUrl);
    [|eexists _, _; split; [reflexivity|]; split; [reflexivity|];
      intros ? [= <-]; auto].
  destruct (Scraper.moreActionsVisible env videoUrl) as [[]|];
    [destruct (Scraper.transcriptOptionVisible env videoUrl) as [[]|];
     [destruct (Scraper.transcriptSegments env videoUrl);
      [destruct (Nat.ltb 0 (length _))|]| |]| |].
  all: try (eexists _, _; split; [reflexivity|]; cbn;
            rewrite ?omap_app, ?app_nil_r;
            split; [reflexivity|]; intros ? [= <-]; now auto).
  all: destruct (Scraper.captionTranscript env videoUrl) as [[c|]|];
       [destruct (Nat.ltb 50 (Js.length c))| |].
  all: eexists _, _; (split; [reflexivity|]); cbn;
       rewrite ?omap_app, ?app_nil_r;
       (split; [reflexivity|]); intros ? [=].
Qed.

End PlaywrightFacts.

(** X17.  [getTranscriptViaPlaywright] closes the browser exactly once
    whenever the launch succeeded, whatever happens afterwards; when the
    launch throws, it rethrows and leaves the world as it is.  It throws
    only what the navigation or a step of the transcript panel throws: a
    failure of the caption step never escapes. *)
Theorem playwright_closes_the_browser_it_launched
    (env : Scraper.Env) (videoUrl : string) (w : World) :
  match Scraper.chromium_launch env with
  | Throw e =>
      Scraper.getTranscriptViaPlaywright env videoUrl w = (Throw e, w)
  | Ok _ =>
      exists r w',
        Scraper.getTranscriptViaPlaywright env videoUrl w = (r, w')
        /\ Props.browser_closes (trace w')
           = Props.browser_closes (trace w) ++ [videoUrl]
        /\ forall e, r = Throw e ->
             Scraper.page_navigate env videoUrl = Throw e
             \/ Scraper.moreActionsVisible env videoUrl = Throw e
             \/ Scraper.transcriptOptionVisible env videoUrl = Throw e
             \/ Scraper.transcriptSegments env videoUrl = Throw e
  end.
Proof.
  unfold Scraper.getTranscriptViaPlaywright.
  destruct (Scraper.chromium_launch env) as [[]|e] eqn:Hlaunch;
    [|reflexivity].
  destruct (playwright_body_closes env videoUrl w)
    as (r & w1 & Hbody & Hcl & Hthrow).
  exists r. eexists.
  unfold bind at 1, Scraper.call at 1, try_finally.
  rewrite Hbody. unfold log. split; [reflexivity|].
  split; [|exact Hthrow].
  unfold Props.browser_closes in *. cbn [trace set_trace].
  now rewrite omap_app, Hcl.
Qed.

Section CommentLoopFacts.

Lemma comment_loop_spec (els : list (option string)) (n : nat) :
  forall (i : nat) (acc : list string),
    i + n <= length els ->
    fold_left (Scraper.comment_step els) (seq i n) acc
    = acc ++ filter (fun c => 10 < Js.length c)
               (omap (fmap Js.trim) (take n (drop i els))).
Proof.
  induction n as [|n IH]; intros i acc Hlen.
  - cbn. now rewrite app_nil_r.
  - cbn [seq fold_left].
    destruct (lookup_lt_is_Some_2 els i) as [x Hx]; [lia|].
    rewrite IH by lia.
    rewrite (drop_S els x i Hx). cbn [take].
    unfold Scraper.comment_step at 1. rewrite Hx.
    destruct x as [textContent|]; [|reflexivity].
    change (omap (fmap Js.trim) (Some textContent :: take n (drop (S i) els)))
      with (Js.trim textContent
            :: omap (fmap Js.trim) (take n (drop (S i) els))).
    destruct (Nat.ltb_spec 10 (Js.length (Js.trim textContent))).
    + rewrite filter_cons_True by assumption.
      now rewrite <- app_assoc.
    + rewrite filter_cons_False by lia. reflexivity.
Qed.

End CommentLoopFacts.

(** X18.  The comment loop is a filter over the first 50 comment elements:
    it keeps, in page order, the trimmed text of each of those elements
    that has a text longer than 10 code units.  Elements past the 50th
    are never read, even when fewer than 50 comments were kept; the
    later [slice(0, 50)] changes nothing. *)
Theorem extractComments_filters_the_first_fifty_elements
    (commentElements : list (option string)) :
  Scraper.extractComments commentElements
  = filter (fun c => 10 < Js.length c)
      (omap (fmap Js.trim) (take 50 commentElements))
  /\ take 50 (Scraper.extractComments commentElements)
     = Scraper.extractComments commentElements.
Proof.
  assert (Heq : Scraper.extractComments commentElements
                = filter (fun c => 10 < Js.length c)
                    (omap (fmap Js.trim) (take 50 commentElements))).
  { unfold Scraper.extractComments.
    rewrite comment_loop_spec by lia. cbn [app]. rewrite drop_0.
    destruct (Nat.le_ge_cases (length commentElements) 50) as [Hle|Hge].
    - rewrite Nat.min_l by assumption.
      rewrite (take_ge commentElements (length commentElements)) by lia.
      now rewrite (take_ge commentElements 50) by lia.
    - now rewrite Nat.min_r by assumption. }
  split; [exact Heq|].
  apply take_ge, extractComments_bounds.
Qed.

(* ===================================================================== *)
(** * The run ledger when the row of the run exists *)
(* ===================================================================== *)

Section LedgerUpdateFacts.
Import LedgerData.

Lemma rows_of_present (runId : string) (rows : list RunRow) :
  runId ∈ run_id <$> rows -> 0 < length (Ledger.rows_of runId rows).
Proof.
  intros (r & Hr & Hin)%list_elem_of_fmap.
  assert (Hrow : r ∈ Ledger.rows_of runId rows)
    by (apply list_elem_of_filter; auto).
  destruct (Ledger.rows_of runId rows); [inversion Hrow | cbn; lia].
Qed.

(** The rows an update touches, and the rows it leaves alone. *)
Lemma rows_of_update (change : RunRow -> RunRow) (runId id : string)
    (rows : list RunRow) :
  (forall r, run_id (change r) = run_id r) ->
  Ledger.rows_of id
    ((fun r => if decide (run_id r = runId) then change r else r) <$> rows)
  = if decide (id = runId)
    then change <$> Ledger.rows_of id rows
    else Ledger.rows_of id rows.
Proof.
  intros Hkeep. unfold Ledger.rows_of.
  destruct (decide (id = runId)) as [->|Hid].
  - induction rows as [|r rows IH]; [reflexivity|].
    rewrite fmap_cons, !filter_cons.
    destruct (decide (run_id r = runId)) as [Hr|Hr].
    + rewrite decide_True by (rewrite Hkeep; exact Hr).
      now rewrite fmap_cons, IH.
    + rewrite decide_False by exact Hr. exact IH.
  - induction rows as [|r rows IH]; [reflexivity|].
    rewrite fmap_cons, !filter_cons.
    destruct (decide (run_id r = runId)) as [Hr|Hr].
    + rewrite decide_False by (rewrite Hkeep; congruence).
      rewrite decide_False by congruence. exact IH.
    + now rewrite IH.
Qed.

Lemma update_where_answered (change : Time -> RunRow -> RunRow)
    (runId : string) (w : World) :
  Spec.database_answers w = true ->
  exists w',
    Ledger.update_where change runId w
    = (Ok (run_id <$> Ledger.rows_of runId (workflow_runs w)), w')
    /\ workflow_runs w'
       = (fun r => if decide (run_id r = runId)
                   then change (clock w) r else r) <$> workflow_runs w
    /\ trace w' = trace w
    /\ db_faults w' = tl (db_faults w)
    /\ clock w' = S (clock w)
    /\ tracking_file w' = tracking_file w
    /\ videos_table w' = videos_table w.
Proof.
  unfold Spec.database_answers, Ledger.update_where, bind, db_statement, now.
  destruct (db_faults w) as [|[] fs] eqn:Hf; [|discriminate|]; intros _;
    cbn -[Ledger.rows_of]; eexists; repeat split; cbn; now rewrite ?Hf.
Qed.

Lemma update_where_faulted (change : Time -> RunRow -> RunRow)
    (runId : string) (w : World) :
  Spec.database_answers w = false ->
  exists w',
    Ledger.update_where change runId w = (Throw "database error", w')
    /\ workflow_runs w' = workflow_runs w
    /\ trace w' = trace w
    /\ db_faults w' = tl (db_faults w)
    /\ clock w' = clock w.
Proof.
  unfold Spec.database_answers, Ledger.update_where, bind, db_statement, now.
  destruct (db_faults w) as [|[] fs] eqn:Hf; try discriminate; intros _.
  eexists; repeat split; cbn; now rewrite ?Hf.
Qed.

(** Completion of a run whose row exists: one statement, no insert. *)
Lemma mark_completed_present (trigger_ : string)
    (schedule_ : option string) (runId : string) (w : World) :
  runId ∈ run_id <$> workflow_runs w ->
  Spec.database_answers w = true ->
  exists w',
    Ledger.mark_completed trigger_ schedule_ runId w = (Ok tt, w')
    /\ workflow_runs w'
       = (fun r => if decide (run_id r = runId)
                   then Ledger.set_completed (clock w) r else r)
         <$> workflow_runs w
    /\ trace w' = trace w ++ [RunFinished trigger_ runId "completed"]
    /\ db_faults w' = tl (db_faults w).
Proof.
  intros Hin Hdb.
  destruct (update_where_answered Ledger.set_completed runId w Hdb)
    as (w1 & Hup & Hrows & Htr & Hf & _).
  unfold Ledger.mark_completed. rewrite (bind_Ok _ _ _ _ _ Hup).
  apply rows_of_present in Hin.
  rewrite length_fmap.
  destruct (length (Ledger.rows_of runId (workflow_runs w))); [lia|].
  cbn [Nat.eqb]. unfold bind, ret, log.
  eexists. split; [reflexivity|]. cbn. now rewrite Hrows, Htr, Hf.
Qed.

(** The [catch] path of a run whose row exists. *)
Lemma mark_failed_present (trigger_ : string) (schedule_ : option string)
    (runId : string) (error : Error) (w : World) :
  runId ∈ run_id <$> workflow_runs w ->
  Spec.database_answers w = true ->
  exists w',
    Ledger.mark_failed trigger_ schedule_ runId error w = (Ok tt, w')
    /\ workflow_runs w'
       = (fun r => if decide (run_id r = runId)
                   then Ledger.set_failed
                          (Js.slice0 1000 (String_of_error error))
                          (clock w) r
                   else r)
         <$> workflow_runs w
    /\ trace w' = trace w ++ [RunFinished trigger_ runId "failed"]
    /\ db_faults w' = tl (db_faults w).
Proof.
  intros Hin Hdb.
  destruct (update_where_answered
              (Ledger.set_failed (Js.slice0 1000 (String_of_error error)))
              runId w Hdb)
    as (w1 & Hup & Hrows & Htr & Hf & _).
  unfold Ledger.mark_failed.
  apply rows_of_present in Hin.
  erewrite try_catch_Ok.
  2: { rewrite (bind_Ok _ _ _ _ _ Hup). rewrite length_fmap.
       destruct (length (Ledger.rows_of runId (workflow_runs w))); [lia|].
       cbn [Nat.eqb]. unfold bind, ret, log. reflexivity. }
  eexists. split; [reflexivity|]. cbn. now rewrite Hrows, Htr, Hf.
Qed.

(** The [catch] block never throws by itself. *)
Lemma mark_failed_returns (trigger_ : string) (schedule_ : option string)
    (runId : string) (error : Error) (w : World) :
  exists w', Ledger.mark_failed trigger_ schedule_ runId error w = (Ok tt, w').
Proof.
  unfold Ledger.mark_failed, try_catch.
  match goal with
  | |- context [match ?body w with _ => _ end] =>
      destruct (body w) as [[[]|e] w1]
  end; [eauto|]. unfold log. eauto.
Qed.

Lemma slice0_length_le (n : nat) (s : string) :
  Js.length (Js.slice0 n s) <= n.
Proof. rewrite slice0_length. lia. Qed.

Lemma defensive_inserts_RunFinished (runId : string) (tr : list Event)
    (trigger_ r status_ : string) :
  Spec.defensive_inserts runId (tr ++ [RunFinished trigger_ r status_])
  = Spec.defensive_inserts runId tr.
Proof. rewrite defensive_inserts_snoc. cbn. now rewrite app_nil_r. Qed.

End LedgerUpdateFacts.

(** X19.  When the workflow throws, the run has a row and the update is
    answered, the manual wrapper rethrows the workflow's error after
    marking the run's rows [failed] in place, with [completed_at] and
    the first 1000 code units of [String(error)] as [error_message]; no
    row is added or removed, the rows of other runs are unchanged, and
    no defensive insert is logged. *)
Theorem failed_run_is_marked_failed_in_place
    (WorkflowResult : Type)
    (workflow : option (list string) -> string -> M WorkflowResult)
    (runId : string) (inputData : option (list string))
    (error : Error) (w w1 : World) :
  workflow inputData runId w = (Throw error, w1) ->
  runId ∈ LedgerData.run_id <$> workflow_runs w1 ->
  Spec.database_answers w1 = true ->
  exists w',
    Ledger.registerManualWorkflow workflow runId inputData w
    = (Throw error, w')
    /\ Ledger.rows_of runId (workflow_runs w')
       = Ledger.set_failed (Js.slice0 1000 (String_of_error error))
           (clock w1)
         <$> Ledger.rows_of runId (workflow_runs w1)
    /\ Ledger.rows_of runId (workflow_runs w') <> []
    /\ Js.length (Js.slice0 1000 (String_of_error error)) <= 1000
    /\ (forall other, other <> runId ->
          Ledger.rows_of other (workflow_runs w')
          = Ledger.rows_of other (workflow_runs w1))
    /\ length (workflow_runs w') = length (workflow_runs w1)
    /\ Spec.defensive_inserts runId (trace w')
       = Spec.defensive_inserts runId (trace w1).
Proof.
  intros Hwf Hin Hdb.
  destruct (mark_failed_present "manual" None runId error w1 Hin Hdb)
    as (w' & Hrun & Hrows & Htr & _).
  exists w'. unfold Ledger.registerManualWorkflow.
  rewrite (try_catch_bind_throw _ _ _ _ _ _ Hwf).
  rewrite (bind_Ok _ _ _ _ _ Hrun). split; [reflexivity|].
  rewrite Hrows, Htr.
  split; [|split; [|split; [|split; [|split]]]].
  - rewrite rows_of_update by reflexivity. now rewrite decide_True.
  - rewrite rows_of_update by reflexivity. rewrite decide_True by reflexivity.
    apply rows_of_present in Hin.
    destruct (Ledger.rows_of runId (workflow_runs w1)); [cbn in Hin; lia|].
    discriminate.
  - apply slice0_length_le.
  - intros other Hne. rewrite rows_of_update by reflexivity.
    now rewrite decide_False.
  - apply length_fmap.
  - apply defensive_inserts_RunFinished.
Qed.

(** X19 on a sample input. *)
Lemma failed_run_is_marked_failed_in_place_witness :
  exists w',
    Ledger.registerManualWorkflow Samples.failing_workflow
      "manual-1700000000000" None
      (Samples.running_world "manual-1700000000000" [])
    = (Throw "Scraping failed", w')
    /\ Ledger.rows_of "manual-1700000000000" (workflow_runs w')
       = Ledger.set_failed (Js.slice0 1000 (String_of_error "Scraping failed"))
           (clock (Samples.running_world "manual-1700000000000" []))
         <$> Ledger.rows_of "manual-1700000000000"
               (workflow_runs
                  (Samples.running_world "manual-1700000000000" []))
    /\ Ledger.rows_of "manual-1700000000000" (workflow_runs w') <> []
    /\ Js.length (Js.slice0 1000 (String_of_error "Scraping failed")) <= 1000
    /\ (forall other, other <> "manual-1700000000000" ->
          Ledger.rows_of other (workflow_runs w')
          = Ledger.rows_of other
              (workflow_runs
                 (Samples.running_world "manual-1700000000000" [])))
    /\ length (workflow_runs w')
       = length (workflow_runs
                   (Samples.running_world "manual-1700000000000" []))
    /\ Spec.defensive_inserts "manual-1700000000000" (trace w')
       = Spec.defensive_inserts "manual-1700000000000"
           (trace (Samples.running_world "manual-1700000000000" [])).
Proof.
  apply (failed_run_is_marked_failed_in_place unit Samples.failing_workflow
           "manual-1700000000000" None "Scraping failed"
           (Samples.running_world "manual-1700000000000" [])
           (Samples.running_world "manual-1700000000000" [])).
  - reflexivity.
  - apply list_elem_of_here.
  - reflexivity.
Defined.

Section WrapperOutcomeFacts.
Import LedgerData.

Lemma rows_of_nil_missing (runId : string) (rows : list RunRow) :
  Ledger.rows_of runId rows = [] -> runId ∉ run_id <$> rows.
Proof.
  intros Hnil Hin. apply rows_of_present in Hin. rewrite Hnil in Hin.
  cbn in Hin. lia.
Qed.

(** Completion either returns or throws the error of the database. *)
Lemma mark_completed_outcome (trigger_ : string)
    (schedule_ : option string) (runId : string) (w : World) :
  exists r w',
    Ledger.mark_completed trigger_ schedule_ runId w = (r, w')
    /\ (r = Ok tt \/ r = Throw "database error").
Proof.
  unfold Ledger.mark_completed.
  destruct (Spec.database_answers w) eqn:Hdb.
  - destruct (update_where_answered Ledger.set_completed runId w Hdb)
      as (w1 & Hup & Hrows & _).
    rewrite (bind_Ok _ _ _ _ _ Hup). rewrite length_fmap.
    destruct (Ledger.rows_of runId (workflow_runs w)) as [|r0 l] eqn:Hr.
    + cbn [length Nat.eqb]. unfold bind at 1 2, log at 1.
      set (w2 := set_trace _ w1).
      destruct (insert_run_fresh
                  (Ledger.defensive_row trigger_ schedule_ runId "completed"
                     None
                     "Record created during completion due to missing initial record")
                  w2) as (r3 & w3 & -> & _ & _ & Hins).
      { intros t. cbn. rewrite Hrows.
        rewrite update_rows_missing by now apply rows_of_nil_missing.
        now apply rows_of_nil_missing. }
      destruct (Spec.database_answers w2).
      * destruct Hins as [-> _]. unfold log. eauto.
      * rewrite Hins. eauto.
    + cbn [length Nat.eqb]. unfold bind, ret, log. eauto.
  - destruct (update_where_faulted Ledger.set_completed runId w Hdb)
      as (w1 & Hup & _).
    rewrite (bind_Throw _ _ _ _ _ Hup). eauto.
Qed.

End WrapperOutcomeFacts.

(** X20.  Whatever the database does, the manual wrapper never turns a
    failure into a success and never replaces the workflow's error: when
    the workflow throws, the wrapper throws the same error; when the
    workflow returns, the wrapper returns the workflow's result or throws
    the error of the database. *)
Theorem manual_wrapper_preserves_the_outcome
    (WorkflowResult : Type)
    (workflow : option (list string) -> string -> M WorkflowResult)
    (runId : string) (inputData : option (list string)) (w : World) :
  exists w',
    match workflow inputData runId w with
    | (Throw error, _) =>
        Ledger.registerManualWorkflow workflow runId inputData w
        = (Throw error, w')
    | (Ok result, _) =>
        Ledger.registerManualWorkflow workflow runId inputData w
        = (Ok result, w')
        \/ Ledger.registerManualWorkflow workflow runId inputData w
           = (Throw "database error", w')
    end.
Proof.
  unfold Ledger.registerManualWorkflow.
  destruct (workflow inputData runId w) as [[result|error] w1] eqn:Hwf.
  - rewrite (try_catch_bind_ok _ _ _ _ _ _ Hwf).
    destruct (mark_completed_outcome "manual" None runId w1)
      as (r & w2 & Hrun & [->| ->]).
    + exists w2. left. unfold try_catch.
      now rewrite (bind_Ok _ _ _ _ _ Hrun).
    + destruct (mark_failed_returns "manual" None runId "database error" w2)
        as (w3 & Hfail).
      exists w3. right.
      rewrite (try_catch_bind_throw _ _ _ _ _ _ Hrun).
      now rewrite (bind_Ok _ _ _ _ _ Hfail).
  - rewrite (try_catch_bind_throw _ _ _ _ _ _ Hwf).
    destruct (mark_failed_returns "manual" None runId error w1)
      as (w2 & Hfail).
    exists w2. now rewrite (bind_Ok _ _ _ _ _ Hfail).
Qed.

(** X21.  The completion update sits inside the [try] block: when the
    workflow returns but that update throws, the wrapper throws the
    error of the database, and (the next statement being answered) the
    run's rows are marked [failed] with that error as message, although
    the workflow succeeded. *)
Theorem failed_completion_update_fails_the_run
    (WorkflowResult : Type)
    (workflow : option (list string) -> string -> M WorkflowResult)
    (runId : string) (inputData : option (list string))
    (result : WorkflowResult) (w w1 : World) (faults : list bool) :
  workflow inputData runId w = (Ok result, w1) ->
  runId ∈ LedgerData.run_id <$> workflow_runs w1 ->
  db_faults w1 = true :: false :: faults ->
  exists w',
    Ledger.registerManualWorkflow workflow runId inputData w
    = (Throw "database error", w')
    /\ Ledger.rows_of runId (workflow_runs w')
       = Ledger.set_failed
           (Js.slice0 1000 (String_of_error "database error")) (clock w1)
         <$> Ledger.rows_of runId (workflow_runs w1)
    /\ Ledger.rows_of runId (workflow_runs w') <> []
    /\ db_faults w' = faults.
Proof.
  intros Hwf Hin Hf.
  unfold Ledger.registerManualWorkflow.
  rewrite (try_catch_bind_ok _ _ _ _ _ _ Hwf).
  assert (Hdb : Spec.database_answers w1 = false)
    by (unfold Spec.database_answers; now rewrite Hf).
  destruct (update_where_faulted Ledger.set_completed runId w1 Hdb)
    as (w2 & Hup & Hrows2 & Htr2 & Hf2 & Hc2).
  assert (Hcompl : Ledger.mark_completed "manual" None runId w1
                   = (Throw "database error", w2)).
  { unfold Ledger.mark_completed. now rewrite (bind_Throw _ _ _ _ _ Hup). }
  rewrite (try_catch_bind_throw _ _ _ _ _ _ Hcompl).
  rewrite Hf in Hf2. cbn [tl] in Hf2.
  destruct (mark_failed_present "manual" None runId "database error" w2)
    as (w3 & Hfail & Hrows3 & _ & Hf3).
  { now rewrite Hrows2. }
  { unfold Spec.database_answers. now rewrite Hf2. }
  exists w3. rewrite (bind_Ok _ _ _ _ _ Hfail).
  split; [reflexivity|].
  rewrite Hrows3, Hrows2, Hc2, Hf3, Hf2.
  rewrite rows_of_update by reflexivity. rewrite decide_True by reflexivity.
  repeat split.
  apply rows_of_present in Hin.
  destruct (Ledger.rows_of runId (workflow_runs w1)); [cbn in Hin; lia|].
  discriminate.
Qed.

(** X21 on a sample input. *)
Lemma failed_completion_update_fails_the_run_witness :
  exists w',
    Ledger.registerManualWorkflow Examples.idle_workflow
      "manual-1700000000000" None
      (Samples.running_world "manual-1700000000000" [true; false])
    = (Throw "database error", w')
    /\ Ledger.rows_of "manual-1700000000000" (workflow_runs w')
       = Ledger.set_failed
           (Js.slice0 1000 (String_of_error "database error"))
           (clock (Samples.running_world "manual-1700000000000"
                     [true; false]))
         <$> Ledger.rows_of "manual-1700000000000"
               (workflow_runs
                  (Samples.running_world "manual-1700000000000"
                     [true; false]))
    /\ Ledger.rows_of "manual-1700000000000" (workflow_runs w') <> []
    /\ db_faults w' = [].
Proof.
  apply (failed_completion_update_fails_the_run unit Examples.idle_workflow
           "manual-1700000000000" None tt
           (Samples.running_world "manual-1700000000000" [true; false])
           (Samples.running_world "manual-1700000000000" [true; false]) []).
  - reflexivity.
  - apply list_elem_of_here.
  - reflexivity.
Defined.

Section CronFacts.
Import LedgerData.

(** An insert that is answered found the [run_id] free and appended the
    row. *)
Lemma insert_run_inv (row : Time -> RunRow) (w w0 : World) :
  Ledger.insert_run row w = (Ok tt, w0) ->
  (run_id (row (clock w)) ∉ run_id <$> workflow_runs w)
  /\ workflow_runs w0 = workflow_runs w ++ [row (clock w)]
  /\ trace w0 = trace w.
Proof.
  unfold Ledger.insert_run, bind, db_statement, now.
  destruct (db_faults w) as [|[] fs]; try discriminate;
    cbn [workflow_runs clock set_clock set_db_faults];
    case_decide; try discriminate; intros [= <-]; auto.
Qed.

End CronFacts.

(** X22.  A cron run whose start is recorded, whose workflow returns and
    leaves the row of the run in place, changing at most its
    [video_count] (as the store stage does), and whose completion
    update is answered, returns the workflow's result and leaves exactly
    one row for the run: the row inserted at the start, now [completed]
    with the time of the update as completion time, no error message,
    the [video_count] the workflow set, and the metadata [{ trigger:
    'cron', schedule }] without the defensive marker.  The rows of other
    runs are as the workflow left them, and the wrapper logs no
    defensive insert. *)
Theorem cron_run_leaves_one_completed_row
    (WorkflowResult : Type)
    (workflow : option (list string) -> string -> M WorkflowResult)
    (cronExpression random : string) (result : WorkflowResult)
    (n : nat) (w w0 w1 : World) :
  Ledger.insert_run
    (Ledger.running_row (Ledger.cron_runId (clock w) random) cronExpression)
    (set_clock (S (clock w)) w) = (Ok tt, w0) ->
  workflow None (Ledger.cron_runId (clock w) random) w0 = (Ok result, w1) ->
  Ledger.rows_of (Ledger.cron_runId (clock w) random) (workflow_runs w1)
  = Persist.set_video_count n
    <$> Ledger.rows_of (Ledger.cron_runId (clock w) random)
          (workflow_runs w0) ->
  Spec.database_answers w1 = true ->
  exists w' row,
    Ledger.registerCronWorkflow workflow cronExpression random w
    = (Ok result, w')
    /\ Ledger.rows_of (Ledger.cron_runId (clock w) random)
         (workflow_runs w') = [row]
    /\ LedgerData.status row = "completed"
    /\ LedgerData.started_at row = S (clock w)
    /\ LedgerData.completed_at row = Some (clock w1)
    /\ LedgerData.error_message row = None
    /\ LedgerData.video_count row = n
    /\ LedgerData.metadata row
       = {| LedgerData.trigger := "cron";
            LedgerData.schedule := Some cronExpression;
            LedgerData.source := None; LedgerData.note := None |}
    /\ (forall other,
          other <> Ledger.cron_runId (clock w) random ->
          Ledger.rows_of other (workflow_runs w')
          = Ledger.rows_of other (workflow_runs w1))
    /\ Spec.defensive_inserts (Ledger.cron_runId (clock w) random)
         (trace w')
       = Spec.defensive_inserts (Ledger.cron_runId (clock w) random)
           (trace w1).
Proof.
  intros Hins Hrun Hrows1 Hdb.
  set (runId := Ledger.cron_runId (clock w) random) in *.
  rewrite registerCronWorkflow_unfold. fold runId.
  rewrite (try_catch_bind_ok _ _ _ _ _ _ Hins).
  rewrite (try_catch_bind_ok _ _ _ _ _ _ Hrun).
  apply insert_run_inv in Hins as (Hfresh & Hrows0 & _).
  cbn [workflow_runs clock set_clock] in Hfresh, Hrows0.
  assert (Hrow : Ledger.rows_of runId (workflow_runs w1)
                 = [Persist.set_video_count n
                      (Ledger.running_row runId cronExpression
                         (S (clock w)))]).
  { rewrite Hrows1, Hrows0. now rewrite rows_of_snoc. }
  destruct (mark_completed_present "cron" (Some cronExpression) runId w1)
    as (w2 & Hcompl & Hrows2 & Htr2 & _).
  { destruct (decide (runId ∈ LedgerData.run_id <$> workflow_runs w1))
      as [Hin|Hnot]; [assumption|].
    apply rows_of_missing in Hnot. rewrite Hnot in Hrow. discriminate. }
  { assumption. }
  exists w2, (Ledger.set_completed (clock w1)
                (Persist.set_video_count n
                   (Ledger.running_row runId cronExpression
                      (S (clock w))))).
  split.
  { unfold try_catch. rewrite (bind_Ok _ _ _ _ _ Hcompl). reflexivity. }
  rewrite Hrows2, Htr2.
  split; [rewrite rows_of_update by reflexivity;
          rewrite decide_True by reflexivity; now rewrite Hrow|].
  do 6 (split; [reflexivity|]).
  split; [|apply defensive_inserts_RunFinished].
  intros other Hne. rewrite rows_of_update by reflexivity.
  now rewrite decide_False.
Qed.

(** X22 on a sample input: a workflow that stores one analysed video
    under the run. *)
Lemma cron_run_leaves_one_completed_row_witness :
  exists w' row,
    Ledger.registerCronWorkflow Samples.storing_workflow
      "TZ=America/Los_Angeles 0 9 * * *" "k3x9q2a" Examples.fresh_world
    = (Ok tt, w')
    /\ Ledger.rows_of
         (Ledger.cron_runId (clock Examples.fresh_world) "k3x9q2a")
         (workflow_runs w') = [row]
    /\ LedgerData.status row = "completed"
    /\ LedgerData.video_count row = 1
    /\ LedgerData.metadata row
       = {| LedgerData.trigger := "cron";
            LedgerData.schedule := Some "TZ=America/Los_Angeles 0 9 * * *";
            LedgerData.source := None; LedgerData.note := None |}
    /\ Spec.defensive_inserts
         (Ledger.cron_runId (clock Examples.fresh_world) "k3x9q2a")
         (trace w')
       = [].
Proof.
  destruct (cron_run_leaves_one_completed_row unit Samples.storing_workflow
              "TZ=America/Los_Angeles 0 9 * * *" "k3x9q2a" tt 1
              Examples.fresh_world
              (snd (Ledger.insert_run
                      (Ledger.running_row
                         (Ledger.cron_runId (clock Examples.fresh_world)
                            "k3x9q2a")
                         "TZ=America/Los_Angeles 0 9 * * *")
                      (set_clock (S (clock Examples.fresh_world))
                         Examples.fresh_world)))
              (snd (Samples.storing_workflow None
                      (Ledger.cron_runId (clock Examples.fresh_world)
                         "k3x9q2a")
                      (snd (Ledger.insert_run
                              (Ledger.running_row
                                 (Ledger.cron_runId
                                    (clock Examples.fresh_world) "k3x9q2a")
                                 "TZ=America/Los_Angeles 0 9 * * *")
                              (set_clock (S (clock Examples.fresh_world))
                                 Examples.fresh_world))))))
    as (w' & row & Hrun & Hrow & Hstatus & _ & _ & _ & Hcount & Hmeta & _
        & Hdef).
  - vm_compute. reflexivity.
  - vm_compute. reflexivity.
  - vm_compute. reflexivity.
  - vm_compute. reflexivity.
  - exists w', row. rewrite Hdef. repeat split; assumption.
Defined.

(* ===================================================================== *)
(** * The stored raw analysis *)
(* ===================================================================== *)

Section TruncationBounds.

Lemma slice0_whole (n : nat) (s : string) :
  Js.length s <= n -> Js.slice0 n s = s.
Proof.
  unfold Js.length.
  revert n. induction s as [|c s IH]; intros [|n] Hlen;
    cbn [String.length Js.slice0] in *; try reflexivity; try lia.
  f_equal. apply IH. lia.
Qed.

Lemma slice0_prefix (n : nat) (a b : string) :
  Js.length a = n -> Js.slice0 n (a +:+ b) = a.
Proof.
  unfold Js.length.
  revert n. induction a as [|c a IH]; intros n Hlen;
    cbn [String.length] in Hlen.
  - subst n. now destruct b.
  - destruct n as [|n]; [discriminate|].
    rewrite append_cons. cbn [Js.slice0]. f_equal. apply IH. lia.
Qed.

Lemma slice0_idem (n : nat) (s : string) :
  Js.slice0 n (Js.slice0 n s) = Js.slice0 n s.
Proof. apply slice0_whole. rewrite slice0_length. lia. Qed.

End TruncationBounds.


(* ===================================================================== *)
(** * The transaction of the persist stage *)
(* ===================================================================== *)

Section PersistFacts.
Context {B : Type}.
Implicit Types (avs : list (Persist.AnalyzedVideo B)).

Lemma faulted_S (n : nat) (faults : list bool) :
  Props.faulted (S n) faults
  = (hd false faults || Props.faulted n (tl faults))%bool.
Proof.
  unfold Props.faulted. destruct faults as [|b fs]; cbn;
    [now destruct n | reflexivity].
Qed.

Lemma faulted_add (n m : nat) (faults : list bool) :
  Props.faulted (n + m) faults
  = (Props.faulted n faults || Props.faulted m (drop n faults))%bool.
Proof.
  revert faults. induction n as [|n IH]; intros faults; [reflexivity|].
  cbn [Nat.add]. rewrite !faulted_S, IH.
  destruct faults as [|b fs]; cbn [hd tl drop orb];
    [now rewrite drop_nil | now rewrite orb_assoc].
Qed.

Lemma statements_cons (v : Persist.AnalyzedVideo B) avs :
  Props.statements (v :: avs)
  = match Persist.analysis v with Some _ => 2 | None => 1 end
    + Props.statements avs.
Proof.
  unfold Props.statements, Props.analysed.
  rewrite filter_cons. destruct (Persist.analysis v); cbn [length].
  - rewrite decide_True by eauto. cbn [length]. lia.
  - rewrite decide_False by (intros [? [=]]). lia.
Qed.

Lemma analysed_cons (v : Persist.AnalyzedVideo B) avs :
  Props.analysed (v :: avs)
  = match Persist.analysis v with Some _ => 1 | None => 0 end
    + Props.analysed avs.
Proof.
  unfold Props.analysed.
  rewrite filter_cons. destruct (Persist.analysis v).
  - rewrite decide_True by eauto. reflexivity.
  - rewrite decide_False by (intros [? [=]]). reflexivity.
Qed.

Lemma same_stores_refl (w : World) : Props.same_stores w w.
Proof. repeat split. Qed.

Lemma same_stores_trans (w w1 w2 : World) :
  Props.same_stores w w1 ->
  Props.same_stores w1 w2 ->
  Props.same_stores w w2.
Proof.
  unfold Props.same_stores.
  intros (? & ? & ? & ? & ? & ? & ?) (? & ? & ? & ? & ? & ? & ?).
  repeat split; congruence.
Qed.

Lemma now_same_stores (w : World) :
  exists t w', now w = (Ok t, w') /\ Props.same_stores w w'.
Proof. eexists _, _. split; [reflexivity|]. repeat split. Qed.

Lemma date_or_now_run (x : option Time) (w : World) :
  exists t w',
    Persist.date_or_now x w = (Ok t, w') /\ Props.same_stores w w'.
Proof.
  destruct x as [t|]; [|apply now_same_stores].
  exists t, w. split; [reflexivity | apply same_stores_refl].
Qed.

(** A statement is answered or throws as the fault script says. *)
Lemma db_statement_run (w : World) :
  exists w',
    db_statement w
    = (if hd false (db_faults w) then Throw "database error" else Ok tt, w')
    /\ tracking_file w' = tracking_file w
    /\ fs_faults w' = fs_faults w
    /\ videos_table w' = videos_table w
    /\ workflow_runs w' = workflow_runs w
    /\ tx_error w' = tx_error w
    /\ trace w' = trace w
    /\ db_faults w' = tl (db_faults w).
Proof.
  unfold db_statement.
  destruct (db_faults w) as [|[] fs] eqn:Hf; eexists;
    (split; [reflexivity|]); cbn; rewrite ?Hf; repeat split.
Qed.

(** A statement of a transaction; the driver keeps its error. *)
Lemma tx_statement_run (w : World) :
  tx_error w = None ->
  exists w',
    Persist.tx_statement w
    = (if hd false (db_faults w) then Throw "database error" else Ok tt, w')
    /\ tracking_file w' = tracking_file w
    /\ fs_faults w' = fs_faults w
    /\ videos_table w' = videos_table w
    /\ workflow_runs w' = workflow_runs w
    /\ trace w' = trace w
    /\ db_faults w' = tl (db_faults w)
    /\ tx_error w' = if hd false (db_faults w)
                     then Some "database error" else None.
Proof.
  intros Hx. unfold Persist.tx_statement.
  destruct (db_statement_run w)
    as (w1 & -> & Hf & Hs & Ht & Hr & Hx1 & He & Hd).
  rewrite Hx in Hx1.
  destruct (hd false (db_faults w)).
  - rewrite Hx1. eexists. split; [reflexivity|]. cbn. repeat split; auto.
  - exists w1. repeat split; auto.
Qed.

Lemma upsert_video_run (id : string) (w : World) :
  tx_error w = None ->
  exists w',
    tracking_file w' = tracking_file w
    /\ fs_faults w' = fs_faults w
    /\ workflow_runs w' = workflow_runs w
    /\ trace w' = trace w
    /\ db_faults w' = tl (db_faults w)
    /\ if hd false (db_faults w)
       then Persist.upsert_video id w = (Throw "database error", w')
            /\ videos_table w' = videos_table w
       else Persist.upsert_video id w = (Ok tt, w')
            /\ tx_error w' = None
            /\ videos_table w'
               = if decide (id ∈ videos_table w) then videos_table w
                 else videos_table w ++ [id].
Proof.
  intros Hx. unfold Persist.upsert_video.
  destruct (tx_statement_run w Hx)
    as (w1 & Hrun & Hf & Hs & Ht & Hr & He & Hd & Hx1).
  destruct (hd false (db_faults w)).
  - exists w1. rewrite (bind_Throw _ _ _ _ _ Hrun). auto 10.
  - rewrite (bind_Ok _ _ _ _ _ Hrun). cbn beta. rewrite Ht.
    destruct (decide (id ∈ videos_table w)).
    + exists w1. repeat split; assumption.
    + exists (Persist.set_videos_table (videos_table w ++ [id]) w1).
      repeat split; assumption.
Qed.

(** The loop: it throws exactly when one of its statements does;
    otherwise every video is counted and its identifier is in the
    table. *)
Lemma save_videos_spec avs :
  forall (v a : nat) (w : World),
  tx_error w = None ->
  exists r w',
    Persist.save_videos avs v a w = (r, w')
    /\ tracking_file w' = tracking_file w
    /\ fs_faults w' = fs_faults w
    /\ workflow_runs w' = workflow_runs w
    /\ trace w' = trace w
    /\ if Props.faulted (Props.statements avs) (db_faults w)
       then exists e, r = Throw e
       else r = Ok (v + length avs, a + Props.analysed avs)
            /\ db_faults w' = drop (Props.statements avs) (db_faults w)
            /\ tx_error w' = None
            /\ (forall id, id ∈ videos_table w'
                           <-> id ∈ videos_table w
                               \/ id ∈ Persist.videoId <$> avs)
            /\ (NoDup (videos_table w) -> NoDup (videos_table w')).
Proof.
  induction avs as [|video avs IH]; intros v a w Hx.
  { exists (Ok (v, a)), w. cbn. rewrite !Nat.add_0_r.
    repeat split; auto.
    intros [?|Hin]; [assumption | now apply elem_of_nil in Hin]. }
  cbn [Persist.save_videos].
  destruct (date_or_now_run (Persist.scrapedAt video) w)
    as (t0 & w0 & Hrun0 & (Hf0 & Hs0 & Ht0 & Hr0 & Hd0 & Hx0 & He0)).
  rewrite (bind_Ok _ _ _ _ _ Hrun0).
  destruct (upsert_video_run (Persist.videoId video) w0)
    as (w1 & Hf1 & Hs1 & Hr1 & He1 & Hd1 & Hup); [congruence|].
  rewrite statements_cons, analysed_cons.
  rewrite Hd0 in Hup, Hd1. rewrite Ht0 in Hup.
  assert (Hdup : NoDup (videos_table w) ->
                 NoDup (if decide (Persist.videoId video ∈ videos_table w)
                        then videos_table w
                        else videos_table w ++ [Persist.videoId video])).
  { intros Hnd. case_decide; [assumption|].
    apply NoDup_app. repeat split; [assumption | | apply NoDup_singleton].
    intros x Hx' ->%list_elem_of_singleton. contradiction. }
  assert (Hmem : forall id,
            id ∈ (if decide (Persist.videoId video ∈ videos_table w)
                  then videos_table w
                  else videos_table w ++ [Persist.videoId video])
            <-> id ∈ videos_table w \/ id = Persist.videoId video).
  { intros id. case_decide.
    - split; [auto | intros [?| ->]; assumption].
    - rewrite elem_of_app, list_elem_of_singleton. reflexivity. }
  destruct (Persist.analysis video) as [an|].
  - (* a video with an analysis: two statements *)
    change (2 + Props.statements avs)
      with (S (S (Props.statements avs))).
    rewrite !faulted_S.
    destruct (hd false (db_faults w)) eqn:Hh1.
    { destruct Hup as [Hup _]. rewrite (bind_Throw _ _ _ _ _ Hup).
      eexists _, w1. split; [reflexivity|].
      repeat split; try congruence. cbn. eauto. }
    destruct Hup as (Hup & Hx1 & Htab1). rewrite (bind_Ok _ _ _ _ _ Hup).
    destruct (date_or_now_run (Persist.analyzedAt an) w1)
      as (t2 & w2 & Hrun2 & (Hf2 & Hs2 & Ht2 & Hr2 & Hd2 & Hx2 & He2)).
    destruct (date_or_now_run (Persist.analyzedAt an) w2)
      as (t3 & w3 & Hrun3 & (Hf3 & Hs3 & Ht3 & Hr3 & Hd3 & Hx3 & He3)).
    destruct (tx_statement_run w3)
      as (w4 & Hrun4 & Hf4 & Hs4 & Ht4 & Hr4 & He4 & Hd4 & Hx4);
      [congruence|].
    rewrite Hd3, Hd2, Hd1 in Hrun4, Hd4, Hx4.
    cbn [orb].
    destruct (hd false (tl (db_faults w))) eqn:Hh2.
    { eexists _, w4. split.
      - erewrite bind_Throw; [reflexivity|].
        rewrite (bind_Ok _ _ _ _ _ Hrun2), (bind_Ok _ _ _ _ _ Hrun3).
        unfold Persist.upsert_analysis.
        now rewrite (bind_Throw _ _ _ _ _ Hrun4).
      - repeat split; try congruence. cbn. eauto. }
    destruct (IH (S v) (S a) w4 Hx4)
      as (r & w' & Hloop & Hf' & Hs' & Hr' & He' & Hcase).
    rewrite Hd4 in Hcase.
    exists r, w'. split.
    { erewrite bind_Ok; [exact Hloop|].
      rewrite (bind_Ok _ _ _ _ _ Hrun2), (bind_Ok _ _ _ _ _ Hrun3).
      unfold Persist.upsert_analysis.
      now rewrite (bind_Ok _ _ _ _ _ Hrun4). }
    split; [congruence|]. split; [congruence|]. split; [congruence|].
    split; [congruence|].
    cbn [orb].
    destruct (Props.faulted _ (tl (tl (db_faults w))));
      [assumption|].
    destruct Hcase as (-> & Hd' & Hx' & Hmem' & Hnd').
    split; [f_equal; cbn [length]; f_equal; lia|].
    split; [rewrite Hd'; destruct (db_faults w) as [|? [|? ?]];
            cbn; now rewrite ?drop_nil|].
    split; [assumption|].
    rewrite Ht4, Ht3, Ht2, Htab1 in Hmem', Hnd'.
    split; [|auto].
    intros id. rewrite Hmem', Hmem, fmap_cons, elem_of_cons. tauto.
  - (* a video without analysis: one statement *)
    change (1 + Props.statements avs)
      with (S (Props.statements avs)).
    rewrite faulted_S.
    destruct (hd false (db_faults w)) eqn:Hh1.
    { destruct Hup as [Hup _]. rewrite (bind_Throw _ _ _ _ _ Hup).
      eexists _, w1. split; [reflexivity|].
      repeat split; try congruence. cbn. eauto. }
    destruct Hup as (Hup & Hx1 & Htab1). rewrite (bind_Ok _ _ _ _ _ Hup).
    destruct (IH (S v) a w1 Hx1)
      as (r & w' & Hloop & Hf' & Hs' & Hr' & He' & Hcase).
    rewrite Hd1 in Hcase.
    exists r, w'. split.
    { unfold bind at 1, ret at 1. exact Hloop. }
    split; [congruence|]. split; [congruence|]. split; [congruence|].
    split; [congruence|].
    cbn [orb].
    destruct (Props.faulted _ (tl (db_faults w))); [assumption|].
    destruct Hcase as (-> & Hd' & Hx' & Hmem' & Hnd').
    split; [f_equal; cbn [length]; f_equal; lia|].
    split; [rewrite Hd'; destruct (db_faults w);
            cbn; now rewrite ?drop_nil|].
    split; [assumption|].
    rewrite Htab1 in Hmem', Hnd'.
    split; [|auto].
    intros id. rewrite Hmem', Hmem, fmap_cons, elem_of_cons. tauto.
Qed.

End PersistFacts.

Section SaveFacts.
Context {B : Type}.
Implicit Types (avs : list (Persist.AnalyzedVideo B)).
Import LedgerData.

Lemma faulted_1 (faults : list bool) :
  Props.faulted 1 faults = hd false faults.
Proof. destruct faults as [|[] fs]; reflexivity. Qed.

Lemma faulted_0 (faults : list bool) : Props.faulted 0 faults = false.
Proof. reflexivity. Qed.

(** The call that creates or writes a file. *)
Lemma fs_write_run (w : World) :
  exists w',
    fs_write w
    = (if hd false (fs_faults w) then Throw "file system error" else Ok tt,
       w')
    /\ tracking_file w' = tracking_file w
    /\ videos_table w' = videos_table w
    /\ workflow_runs w' = workflow_runs w
    /\ db_faults w' = db_faults w
    /\ tx_error w' = tx_error w
    /\ trace w' = trace w
    /\ fs_faults w' = tl (fs_faults w).
Proof.
  unfold fs_write.
  destruct (fs_faults w) as [|[] fs] eqn:Hf; eexists;
    (split; [reflexivity|]); cbn; rewrite ?Hf; repeat split.
Qed.

(** The update of the video count inside its [try] block: the caller
    never sees its error, the driver does. *)
Lemma count_update_run (runId : option string) (n : nat) (w : World) :
  tx_error w = None ->
  exists w',
    match runId with
    | Some (String c r) =>
        try_catch (Persist.update_video_count (String c r) n)
          (fun _ => ret tt)
    | _ => ret tt
    end w = (Ok tt, w')
    /\ tracking_file w' = tracking_file w
    /\ fs_faults w' = fs_faults w
    /\ videos_table w' = videos_table w
    /\ trace w' = trace w
    /\ db_faults w'
       = drop match runId with Some (String _ _) => 1 | _ => 0 end
           (db_faults w)
    /\ if Props.faulted match runId with Some (String _ _) => 1 | _ => 0 end
            (db_faults w)
       then is_Some (tx_error w')
       else tx_error w' = None
            /\ workflow_runs w'
               = match runId with
                 | Some (String c r) =>
                     (fun row => if decide (run_id row = String c r)
                                 then Persist.set_video_count n row
                                 else row)
                     <$> workflow_runs w
                 | _ => workflow_runs w
                 end.
Proof.
  intros Hx.
  assert (Hnone : exists w',
            ret tt w = (Ok tt, w')
            /\ tracking_file w' = tracking_file w
            /\ fs_faults w' = fs_faults w
            /\ videos_table w' = videos_table w
            /\ trace w' = trace w
            /\ db_faults w' = drop 0 (db_faults w)
            /\ if Props.faulted 0 (db_faults w)
               then is_Some (tx_error w')
               else tx_error w' = None
                    /\ workflow_runs w' = workflow_runs w)
    by (exists w; repeat split; assumption).
  destruct runId as [[|c r]|]; try exact Hnone.
  unfold Persist.update_video_count.
  destruct (tx_statement_run w Hx)
    as (w1 & Hrun & Hf & Hs & Ht & Hr & He & Hd & Hx1).
  rewrite faulted_1.
  assert (Hdrop : drop 1 (db_faults w) = tl (db_faults w))
    by (now destruct (db_faults w)).
  rewrite Hdrop.
  destruct (hd false (db_faults w)).
  - exists w1. erewrite try_catch_Throw;
      [|now rewrite (bind_Throw _ _ _ _ _ Hrun)].
    rewrite Hx1. repeat split; eauto.
  - eexists. erewrite try_catch_Ok;
      [|now rewrite (bind_Ok _ _ _ _ _ Hrun)].
    cbn. rewrite Hr. repeat split; assumption.
Qed.

(** The transaction of [saveAnalysisData]: it commits when none of its
    statements throws, [begin] and [commit] included, and leaves the
    tables as they were otherwise. *)
Lemma store_transaction avs (runId : option string) (w : World) :
  exists r w',
    Persist.transaction
      (bind (Persist.save_videos avs 0 0)
         (fun counts =>
            bind match runId with
                 | Some (String c r) =>
                     try_catch
                       (Persist.update_video_count (String c r) (fst counts))
                       (fun _ => ret tt)
                 | _ => ret tt
                 end
              (fun _ => ret counts))) w = (r, w')
    /\ tracking_file w' = tracking_file w
    /\ fs_faults w' = fs_faults w
    /\ trace w' = trace w
    /\ if Props.faulted (Props.sent_statements avs runId) (db_faults w)
       then (exists e, r = Throw e)
            /\ videos_table w' = videos_table w
            /\ workflow_runs w' = workflow_runs w
       else r = Ok (length avs, Props.analysed avs)
            /\ tx_error w' = None
            /\ (forall id, id ∈ videos_table w'
                           <-> id ∈ videos_table w
                               \/ id ∈ Persist.videoId <$> avs)
            /\ (NoDup (videos_table w) -> NoDup (videos_table w'))
            /\ workflow_runs w'
               = match runId with
                 | Some (String c s) =>
                     (fun r => if decide (run_id r = String c s)
                               then Persist.set_video_count (length avs) r
                               else r)
                     <$> workflow_runs w
                 | _ => workflow_runs w
                 end.
Proof.
  unfold Persist.transaction, Props.sent_statements.
  destruct (db_statement_run (set_tx_error None w))
    as (w0 & Hbegin & Hf0 & Hs0 & Ht0 & Hr0 & Hx0 & He0 & Hd0).
  cbn [tracking_file fs_faults videos_table workflow_runs tx_error trace
       db_faults set_tx_error] in *.
  rewrite Hbegin.
  change (1 + Props.statements avs) with (S (Props.statements avs)).
  cbn [Nat.add]. rewrite faulted_S, !faulted_add, faulted_1.
  destruct (hd false (db_faults w)).
  { exists (Throw "database error"), w0. cbn [orb]. eauto 10. }
  cbn [orb]. rewrite <- Hd0.
  destruct (save_videos_spec avs 0 0 w0 Hx0)
    as (r1 & w1 & Hloop & Hf1 & Hs1 & Hr1 & He1 & Hcase).
  destruct (Props.faulted (Props.statements avs) (db_faults w0)).
  { destruct Hcase as [e ->]. rewrite (bind_Throw _ _ _ _ _ Hloop).
    cbn [orb].
    destruct (db_statement_run w1)
      as (w2 & -> & Hf2 & Hs2 & Ht2 & Hr2 & Hx2 & He2 & Hd2).
    destruct (hd false (db_faults w1));
      eexists _, _; (split; [reflexivity|]); cbn;
      repeat split; eauto; congruence. }
  destruct Hcase as (-> & Hd1 & Hx1 & Hmem & Hnd).
  rewrite (bind_Ok _ _ _ _ _ Hloop). cbn [orb fst Nat.add].
  destruct (count_update_run runId (length avs) w1 Hx1)
    as (w2 & Hup & Hf2 & Hs2 & Ht2 & He2 & Hd2 & Hcase).
  rewrite (bind_Ok _ _ _ _ _ Hup). unfold ret at 1.
  rewrite <- Hd1.
  destruct (db_statement_run w2)
    as (w3 & Hend & Hf3 & Hs3 & Ht3 & Hr3 & Hx3 & He3 & Hd3).
  assert (Hhd : hd false (db_faults w2)
                = hd false
                    (drop (Props.statements avs
                           + match runId with
                             | Some (String _ _) => 1
                             | _ => 0
                             end) (db_faults w0))).
  { rewrite Hd2, Hd1, drop_drop. reflexivity. }
  rewrite <- Hhd.
  destruct (Props.faulted _ (db_faults w1)).
  { destruct Hcase as [e He]. rewrite He, Hend. cbn [orb].
    destruct (hd false (db_faults w2));
      eexists _, _; (split; [reflexivity|]); cbn;
      repeat split; eauto; congruence. }
  destruct Hcase as [Hx2 Hrows]. rewrite Hx2, Hend. cbn [orb].
  destruct (hd false (db_faults w2)).
  { eexists _, _. split; [reflexivity|]. cbn.
    repeat split; eauto; congruence. }
  eexists _, _. split; [reflexivity|].
  cbn [tracking_file fs_faults videos_table workflow_runs tx_error trace
       db_faults set_tx_error].
  rewrite Ht0 in Hmem, Hnd.
  split; [congruence|]. split; [congruence|]. split; [congruence|].
  split; [reflexivity|]. split; [reflexivity|].
  split; [intros id; rewrite Ht3, Ht2; apply Hmem|].
  split; [rewrite Ht3, Ht2; exact Hnd|].
  rewrite Hr3, Hrows, Hr1, Hr0. reflexivity.
Qed.

(** The part of [saveAnalysisData] that precedes the transaction: it
    touches neither the tables nor the tracking file, and throws when a
    file cannot be written or [contextProfile] is [undefined] or
    [null]. *)
Lemma saveAnalysisData_files avs (contextProfile : Persist.ContextProfile)
    (runId : option string) (w : World) :
  exists w1,
    tracking_file w1 = tracking_file w
    /\ videos_table w1 = videos_table w
    /\ workflow_runs w1 = workflow_runs w
    /\ db_faults w1 = db_faults w
    /\ trace w1 = trace w
    /\ if match contextProfile with
          | Persist.Profile => negb (Props.faulted 4 (fs_faults w))
          | _ => false
          end
       then Persist.saveAnalysisData avs contextProfile runId w
            = bind
                (Persist.transaction
                   (bind (Persist.save_videos avs 0 0)
                      (fun counts =>
                         bind match runId with
                              | Some (String c r) =>
                                  try_catch
                                    (Persist.update_video_count
                                       (String c r) (fst counts))
                                    (fun _ => ret tt)
                              | _ => ret tt
                              end
                           (fun _ => ret counts))))
                (fun counts =>
                   ret {| Persist.success := true;
                          Persist.videosStored := fst counts;
                          Persist.analysisStored := snd counts;
                          Persist.totalVideos := length avs |}) w1
       else exists e,
              Persist.saveAnalysisData avs contextProfile runId w
              = (Throw e, w1).
Proof.
  unfold Persist.saveAnalysisData, Persist.ensureDataDirectory.
  set (tail := bind (Persist.transaction _) _).
  assert (Hnow : forall (k : M Persist.SaveResult) (w0 : World),
            exists w1, Props.same_tables w0 w1
                       /\ fs_faults w1 = fs_faults w0
                       /\ bind now (fun _ => k) w0 = k w1).
  { intros k w0. exists (set_clock (S (clock w0)) w0).
    split; [|split; reflexivity]. repeat split. }
  assert (Hwrite : forall (k : M Persist.SaveResult) (w0 : World),
            exists w1, Props.same_tables w0 w1
                       /\ fs_faults w1 = tl (fs_faults w0)
                       /\ bind fs_write (fun _ => k) w0
                          = if hd false (fs_faults w0)
                            then (Throw "file system error", w1)
                            else k w1).
  { intros k w0. unfold bind, fs_write.
    destruct (fs_faults w0) as [|[] fs] eqn:Hf;
      [exists w0 | exists (set_fs_faults fs w0)
       | exists (set_fs_faults fs w0)];
      (split; [|split; [|reflexivity]]); cbn; rewrite ?Hf;
      repeat split. }
  assert (Htrans : forall w0 w1 w2,
            Props.same_tables w0 w1 -> Props.same_tables w1 w2 ->
            Props.same_tables w0 w2).
  { unfold Props.same_tables.
    intros w0 w1 w2 (? & ? & ? & ? & ? & ?) (? & ? & ? & ? & ? & ?).
    repeat split; congruence. }
  assert (Hdone : forall w1 (r : Result Persist.SaveResult * World),
            Props.same_tables w w1 ->
            tracking_file w1 = tracking_file w
            /\ videos_table w1 = videos_table w
            /\ workflow_runs w1 = workflow_runs w
            /\ db_faults w1 = db_faults w
            /\ trace w1 = trace w).
  { intros w1 _ (? & ? & ? & ? & ? & ?). auto. }
  (* [ensureDataDirectory] *)
  destruct (Hwrite
              (bind now (fun _ => bind now (fun _ => bind now (fun _ =>
                 bind fs_write (fun _ =>
                   bind match contextProfile with
                        | Persist.Undefined =>
                            throw "The data argument must be of type string"
                        | _ => fs_write
                        end
                     (fun _ => bind now (fun _ =>
                        bind match contextProfile with
                             | Persist.Null =>
                                 throw "Cannot read properties of null (reading 'topKeywords')"
                             | _ => ret tt
                             end
                          (fun _ => bind fs_write (fun _ => tail)))))))))
              w)
    as (w1 & F1 & S1 & ->).
  assert (Hf4 : Props.faulted 4 (fs_faults w)
                = (hd false (fs_faults w)
                   || (hd false (tl (fs_faults w))
                       || (hd false (tl (tl (fs_faults w)))
                           || hd false (tl (tl (tl (fs_faults w)))))))%bool).
  { rewrite !faulted_S, faulted_0. now rewrite orb_false_r. }
  rewrite Hf4.
  destruct (hd false (fs_faults w)).
  { exists w1. cbn [orb negb].
    destruct contextProfile; repeat split; try apply F1; eauto. }
  cbn [orb].
  (* the three time stamps *)
  destruct (Hnow (bind now (fun _ => bind now (fun _ =>
                 bind fs_write (fun _ =>
                   bind match contextProfile with
                        | Persist.Undefined =>
                            throw "The data argument must be of type string"
                        | _ => fs_write
                        end
                     (fun _ => bind now (fun _ =>
                        bind match contextProfile with
                             | Persist.Null =>
                                 throw "Cannot read properties of null (reading 'topKeywords')"
                             | _ => ret tt
                             end
                          (fun _ => bind fs_write (fun _ => tail))))))))
              w1)
    as (w2 & F2 & S2 & ->).
  destruct (Hnow (bind now (fun _ =>
                 bind fs_write (fun _ =>
                   bind match contextProfile with
                        | Persist.Undefined =>
                            throw "The data argument must be of type string"
                        | _ => fs_write
                        end
                     (fun _ => bind now (fun _ =>
                        bind match contextProfile with
                             | Persist.Null =>
                                 throw "Cannot read properties of null (reading 'topKeywords')"
                             | _ => ret tt
                             end
                          (fun _ => bind fs_write (fun _ => tail)))))))
              w2)
    as (w3 & F3 & S3 & ->).
  destruct (Hnow (bind fs_write (fun _ =>
                   bind match contextProfile with
                        | Persist.Undefined =>
                            throw "The data argument must be of type string"
                        | _ => fs_write
                        end
                     (fun _ => bind now (fun _ =>
                        bind match contextProfile with
                             | Persist.Null =>
                                 throw "Cannot read properties of null (reading 'topKeywords')"
                             | _ => ret tt
                             end
                          (fun _ => bind fs_write (fun _ => tail))))))
              w3)
    as (w4 & F4 & S4 & ->).
  pose proof (Htrans _ _ _ (Htrans _ _ _ (Htrans _ _ _ F1 F2) F3) F4) as F.
  assert (S : fs_faults w4 = tl (fs_faults w)) by congruence.
  clear F1 F2 F3 F4 S1 S2 S3 S4 w1 w2 w3.
  (* the analysis file *)
  destruct (Hwrite
              (bind match contextProfile with
                    | Persist.Undefined =>
                        throw "The data argument must be of type string"
                    | _ => fs_write
                    end
                 (fun _ => bind now (fun _ =>
                    bind match contextProfile with
                         | Persist.Null =>
                             throw "Cannot read properties of null (reading 'topKeywords')"
                         | _ => ret tt
                         end
                      (fun _ => bind fs_write (fun _ => tail)))))
              w4)
    as (w5 & F5 & S5 & ->).
  rewrite S in *. pose proof (Htrans _ _ _ F F5) as F'. clear F F5.
  destruct (hd false (tl (fs_faults w))).
  { exists w5. cbn [orb negb].
    destruct contextProfile; repeat split; try apply F'; eauto. }
  cbn [orb].
  destruct contextProfile.
  - (* [undefined] *)
    exists w5. repeat split; try apply F'. eexists. reflexivity.
  - (* [null] *)
    destruct (Hwrite
                (bind now (fun _ =>
                   bind (A := unit)
                     (throw "Cannot read properties of null (reading 'topKeywords')")
                     (fun _ => bind fs_write (fun _ => tail))))
                w5)
      as (w6 & F6 & S6 & ->).
    pose proof (Htrans _ _ _ F' F6) as F.
    destruct (hd false (fs_faults w5)).
    { exists w6. repeat split; try apply F. eauto. }
    eexists. split; [|split; [|split; [|split; [|split]]]].
    6: { eexists. reflexivity. }
    all: cbn; apply F.
  - (* an object *)
    destruct (Hwrite
                (bind now (fun _ =>
                   bind (ret tt) (fun _ => bind fs_write (fun _ => tail))))
                w5)
      as (w6 & F6 & S6 & ->).
    rewrite S5 in *. pose proof (Htrans _ _ _ F' F6) as F. clear F' F6.
    destruct (hd false (tl (tl (fs_faults w)))).
    { exists w6. cbn [orb negb]. repeat split; try apply F. eauto. }
    cbn [orb].
    destruct (Hnow (bind (ret tt) (fun _ => bind fs_write (fun _ => tail)))
                w6)
      as (w7 & F7 & S7 & ->).
    change (bind (ret tt) (fun _ => bind fs_write (fun _ => tail)) w7)
      with (bind fs_write (fun _ => tail) w7).
    destruct (Hwrite tail w7) as (w8 & F8 & S8 & ->).
    rewrite S7, S6 in *.
    pose proof (Htrans _ _ _ (Htrans _ _ _ F F7) F8) as F''.
    destruct (hd false (tl (tl (tl (fs_faults w))))).
    { exists w8. cbn [negb]. repeat split; try apply F''. eauto. }
    exists w8. cbn [negb]. repeat split; try apply F''.
Qed.

(** [saveAnalysisData] as a whole. *)
Lemma saveAnalysisData_spec avs (contextProfile : Persist.ContextProfile)
    (runId : option string) (w : World) :
  exists r w',
    Persist.saveAnalysisData avs contextProfile runId w = (r, w')
    /\ tracking_file w' = tracking_file w
    /\ trace w' = trace w
    /\ if Props.store_succeeds avs contextProfile runId w
       then r = Ok {| Persist.success := true;
                      Persist.videosStored := length avs;
                      Persist.analysisStored := Props.analysed avs;
                      Persist.totalVideos := length avs |}
            /\ (forall id, id ∈ videos_table w'
                           <-> id ∈ videos_table w
                               \/ id ∈ Persist.videoId <$> avs)
            /\ (NoDup (videos_table w) -> NoDup (videos_table w'))
            /\ workflow_runs w'
               = match runId with
                 | Some (String c s) =>
                     (fun r => if decide (run_id r = String c s)
                               then Persist.set_video_count (length avs) r
                               else r)
                     <$> workflow_runs w
                 | _ => workflow_runs w
                 end
       else (exists e, r = Throw e)
            /\ videos_table w' = videos_table w
            /\ workflow_runs w' = workflow_runs w.
Proof.
  destruct (saveAnalysisData_files avs contextProfile runId w)
    as (w1 & Hf1 & Ht1 & Hr1 & Hd1 & He1 & Hfiles).
  unfold Props.store_succeeds.
  destruct (match contextProfile with
            | Persist.Profile => negb (Props.faulted 4 (fs_faults w))
            | _ => false
            end) eqn:Hok.
  2: { destruct Hfiles as [e Hrun]. exists (Throw e), w1.
       split; [assumption|]. split; [assumption|]. split; [assumption|].
       destruct contextProfile; try (repeat split; eauto; fail).
       rewrite Hok. cbn [andb]. repeat split; eauto. }
  destruct contextProfile; try discriminate. rewrite Hok. cbn [andb].
  rewrite Hfiles.
  destruct (store_transaction avs runId w1)
    as (r & w' & Hrun & Hf & _ & He & Hcase).
  rewrite Hd1 in Hcase.
  destruct (Props.faulted _ (db_faults w)); cbn [negb].
  - destruct Hcase as ([e ->] & Ht & Hr).
    rewrite (bind_Throw _ _ _ _ _ Hrun).
    eexists _, w'. split; [reflexivity|].
    repeat split; eauto; congruence.
  - destruct Hcase as (-> & _ & Hmem & Hnd & Hrows).
    rewrite (bind_Ok _ _ _ _ _ Hrun).
    eexists _, w'. split; [reflexivity|].
    rewrite Ht1 in Hmem, Hnd. rewrite Hr1 in Hrows.
    repeat split; try congruence; try apply Hmem; auto.
Qed.

End SaveFacts.

(** X24.  [saveAnalysisData] stores all or nothing, and never touches the
    tracking file.  It returns, with [success: true], exactly when
    [contextProfile] is neither [undefined] nor [null], none of its four
    calls that create or write a file is rejected, and none of the
    statements it sends throws: [begin], one per video, one more per
    analysis, the update of the video count when [runId] is truthy, and
    [commit].  Table [videos] then holds the identifiers it held and
    those of all the videos, without duplicates if it had none.
    Otherwise the call throws, and tables [videos] and [workflow_runs]
    are as before: the update of the video count sits in a [try] block
    of its own, yet when it throws the transaction is rolled back and
    the call throws all the same. *)
Theorem saveAnalysisData_stores_all_or_nothing
    (B : Type) (analyzedVideos : list (Persist.AnalyzedVideo B))
    (contextProfile : Persist.ContextProfile)
    (runId : option string) (w : World) :
  exists r w',
    Persist.saveAnalysisData analyzedVideos contextProfile runId w = (r, w')
    /\ tracking_file w' = tracking_file w
    /\ if Props.store_succeeds analyzedVideos contextProfile runId w
       then (exists res, r = Ok res /\ Persist.success res = true)
            /\ (forall id, id ∈ videos_table w'
                           <-> id ∈ videos_table w
                               \/ id ∈ Persist.videoId <$> analyzedVideos)
            /\ (NoDup (videos_table w) -> NoDup (videos_table w'))
       else (exists e, r = Throw e)
            /\ videos_table w' = videos_table w
            /\ workflow_runs w' = workflow_runs w.
Proof.
  destruct (saveAnalysisData_spec analyzedVideos contextProfile runId w)
    as (r & w' & Hrun & Hf & _ & Hcase).
  exists r, w'. split; [assumption|]. split; [assumption|].
  destruct (Props.store_succeeds _ _ _ w); [|assumption].
  destruct Hcase as (-> & Hmem & Hnd & _). eauto.
Qed.

(** X25.  When [saveAnalysisData] returns, every statement it sent was
    answered; [videosStored] is the number of videos given and
    [analysisStored] the number of those that carry an analysis, never
    more than [videosStored].  With a truthy [runId] the rows of the run
    carry that number as [video_count] and the rows of other runs are
    unchanged; without one the ledger is unchanged. *)
Theorem saveAnalysisData_counts_what_it_stored
    (B : Type) (analyzedVideos : list (Persist.AnalyzedVideo B))
    (contextProfile : Persist.ContextProfile)
    (runId : option string) (w : World)
    (res : Persist.SaveResult) (w' : World) :
  Persist.saveAnalysisData analyzedVideos contextProfile runId w
  = (Ok res, w') ->
  Props.faulted (Props.sent_statements analyzedVideos runId) (db_faults w)
  = false
  /\ Persist.videosStored res = length analyzedVideos
  /\ Persist.analysisStored res = Props.analysed analyzedVideos
  /\ Persist.analysisStored res <= Persist.videosStored res
  /\ match runId with
     | Some (String c s) =>
         (forall other, other <> String c s ->
            Ledger.rows_of other (workflow_runs w')
            = Ledger.rows_of other (workflow_runs w))
         /\ Ledger.rows_of (String c s) (workflow_runs w')
            = Persist.set_video_count (length analyzedVideos)
              <$> Ledger.rows_of (String c s) (workflow_runs w)
     | _ => workflow_runs w' = workflow_runs w
     end.
Proof.
  intros Hrun.
  destruct (saveAnalysisData_spec analyzedVideos contextProfile runId w)
    as (r & w'' & Hrun' & _ & _ & Hcase).
  rewrite Hrun in Hrun'. injection Hrun' as <- <-.
  destruct (Props.store_succeeds _ _ _ w) eqn:Hok;
    [|now destruct Hcase as [[e [=]] _]].
  destruct Hcase as ([= ->] & _ & _ & Hrows). cbn.
  split.
  { unfold Props.store_succeeds in Hok.
    destruct contextProfile; try discriminate.
    apply andb_true_iff in Hok as [_ Hok]. now apply negb_true_iff in Hok. }
  split; [reflexivity|]. split; [reflexivity|].
  split; [unfold Props.analysed; apply length_filter|].
  destruct runId as [[|c s]|]; try assumption.
  rewrite Hrows. split.
  - intros other Hne. rewrite rows_of_update by reflexivity.
    now rewrite decide_False.
  - rewrite rows_of_update by reflexivity. now rewrite decide_True.
Qed.

(** X25 on a sample input. *)
Lemma saveAnalysisData_counts_what_it_stored_witness :
  Persist.saveAnalysisData
    (Samples.analyzedVideos Samples.analysis_succeeds)
    Persist.Profile (Some "manual-1700000000000")
    (Samples.running_world "manual-1700000000000" [])
  = (Ok {| Persist.success := true; Persist.videosStored := 1;
           Persist.analysisStored := 1; Persist.totalVideos := 1 |},
     snd (Persist.saveAnalysisData
            (Samples.analyzedVideos Samples.analysis_succeeds)
            Persist.Profile (Some "manual-1700000000000")
            (Samples.running_world "manual-1700000000000" [])))
  /\ Ledger.rows_of "manual-1700000000000"
       (workflow_runs
          (snd (Persist.saveAnalysisData
                  (Samples.analyzedVideos
                     Samples.analysis_succeeds)
                  Persist.Profile (Some "manual-1700000000000")
                  (Samples.running_world "manual-1700000000000" []))))
     = Persist.set_video_count 1
       <$> Ledger.rows_of "manual-1700000000000"
             (workflow_runs (Samples.running_world "manual-1700000000000" [])).
Proof.
  assert (Hrun : Persist.saveAnalysisData
            (Samples.analyzedVideos Samples.analysis_succeeds)
            Persist.Profile (Some "manual-1700000000000")
            (Samples.running_world "manual-1700000000000" [])
          = (Ok {| Persist.success := true; Persist.videosStored := 1;
                   Persist.analysisStored := 1; Persist.totalVideos := 1 |},
             snd (Persist.saveAnalysisData
                    (Samples.analyzedVideos
                       Samples.analysis_succeeds)
                    Persist.Profile (Some "manual-1700000000000")
                    (Samples.running_world "manual-1700000000000" []))))
    by (vm_compute; reflexivity).
  split; [exact Hrun|].
  destruct (saveAnalysisData_counts_what_it_stored _ _ _ _ _ _ _ Hrun)
    as (_ & _ & _ & _ & _ & Hset).
  exact Hset.
Defined.

(* ===================================================================== *)
(** * The analysis stage *)
(* ===================================================================== *)

Section AnalyzerFacts.
Context {B : Type} (analysis_of : Scraper.ScrapedVideo -> Result B).

Lemma analyze_loop_spec (videos : list Scraper.ScrapedVideo) :
  forall (acc : list (Persist.AnalyzedVideo B)) (w : World),
  exists new w',
    Analyzer.analyze_loop analysis_of videos acc w = (Ok (acc ++ new), w')
    /\ Props.same_stores w w'
    /\ Forall2 (Props.analysis_of_video analysis_of) new
         (filter (fun v => Props.analysable analysis_of v) videos).
Proof.
  induction videos as [|v videos IH]; intros acc w.
  { exists [], w. rewrite app_nil_r.
    split; [reflexivity|]. split; [apply same_stores_refl | constructor]. }
  cbn [Analyzer.analyze_loop]. rewrite filter_cons.
  unfold Analyzer.analyzeVideoContent.
  destruct (analysis_of v) as [body|e] eqn:Hv.
  - destruct (IH (acc ++ [Analyzer.with_analysis v
                            {| Persist.body := body;
                               Persist.analyzedAt := Some (clock w);
                               Persist.analysisModel :=
                                 Some "claude-3-5-sonnet-20241022" |}])
                (set_clock (S (clock w)) w))
      as (new & w' & Hloop & Hs & Hall).
    eexists (_ :: new), w'. split.
    { erewrite bind_Ok; [|reflexivity].
      rewrite Hloop, <- app_assoc. reflexivity. }
    split.
    { destruct Hs as (? & ? & ? & ? & ? & ? & ?).
      repeat split; assumption. }
    rewrite decide_True
      by (unfold Props.analysable; now rewrite Hv).
    constructor; [|assumption].
    exists body, (clock w). auto.
  - destruct (IH acc w) as (new & w' & Hloop & Hs & Hall).
    exists new, w'. split.
    { erewrite bind_Ok; [|reflexivity]. exact Hloop. }
    split; [assumption|].
    rewrite decide_False
      by (unfold Props.analysable; now rewrite Hv).
    assumption.
Qed.

Lemma analysis_of_video_id (a : Persist.AnalyzedVideo B)
    (v : Scraper.ScrapedVideo) :
  Props.analysis_of_video analysis_of a v ->
  Persist.videoId a = Scraper.videoId v
  /\ Persist.url a = Scraper.url v
  /\ is_Some (Persist.analysis a)
  /\ Props.analysable analysis_of v = true.
Proof.
  intros (body & t & Hv & ->). unfold Props.analysable.
  rewrite Hv. cbn. eauto.
Qed.

Lemma analyzer_execute_spec (videos : list Scraper.ScrapedVideo)
    (w : World) :
  exists avs w',
    Analyzer.execute analysis_of (Some videos) w = (Ok avs, w')
    /\ Props.same_stores w w'
    /\ Forall2 (Props.analysis_of_video analysis_of) avs
         (filter (fun v => Props.analysable analysis_of v) videos).
Proof.
  destruct (analyze_loop_spec videos [] w) as (new & w' & Hrun & Hs & Hall).
  exists new, w'. auto.
Qed.

Lemma analyzed_ids (avs : list (Persist.AnalyzedVideo B))
    (videos : list Scraper.ScrapedVideo) :
  Forall2 (Props.analysis_of_video analysis_of) avs videos ->
  Persist.videoId <$> avs = Scraper.videoId <$> videos.
Proof.
  induction 1 as [|a v avs videos Hav _ IH]; [reflexivity|].
  rewrite !fmap_cons, IH.
  now destruct (analysis_of_video_id a v Hav) as (-> & _).
Qed.

End AnalyzerFacts.

(** X26.  The batch analysis never throws.  It returns, in order, one
    analysed video for each video whose analysis succeeds: the video
    with all its fields, and the analysis with [analyzedAt] and
    [analysisModel] set.  A video whose analysis throws is left out and
    the loop goes on.  Tracking file, table [videos] and fault script
    are untouched. *)
Theorem analysis_keeps_the_videos_it_can_analyse
    (B : Type) (analysis_of : Scraper.ScrapedVideo -> Result B)
    (videos : list Scraper.ScrapedVideo) (w : World) :
  exists avs w',
    Analyzer.execute analysis_of (Some videos) w = (Ok avs, w')
    /\ Forall2 (Props.analysis_of_video analysis_of) avs
         (filter (fun v => Props.analysable analysis_of v) videos)
    /\ Persist.videoId <$> avs
       = Scraper.videoId
         <$> filter (fun v => Props.analysable analysis_of v) videos
    /\ length avs <= length videos
    /\ tracking_file w' = tracking_file w
    /\ videos_table w' = videos_table w
    /\ db_faults w' = db_faults w.
Proof.
  destruct (analyzer_execute_spec analysis_of videos w)
    as (avs & w' & Hrun & (Hf & _ & Ht & _ & Hd & _) & Hall).
  exists avs, w'. repeat split; try assumption.
  - now apply (analyzed_ids analysis_of).
  - rewrite (Forall2_length _ _ _ Hall). apply length_filter.
Qed.

(* ===================================================================== *)
(** * Scrape, analyse, store, and the next run *)
(* ===================================================================== *)

Section PipelineFacts.

Lemma tracked_ids_file (w w' : World) :
  tracking_file w' = tracking_file w ->
  Props.tracked_ids w' = Props.tracked_ids w.
Proof.
  intros H. unfold Props.tracked_ids, Spec.index. now rewrite H.
Qed.

Lemma index_available_file (w : World) :
  is_Some (tracking_file w) -> Spec.index_available w = true.
Proof.
  intros [data H]. unfold Spec.index_available. now rewrite H.
Qed.

(** The world after the three stages, when the store returns. *)
Lemma stages_spec {B} (env : Scraper.Env)
    (analysis_of : Scraper.ScrapedVideo -> Result B)
    (videoUrls : list string)
    (contextProfile : Persist.ContextProfile) (runId : option string)
    (w : World) (videos : list Scraper.ScrapedVideo) (w1 : World)
    (avs : list (Persist.AnalyzedVideo B)) (w2 : World)
    (res : Persist.SaveResult) (w3 : World) :
  Scraper.execute env videoUrls w = (Ok videos, w1) ->
  Analyzer.execute analysis_of (Some videos) w1 = (Ok avs, w2) ->
  Persist.saveAnalysisData avs contextProfile runId w2 = (Ok res, w3) ->
  Forall (fun v => Scraper.url_videoId (Scraper.url v)
                   = Some (Scraper.videoId v)) videos
  /\ is_Some (tracking_file w3)
  /\ (fs_faults w = [] ->
      forall v, v ∈ videos -> Scraper.videoId v ∈ Props.tracked_ids w3)
  /\ (forall id,
        id ∈ videos_table w3
        <-> id ∈ videos_table w
            \/ id ∈ Scraper.videoId
                 <$> filter (fun v => Props.analysable analysis_of v)
                       videos).
Proof.
  intros Hscrape Han Hsave.
  destruct (scraper_execute_spec env videoUrls w)
    as (r & w1' & Hrun1 & Ht1 & _ & _ & _ & Hcase1).
  rewrite Hscrape in Hrun1. injection Hrun1 as <- <-.
  destruct (Spec.index_available w); [|now destruct Hcase1 as [[=] _]].
  destruct Hcase1
    as (videos' & [= <-] & Hfile1 & _ & Hids & _ & _ & _ & Hmem1).
  destruct (analyzer_execute_spec analysis_of videos w1)
    as (avs' & w2' & Hrun2 & (Hf2 & _ & Ht2 & _) & Hall).
  rewrite Han in Hrun2. injection Hrun2 as <- <-.
  destruct (saveAnalysisData_spec avs contextProfile runId w2)
    as (r & w3' & Hrun3 & Hf3 & _ & Hcase).
  rewrite Hsave in Hrun3. injection Hrun3 as <- <-.
  destruct (Props.store_succeeds _ _ _ w2);
    [|now destruct Hcase as [[e [=]] _]].
  destruct Hcase as (_ & Hmem3 & _).
  split; [assumption|]. split; [now rewrite Hf3, Hf2|]. split.
  - intros Hnil v Hv.
    rewrite (tracked_ids_file w2 w3 Hf3), (tracked_ids_file w1 w2 Hf2).
    apply (Hmem1 Hnil). now apply list_elem_of_fmap_2.
  - intros id. rewrite Hmem3, Ht2, Ht1.
    now rewrite (analyzed_ids analysis_of _ _ Hall).
Qed.

End PipelineFacts.

(** X27.  Scrape, analyse, store, then ask again.  Take a video that was
    scraped, whose analysis succeeded and whose store returned, and whose
    URL the tracker reads the same identifier from as the harvester.
    Every later request is answered, because the tracking file exists by
    then.  The coordinator does not look at what the tracker answers when
    it records a scraped video: if that write was rejected the video is
    stored but not in the index, and a later request that names its URL
    schedules it again.  If the video is in the index, which is the case
    whenever no file-system call was rejected during the run, no later
    request schedules it, whether or not the database answers then. *)
Theorem stored_video_is_not_scraped_again
    (B : Type) (env : Scraper.Env)
    (analysis_of : Scraper.ScrapedVideo -> Result B)
    (videoUrls videoUrls' : list string)
    (contextProfile : Persist.ContextProfile) (runId : option string)
    (w : World) (videos : list Scraper.ScrapedVideo) (w1 : World)
    (avs : list (Persist.AnalyzedVideo B)) (w2 : World)
    (res : Persist.SaveResult) (w3 : World) (v : Scraper.ScrapedVideo) :
  Scraper.execute env videoUrls w = (Ok videos, w1) ->
  Analyzer.execute analysis_of (Some videos) w1 = (Ok avs, w2) ->
  Persist.saveAnalysisData avs contextProfile runId w2 = (Ok res, w3) ->
  v ∈ videos ->
  Props.analysable analysis_of v = true ->
  Tracker.extractVideoId (Scraper.url v) = Ok (Scraper.videoId v) ->
  Scraper.videoId v ∈ videos_table w3
  /\ (fs_faults w = [] -> Scraper.videoId v ∈ Props.tracked_ids w3)
  /\ exists final w4,
       Scraper.finalVideosToScrape videoUrls' w3 = (Ok final, w4)
       /\ (Scraper.videoId v ∈ Props.tracked_ids w3 ->
           Scraper.url v ∉ final)
       /\ (Scraper.videoId v ∉ Props.tracked_ids w3 ->
           Scraper.url v ∈ videoUrls' -> Scraper.url v ∈ final).
Proof.
  intros Hscrape Han Hsave Hv Hok Hcanon.
  destruct (stages_spec env analysis_of videoUrls contextProfile runId
              w videos w1 avs w2 res w3 Hscrape Han Hsave)
    as (Hids & Hfile & Htracked & Hstored).
  assert (Hin : Scraper.videoId v ∈ videos_table w3).
  { apply Hstored. right.
    apply list_elem_of_fmap_2, list_elem_of_filter.
    split; [now rewrite Hok | assumption]. }
  split; [assumption|]. split; [intros Hnil; now apply Htracked|].
  destruct (finalVideosToScrape_exact videoUrls' w3)
    as (r & w4 & Hrun & _ & _ & _ & _ & _ & _ & Hcase).
  rewrite (index_available_file w3 Hfile) in Hcase.
  destruct Hcase as [-> _].
  exists (Props.scheduled w3 videoUrls'), w4. split; [assumption|].
  rewrite Forall_forall in Hids.
  unfold Props.scheduled. rewrite elem_of_app, !list_elem_of_filter.
  unfold Props.tracker_new. rewrite Hcanon. split.
  - intros Hidx [[Hnew _]|Hre].
    + apply bool_decide_spec in Hnew. now apply Hnew.
    + destruct (Spec.database_answers w3); [|now apply elem_of_nil in Hre].
      apply list_elem_of_filter in Hre as [Hboth _].
      apply andb_True in Hboth as [_ Hmiss].
      unfold Props.missing_from_storage in Hmiss.
      rewrite (Hids v Hv) in Hmiss. apply bool_decide_spec in Hmiss.
      now apply Hmiss.
  - intros Hidx Hu. left. split; [|assumption].
    now apply bool_decide_spec.
Qed.

(** X27 on a sample input. *)
Lemma stored_video_is_not_scraped_again_witness :
  exists final w4,
    Scraper.finalVideosToScrape [Examples.watch_url]
      (snd (Samples.saved Samples.analysis_succeeds))
    = (Ok final, w4)
    /\ Scraper.url Samples.video ∉ final.
Proof.
  destruct (stored_video_is_not_scraped_again unit Examples.fallback_env
              Samples.analysis_succeeds
              [Examples.watch_url] [Examples.watch_url]
              Persist.Profile None
              Examples.fresh_world
              Samples.videos (snd Samples.scraped)
              (Samples.analyzedVideos Samples.analysis_succeeds)
              (snd (Samples.analyzed Samples.analysis_succeeds))
              {| Persist.success := true; Persist.videosStored := 1;
                 Persist.analysisStored := 1; Persist.totalVideos := 1 |}
              (snd (Samples.saved Samples.analysis_succeeds))
              Samples.video)
    as (_ & Hidx & final & w4 & Hrun & Hnot & _).
  - vm_compute. reflexivity.
  - vm_compute. reflexivity.
  - vm_compute. reflexivity.
  - vm_compute. apply list_elem_of_here.
  - reflexivity.
  - vm_compute. reflexivity.
  - exists final, w4. split; [exact Hrun|]. apply Hnot, Hidx. reflexivity.
Defined.

(** X28.  Scrape, analyse, store, then ask again.  A video that was
    scraped but whose analysis failed is never stored: if table [videos]
    had no row for it before the run, it has none after.  It is in the
    index whenever no file-system call was rejected during the run.
    Every later request is answered, and if the database answers then,
    one that names the URL of the video schedules it again, tracked or
    not. *)
Theorem unanalysed_video_is_scraped_again
    (B : Type) (env : Scraper.Env)
    (analysis_of : Scraper.ScrapedVideo -> Result B)
    (videoUrls videoUrls' : list string)
    (contextProfile : Persist.ContextProfile) (runId : option string)
    (w : World) (videos : list Scraper.ScrapedVideo) (w1 : World)
    (avs : list (Persist.AnalyzedVideo B)) (w2 : World)
    (res : Persist.SaveResult) (w3 : World) (v : Scraper.ScrapedVideo) :
  Scraper.execute env videoUrls w = (Ok videos, w1) ->
  Analyzer.execute analysis_of (Some videos) w1 = (Ok avs, w2) ->
  Persist.saveAnalysisData avs contextProfile runId w2 = (Ok res, w3) ->
  v ∈ videos ->
  (forall v', v' ∈ videos -> Scraper.videoId v' = Scraper.videoId v ->
              Props.analysable analysis_of v' = false) ->
  Scraper.videoId v ∉ videos_table w ->
  (Scraper.videoId v ∉ videos_table w3)
  /\ (fs_faults w = [] -> Scraper.videoId v ∈ Props.tracked_ids w3)
  /\ exists final w4,
       Scraper.finalVideosToScrape videoUrls' w3 = (Ok final, w4)
       /\ (Spec.database_answers w3 = true ->
           Scraper.url v ∈ videoUrls' -> Scraper.url v ∈ final).
Proof.
  intros Hscrape Han Hsave Hv Hfail Hnot.
  destruct (stages_spec env analysis_of videoUrls contextProfile runId
              w videos w1 avs w2 res w3 Hscrape Han Hsave)
    as (Hids & Hfile & Htracked & Hstored).
  assert (Hout : Scraper.videoId v ∉ videos_table w3).
  { rewrite Hstored. intros [?|Hin]; [auto|].
    apply list_elem_of_fmap in Hin as (v' & Hid & Hv').
    apply list_elem_of_filter in Hv' as [Hok Hv'].
    rewrite (Hfail v' Hv' (eq_sym Hid)) in Hok. exact Hok. }
  split; [exact Hout|]. split; [intros Hnil; now apply Htracked|].
  destruct (finalVideosToScrape_exact videoUrls' w3)
    as (r & w4 & Hrun & _ & _ & _ & _ & _ & _ & Hcase).
  rewrite (index_available_file w3 Hfile) in Hcase.
  destruct Hcase as [-> _].
  exists (Props.scheduled w3 videoUrls'), w4. split; [assumption|].
  intros Hdb Hu.
  rewrite Forall_forall in Hids.
  assert (Hmiss : Props.missing_from_storage w3 (Scraper.url v) = true).
  { unfold Props.missing_from_storage. rewrite (Hids v Hv).
    now apply bool_decide_eq_true. }
  pose proof (strict_id_parses _ _ (Hids v Hv)) as Hparse.
  unfold Props.parses in Hparse.
  unfold Props.scheduled, Props.tracker_new, Props.tracker_duplicate.
  rewrite Hdb, elem_of_app, !list_elem_of_filter.
  destruct (Tracker.extractVideoId (Scraper.url v)) as [id|];
    [|discriminate].
  destruct (decide (id ∈ Props.tracked_ids w3)) as [Hin|Hnin].
  - right. split; [|assumption]. rewrite Hmiss.
    apply andb_True. split; [now apply bool_decide_spec | exact I].
  - left. split; [now apply bool_decide_spec | assumption].
Qed.

(** X28 on a sample input. *)
Lemma unanalysed_video_is_scraped_again_witness :
  exists final w4,
    Scraper.finalVideosToScrape [Examples.watch_url]
      (snd (Samples.saved Samples.analysis_fails))
    = (Ok final, w4)
    /\ Scraper.url Samples.video ∈ final
    /\ Scraper.videoId Samples.video
       ∈ Props.tracked_ids (snd (Samples.saved Samples.analysis_fails)).
Proof.
  destruct (unanalysed_video_is_scraped_again unit Examples.fallback_env
              Samples.analysis_fails
              [Examples.watch_url] [Examples.watch_url]
              Persist.Profile None
              Examples.fresh_world
              Samples.videos (snd Samples.scraped)
              (Samples.analyzedVideos Samples.analysis_fails)
              (snd (Samples.analyzed Samples.analysis_fails))
              {| Persist.success := true; Persist.videosStored := 0;
                 Persist.analysisStored := 0; Persist.totalVideos := 0 |}
              (snd (Samples.saved Samples.analysis_fails))
              Samples.video)
    as (_ & Hidx & final & w4 & Hrun & Hin).
  - vm_compute. reflexivity.
  - vm_compute. reflexivity.
  - vm_compute. reflexivity.
  - vm_compute. apply list_elem_of_here.
  - intros v' _ _. reflexivity.
  - apply not_elem_of_nil.
  - exists final, w4. split; [exact Hrun|]. split.
    + apply Hin; [vm_compute; reflexivity | apply list_elem_of_here].
    + apply Hidx. reflexivity.
Defined.

(* ===================================================================== *)
(** * The first step of the workflow *)
(* ===================================================================== *)

Section WorkflowFacts.

Lemma resolve_videoUrls_spec (env : Workflow.Env)
    (videoUrls : option (list string)) (w : World) :
  exists urls w',
    Workflow.resolve_videoUrls env videoUrls w = (Ok urls, w')
    /\ tracking_file w' = tracking_file w
    /\ fs_faults w' = fs_faults w
    /\ videos_table w' = videos_table w
    /\ workflow_runs w' = workflow_runs w
    /\ trace w' = trace w
    /\ match videoUrls with
       | Some (u :: rest) => urls = u :: rest /\ w' = w
       | _ =>
           db_faults w' = tl (db_faults w)
           /\ urls
              = if Spec.database_answers w
                then match Workflow.settings_video_urls env with
                     | Some (Workflow.UrlArray settingsUrls) => settingsUrls
                     | Some (Workflow.UrlText (String c s)) =>
                         match Workflow.JSON_parse env (String c s) with
                         | Ok settingsUrls => default [] settingsUrls
                         | Throw _ => Workflow.fallback_urls
                         end
                     | _ => Workflow.fallback_urls
                     end
                else Workflow.fallback_urls
       end.
Proof.
  unfold Workflow.resolve_videoUrls.
  assert (Hsettings :
    exists urls w',
      try_catch
        (bind db_statement
           (fun _ =>
              match Workflow.settings_video_urls env with
              | Some (Workflow.UrlArray settingsUrls) => ret settingsUrls
              | Some (Workflow.UrlText (String c s)) =>
                  bind (Scraper.call (Workflow.JSON_parse env (String c s)))
                    (fun settingsUrls => ret (default [] settingsUrls))
              | _ => ret Workflow.fallback_urls
              end))
        (fun _ => ret Workflow.fallback_urls) w = (Ok urls, w')
      /\ tracking_file w' = tracking_file w
      /\ fs_faults w' = fs_faults w
      /\ videos_table w' = videos_table w
      /\ workflow_runs w' = workflow_runs w
      /\ trace w' = trace w
      /\ db_faults w' = tl (db_faults w)
      /\ urls
         = if Spec.database_answers w
           then match Workflow.settings_video_urls env with
                | Some (Workflow.UrlArray settingsUrls) => settingsUrls
                | Some (Workflow.UrlText (String c s)) =>
                    match Workflow.JSON_parse env (String c s) with
                    | Ok settingsUrls => default [] settingsUrls
                    | Throw _ => Workflow.fallback_urls
                    end
                | _ => Workflow.fallback_urls
                end
           else Workflow.fallback_urls).
  { destruct (db_statement_run w) as (w1 & Hrun & Hf & Hfs & Ht & Hr & _ & He & Hd).
    unfold Spec.database_answers.
    destruct (hd false (db_faults w)); cbn [negb].
    - exists Workflow.fallback_urls, w1.
      erewrite try_catch_Throw; [|now rewrite (bind_Throw _ _ _ _ _ Hrun)].
      repeat split; assumption.
    - unfold try_catch. rewrite (bind_Ok _ _ _ _ _ Hrun).
      destruct (Workflow.settings_video_urls env) as [[l|[|c s]]|];
        try (eexists _, w1; split; [reflexivity|];
             repeat split; assumption).
      unfold bind, Scraper.call, ret.
      destruct (Workflow.JSON_parse env (String c s));
        eexists _, w1; (split; [reflexivity|]); repeat split; assumption. }
  destruct videoUrls as [[|u rest]|].
  - destruct Hsettings as (urls & w' & H). exists urls, w'. tauto.
  - exists (u :: rest), w. repeat split.
  - destruct Hsettings as (urls & w' & H). exists urls, w'. tauto.
Qed.

End WorkflowFacts.


(* ===================================================================== *)
(** * A cron run whose start cannot be recorded *)
(* ===================================================================== *)

Section CronStartFacts.
Import LedgerData.

(** The insert of the [running] row, when the statement throws. *)
Lemma insert_run_faulted (row : Time -> RunRow) (w : World)
    (faults : list bool) :
  db_faults w = true :: faults ->
  Ledger.insert_run row w
  = (Throw "database error", set_db_faults faults w).
Proof.
  intros Hf. unfold Ledger.insert_run, bind, db_statement.
  now rewrite Hf.
Qed.

End CronStartFacts.

(** X30.  When the insert of the [running] row throws, the cron wrapper does
    not start the workflow (its outcome is the same for every workflow)
    and throws the error of the database; the following statements being
    answered, the [catch] block records the run all the same, by one
    defensive insert of a [failed] row with that error as message. *)
Theorem unrecorded_cron_run_never_starts
    (WorkflowResult : Type)
    (workflow workflow' : option (list string) -> string -> M WorkflowResult)
    (cronExpression random : string) (w : World) :
  db_faults w = [true] ->
  Ledger.cron_runId (clock w) random
    ∉ LedgerData.run_id <$> workflow_runs w ->
  Ledger.registerCronWorkflow workflow cronExpression random w
  = Ledger.registerCronWorkflow workflow' cronExpression random w
  /\ exists w',
       Ledger.registerCronWorkflow workflow cronExpression random w
       = (Throw "database error", w')
       /\ Spec.failed_defensively "cron"
            (Ledger.cron_runId (clock w) random) "database error" w w'.
Proof.
  intros Hf Hfresh.
  rewrite !registerCronWorkflow_unfold.
  assert (Hins : Ledger.insert_run
                   (Ledger.running_row (Ledger.cron_runId (clock w) random)
                      cronExpression)
                   (set_clock (S (clock w)) w)
                 = (Throw "database error",
                    set_db_faults [] (set_clock (S (clock w)) w)))
    by (now apply insert_run_faulted).
  rewrite !(try_catch_bind_throw _ _ _ _ _ _ Hins).
  split; [reflexivity|].
  destruct (wrapper_catch (WorkflowResult := WorkflowResult)
              "cron" (Some cronExpression)
              (Ledger.cron_runId (clock w) random) "database error"
              (set_db_faults [] (set_clock (S (clock w)) w)))
    as (w' & Hrun & Hpost); [exact Hfresh | reflexivity |].
  exists w'. split; [exact Hrun|]. exact Hpost.
Qed.

(** X30 on a sample input. *)
Lemma unrecorded_cron_run_never_starts_witness :
  Ledger.registerCronWorkflow Examples.idle_workflow
    "TZ=America/Los_Angeles 0 9 * * *" "k3x9q2a"
    (Samples.running_world "manual-1700000000000" [true])
  = Ledger.registerCronWorkflow Samples.failing_workflow
      "TZ=America/Los_Angeles 0 9 * * *" "k3x9q2a"
      (Samples.running_world "manual-1700000000000" [true])
  /\ exists w',
       Ledger.registerCronWorkflow Examples.idle_workflow
         "TZ=America/Los_Angeles 0 9 * * *" "k3x9q2a"
         (Samples.running_world "manual-1700000000000" [true])
       = (Throw "database error", w')
       /\ Spec.failed_defensively "cron"
            (Ledger.cron_runId
               (clock (Samples.running_world "manual-1700000000000" [true]))
               "k3x9q2a")
            "database error"
            (Samples.running_world "manual-1700000000000" [true]) w'.
Proof.
  apply (unrecorded_cron_run_never_starts unit Examples.idle_workflow
           Samples.failing_workflow "TZ=America/Los_Angeles 0 9 * * *"
           "k3x9q2a" (Samples.running_world "manual-1700000000000" [true])).
  - reflexivity.
  - vm_compute. intros Hin. apply list_elem_of_singleton in Hin.
    discriminate.
Defined.
